(** * TeamPulse: calendar normalization and task reassignment

    A shallow embedding of [normalizer.py] and [reassignment.py], and of
    the loaders and routes of [api.py] that call them, with the properties
    of their specification.

    Layout: Part I holds the definitions (Python primitives, the datetime
    library, binary64 arithmetic, then the source modules function by
    function); Part II holds the lemmas and the theorems of the
    specification; Part III holds further properties of the same code. *)

From Stdlib Require Import ZArith List Ascii Bool Lia SpecFloat DecimalString DecimalZ DecimalPos.
From Stdlib Require String.
From stdpp Require Import base gmap sets list strings sorting.
Import ListNotations.

(* ===================================================================== *)
(** * Part I. Definitions                                                 *)
(* ===================================================================== *)

(** ** Exceptions

    Python exceptions are modelled by their class; every class below derives
    from [Exception], so an [except Exception] clause catches all of them. *)

Inductive exn : Type :=
  | ValueError
  | OverflowError
  | AttributeError
  | ZeroDivisionError.

Inductive result (A : Type) : Type :=
  | Ok (a : A)
  | Raise (e : exn).

Arguments Ok {A} a.
Arguments Raise {A} e.

(** Sequencing: [x ← r; k] runs [k] when [r] returned and propagates the
    exception otherwise. *)
#[global] Instance result_ret : MRet result := fun A a => Ok a.

#[global] Instance result_bind : MBind result := fun A B k r =>
  match r with
  | Ok a => k a
  | Raise e => Raise e
  end.

Definition is_ok {A : Type} (r : result A) : bool :=
  match r with Ok _ => true | Raise _ => false end.

(** [mapM f l]: run [f] over [l] left to right, stopping at the first
    exception (a [for] loop or comprehension whose body may raise). *)
Fixpoint mapM {A B : Type} (f : A -> result B) (l : list A) : result (list B) :=
  match l with
  | [] => Ok []
  | x :: l' => y ← f x; ys ← mapM f l'; Ok (y :: ys)
  end.

(** ** Python strings

    A [str] is a [string]; each character is a code point below 256. *)

Module PyStr.

Local Open Scope Z_scope.

Definition code (c : ascii) : Z := Z.of_nat (nat_of_ascii c).

(** [str.isspace] on the code points below 256. *)
Definition isspace (c : ascii) : bool :=
  let n := code c in
  ((9 <=? n) && (n <=? 13)) || ((28 <=? n) && (n <=? 32))
  || (n =? 133) || (n =? 160).

Definition isdigit (c : ascii) : bool :=
  let n := code c in (48 <=? n) && (n <=? 57).

Definition digit_value (c : ascii) : Z := code c - 48.

(** The characters [int] skips around a literal: of the characters that
    [isspace] accepts, the four separators 28..31 are not among them. *)
Definition int_space (c : ascii) : bool :=
  let n := code c in
  ((9 <=? n) && (n <=? 13)) || (n =? 32) || (n =? 133) || (n =? 160).

Fixpoint lstrip (space : ascii -> bool) (s : string) : string :=
  match s with
  | EmptyString => EmptyString
  | String c s' => if space c then lstrip space s' else s
  end.

(** [rstrip] keeps a character when it is not a space or something that is
    kept follows it. *)
Fixpoint rstrip (space : ascii -> bool) (s : string) : string :=
  match s with
  | EmptyString => EmptyString
  | String c s' =>
      match rstrip space s' with
      | EmptyString => if space c then EmptyString else String c EmptyString
      | r => String c r
      end
  end.

(** [s.strip()] *)
Definition strip (s : string) : string := rstrip isspace (lstrip isspace s).

(** [len(s)] *)
Definition len (s : string) : Z := Z.of_nat (String.length s).

(** [s[a:b]] for indices [0 <= a], [0 <= b]; out-of-range indices are
    clamped, as Python does. *)
Definition slice (s : string) (a b : nat) : string :=
  String.substring a (b - a) s.

(** [s[a:]] *)
Fixpoint slice_from (s : string) (a : nat) : string :=
  match a, s with
  | O, _ => s
  | S a', String _ s' => slice_from s' a'
  | S _, EmptyString => EmptyString
  end.

(** [c in s] for a one-character [c]. *)
Fixpoint contains_char (c : ascii) (s : string) : bool :=
  match s with
  | EmptyString => false
  | String d s' => if Ascii.eqb c d then true else contains_char c s'
  end.

(** [s.partition(c)] for a one-character separator that occurs in [s]: the
    text before its first occurrence and the text after it. When [c] does
    not occur the first component is [s] and the second is empty. *)
Fixpoint partition (c : ascii) (s : string) : string * string :=
  match s with
  | EmptyString => (EmptyString, EmptyString)
  | String d s' =>
      if Ascii.eqb c d then (EmptyString, s')
      else let '(b, t) := partition c s' in (String d b, t)
  end.

(** [s.split(c)] for a one-character separator: never empty. *)
Fixpoint split (c : ascii) (s : string) : list string :=
  match s with
  | EmptyString => [EmptyString]
  | String d s' =>
      if Ascii.eqb c d then EmptyString :: split c s'
      else match split c s' with
           | p :: ps => String d p :: ps
           | [] => [String d EmptyString]
           end
  end.

(** The digits of a decimal literal, where single underscores may stand
    between digits: [seen] says that the previous character was a digit. *)
Fixpoint int_digits (acc : Z) (seen : bool) (s : string) : option Z :=
  match s with
  | EmptyString => if seen then Some acc else None
  | String c s' =>
      if isdigit c then int_digits (10 * acc + digit_value c) true s'
      else if Ascii.eqb c "_"%char then
        (if seen then int_digits acc false s' else None)
      else None
  end.

(** [int(s)]: surrounding whitespace, an optional sign, decimal digits.
    Anything else raises [ValueError]. *)
Definition int (s : string) : result Z :=
  match rstrip int_space (lstrip int_space s) with
  | EmptyString => Raise ValueError
  | String c r =>
      if Ascii.eqb c "+" then
        match int_digits 0 false r with Some n => Ok n | None => Raise ValueError end
      else if Ascii.eqb c "-" then
        match int_digits 0 false r with Some n => Ok (- n) | None => Raise ValueError end
      else
        match int_digits 0 false (String c r) with
        | Some n => Ok n
        | None => Raise ValueError
        end
  end.

(** [s.lower()] on the code points below 256: A-Z and the Latin-1 capitals
    (all of 192..222 but the multiplication sign 215) move up by 32. *)
Definition lower_char (c : ascii) : ascii :=
  let n := code c in
  if ((65 <=? n) && (n <=? 90))
     || ((192 <=? n) && (n <=? 222) && negb (n =? 215))
  then ascii_of_nat (Z.to_nat (n + 32)) else c.

Fixpoint lower (s : string) : string :=
  match s with
  | EmptyString => EmptyString
  | String c s' => String (lower_char c) (lower s')
  end.

(** [k in s] for strings. *)
Fixpoint contains (k s : string) : bool :=
  String.prefix k s
  || match s with
     | EmptyString => false
     | String _ s' => contains k s'
     end.

(** Truth value of a string: [bool(s)]. *)
Definition truthy (s : string) : bool :=
  match s with EmptyString => false | _ => true end.

(** [a or b] where [a] is a string or [None] and [b] a string. *)
Definition or_else (a : option string) (b : string) : string :=
  match a with
  | Some s => if truthy s then s else b
  | None => b
  end.

(** The character of the last decimal digit of [k]. *)
Definition digit_char (k : Z) : ascii := ascii_of_nat (Z.to_nat (48 + k mod 10)).

(** Decimal rendering of a natural number below [10 ^ width], zero-padded
    to [width] characters (the [%04d] and [%02d] of [isoformat]). *)
Fixpoint pad (width : nat) (n : Z) : string :=
  match width with
  | O => EmptyString
  | S w => String.append (pad w (n / 10)) (String (digit_char n) EmptyString)
  end.

(** [str(n)] for an [int]. *)
Definition of_int (n : Z) : string :=
  NilZero.string_of_int (Z.to_int n).

End PyStr.

(** ** The [datetime] library

    Dates and instants as the standard library's [date] and [datetime]
    objects hold them: proleptic Gregorian fields. Every [datetime] the
    normalizer stores carries [tzinfo = timezone.utc], so the fields of a
    stored value are its UTC fields and two stored values compare as their
    field tuples do. *)

Module Datetime.

Local Open Scope Z_scope.

Record date : Type := mk_date { d_year : Z; d_month : Z; d_day : Z }.

Record datetime : Type := mk_datetime {
  year : Z; month : Z; day : Z;
  hour : Z; minute : Z; second : Z; microsecond : Z
}.

(** [dt.date()] *)
Definition date_of (dt : datetime) : date :=
  mk_date (year dt) (month dt) (day dt).

(** Comparison of tuples, field by field. *)
Definition lex (c : comparison) (rest : comparison) : comparison :=
  match c with Eq => rest | _ => c end.

Definition date_compare (a b : date) : comparison :=
  lex (d_year a ?= d_year b)
    (lex (d_month a ?= d_month b) (d_day a ?= d_day b)).

(** [a <= b] and [a < b] on dates. *)
Definition date_leb (a b : date) : bool :=
  match date_compare a b with Gt => false | _ => true end.

Definition date_ltb (a b : date) : bool :=
  match date_compare a b with Lt => true | _ => false end.

Definition compare (a b : datetime) : comparison :=
  lex (year a ?= year b) (lex (month a ?= month b) (lex (day a ?= day b)
    (lex (hour a ?= hour b) (lex (minute a ?= minute b)
      (lex (second a ?= second b) (microsecond a ?= microsecond b)))))).

(** [a <= b] and [a < b] on instants with the same [tzinfo]. *)
Definition leb (a b : datetime) : bool :=
  match compare a b with Gt => false | _ => true end.

Definition ltb (a b : datetime) : bool :=
  match compare a b with Lt => true | _ => false end.

Definition is_leap (y : Z) : bool :=
  (y mod 4 =? 0) && (negb (y mod 100 =? 0) || (y mod 400 =? 0)).

Definition days_in_month (y m : Z) : Z :=
  if (m =? 2) && is_leap y then 29
  else nth (Z.to_nat m) [0; 31; 28; 31; 30; 31; 30; 31; 31; 30; 31; 30; 31] 0.

Definition days_before_year (y : Z) : Z :=
  let p := y - 1 in p * 365 + p / 4 - p / 100 + p / 400.

Definition days_before_month (y m : Z) : Z :=
  nth (Z.to_nat m) [0; 0; 31; 59; 90; 120; 151; 181; 212; 243; 273; 304; 334] 0
  + (if (2 <? m) && is_leap y then 1 else 0).

(** [date.toordinal]: day 1 is 0001-01-01. *)
Definition ymd2ord (y m d : Z) : Z :=
  days_before_year y + days_before_month y m + d.

Definition max_ordinal : Z := 3652059.

(** [date.fromordinal], by the 400-, 100-, 4- and 1-year cycles. *)
Definition ord2ymd (ordinal : Z) : Z * Z * Z :=
  let n := ordinal - 1 in
  let n400 := n / 146097 in
  let n := n mod 146097 in
  let n100 := n / 36524 in
  let n := n mod 36524 in
  let n4 := n / 1461 in
  let n := n mod 1461 in
  let n1 := n / 365 in
  let n := n mod 365 in
  let y := n400 * 400 + 1 + n100 * 100 + n4 * 4 + n1 in
  if (n1 =? 4) || (n100 =? 4) then (y - 1, 12, 31)
  else
    let leapyear := (n1 =? 3) && (negb (n4 =? 24) || (n100 =? 3)) in
    let m := Z.shiftr (n + 50) 5 in
    let preceding :=
      days_before_month 1 m + (if (2 <? m) && leapyear then 1 else 0) in
    if n <? preceding then
      let m' := m - 1 in
      let preceding' :=
        preceding - (days_in_month 1 m' + (if (m' =? 2) && leapyear then 1 else 0)) in
      (y, m', n - preceding' + 1)
    else (y, m, n - preceding + 1).

(** The range checks of the [date] and [datetime] constructors. *)
Definition valid_date (y m d : Z) : bool :=
  (1 <=? y) && (y <=? 9999) && (1 <=? m) && (m <=? 12)
  && (1 <=? d) && (d <=? days_in_month y m).

Definition valid_time (h mi s us : Z) : bool :=
  (0 <=? h) && (h <=? 23) && (0 <=? mi) && (mi <=? 59)
  && (0 <=? s) && (s <=? 59) && (0 <=? us) && (us <=? 999999).

(** [datetime(y, m, d, h, mi, s, us)]: [ValueError] on a field out of range. *)
Definition make (y m d h mi s us : Z) : result datetime :=
  if valid_date y m d && valid_time h mi s us
  then Ok (mk_datetime y m d h mi s us)
  else Raise ValueError.

(** [timedelta(hours=h, minutes=m)] in seconds; a [timedelta] holds at most
    999999999 days in either direction. *)
Definition timedelta (hours minutes : Z) : result Z :=
  let secs := hours * 3600 + minutes * 60 in
  let days := secs / 86400 in
  if (-999999999 <=? days) && (days <=? 999999999) then Ok secs
  else Raise OverflowError.

(** [timezone(offset)]: the offset must lie strictly between -24 h and 24 h. *)
Definition timezone (offset : Z) : result Z :=
  if (-86400 <? offset) && (offset <? 86400) then Ok offset
  else Raise ValueError.

(** [dt.replace(tzinfo=tz).astimezone(timezone.utc)] for the fields [dt] and
    a zone [offset] seconds east of UTC: the fields of [dt - offset], or
    [OverflowError] when that instant lies outside years 1..9999. *)
Definition astimezone_utc (dt : datetime) (offset : Z) : result datetime :=
  let secs := hour dt * 3600 + minute dt * 60 + second dt - offset in
  let ordinal := ymd2ord (year dt) (month dt) (day dt) + secs / 86400 in
  let rem := secs mod 86400 in
  if (1 <=? ordinal) && (ordinal <=? max_ordinal) then
    let '(y, m, d) := ord2ymd ordinal in
    Ok (mk_datetime y m d (rem / 3600) (rem mod 3600 / 60) (rem mod 60)
          (microsecond dt))
  else Raise OverflowError.

(** [d.isoformat()] *)
Definition date_isoformat (d : date) : string :=
  PyStr.pad 4 (d_year d) +:+ "-" +:+ PyStr.pad 2 (d_month d) +:+ "-"
  +:+ PyStr.pad 2 (d_day d).

(** [dt.isoformat()] for a UTC instant. *)
Definition isoformat (dt : datetime) : string :=
  date_isoformat (date_of dt) +:+ "T" +:+ PyStr.pad 2 (hour dt) +:+ ":"
  +:+ PyStr.pad 2 (minute dt) +:+ ":" +:+ PyStr.pad 2 (second dt)
  +:+ (if microsecond dt =? 0 then "" else "." +:+ PyStr.pad 6 (microsecond dt))
  +:+ "+00:00".

(** The two library parsers [_parse_dt_to_utc] calls. Both return the
    fields they read, or [None] for [ValueError]; the caller replaces the
    [tzinfo] of what they return, so the fields are all it uses. The
    theorems of Part II hold for every such pair of parsers. *)
Class Parsers : Type := {
  (** [datetime.fromisoformat(s)] *)
  fromisoformat : string -> option datetime;
  (** [datetime.strptime(s, "%Y-%m-%dT%H:%M:%S")] *)
  strptime : string -> option datetime
}.

(** *** An instance: the documented formats

    [fromisoformat] here accepts the format the library documents for
    Python 3.7 to 3.10,
    [YYYY-MM-DD[*HH[:MM[:SS[.fff[fff]]]][+HH:MM[:SS[.ffffff]]]]],
    and [strptime] the directives [%Y-%m-%dT%H:%M:%S]. The closed examples
    of Part II run with this instance. *)

(** Exactly [n] decimal digits at the front of [s]: their value and the rest. *)
Fixpoint digits (n : nat) (acc : Z) (s : string) : option (Z * string) :=
  match n with
  | O => Some (acc, s)
  | S n' =>
      match s with
      | String c s' =>
          if PyStr.isdigit c then digits n' (10 * acc + PyStr.digit_value c) s'
          else None
      | EmptyString => None
      end
  end.

(** The character [c] at the front of [s]: the rest. *)
Definition expect (c : ascii) (s : string) : option string :=
  match s with
  | String d s' => if Ascii.eqb c d then Some s' else None
  | EmptyString => None
  end.

Definition starts_with (c : ascii) (s : string) : bool :=
  match s with
  | String d _ => Ascii.eqb c d
  | EmptyString => false
  end.

(** [.fff] or [.ffffff]: microseconds and the rest. *)
Definition iso_fraction (s : string) : option (Z * string) :=
  match digits 6 0 s with
  | Some r => Some r
  | None =>
      match digits 3 0 s with
      | Some (ms, rest) => Some (ms * 1000, rest)
      | None => None
      end
  end.

(** [HH[:MM[:SS[.fff[fff]]]]]: the four fields and the rest. *)
Definition iso_hms (s : string) : option (Z * Z * Z * Z * string) :=
  '(h, s1) ← digits 2 0 s;
  if starts_with ":" s1 then
    '(mi, s2) ← digits 2 0 (PyStr.slice_from s1 1);
    if starts_with ":" s2 then
      '(sec, s3) ← digits 2 0 (PyStr.slice_from s2 1);
      if starts_with "." s3 then
        '(us, s4) ← iso_fraction (PyStr.slice_from s3 1);
        Some (h, mi, sec, us, s4)
      else Some (h, mi, sec, 0, s3)
    else Some (h, mi, 0, 0, s2)
  else Some (h, 0, 0, 0, s1).

(** [+HH:MM[:SS[.ffffff]]] up to the end of the text, below 24 hours. *)
Definition iso_offset (s : string) : bool :=
  match s with
  | String c s0 =>
      (Ascii.eqb c "+" || Ascii.eqb c "-")
      && match (
           '(h, s1) ← digits 2 0 s0;
           s1' ← expect ":" s1;
           '(mi, s2) ← digits 2 0 s1';
           if starts_with ":" s2 then
             '(sec, s3) ← digits 2 0 (PyStr.slice_from s2 1);
             if starts_with "." s3 then
               '(_, s4) ← digits 6 0 (PyStr.slice_from s3 1);
               Some (h, mi, sec, s4)
             else Some (h, mi, sec, s3)
           else Some (h, mi, 0, s2)) with
         | Some (h, mi, sec, EmptyString) =>
             (mi <=? 59) && (sec <=? 59) && (h * 3600 + mi * 60 + sec <? 86400)
         | _ => false
         end
  | EmptyString => false
  end.

Definition iso_datetime (s : string) : option datetime :=
  '(y, s1) ← digits 4 0 s;
  s1' ← expect "-" s1;
  '(m, s2) ← digits 2 0 s1';
  s2' ← expect "-" s2;
  '(d, s3) ← digits 2 0 s2';
  match s3 with
  | EmptyString =>
      match make y m d 0 0 0 0 with Ok dt => Some dt | Raise _ => None end
  | String _ t =>
      '(h, mi, sec, us, rest) ← iso_hms t;
      if PyStr.truthy rest && negb (iso_offset rest) then None
      else match make y m d h mi sec us with Ok dt => Some dt | Raise _ => None end
  end.

(** A [strptime] field that ends at the separator [sep]: the field and the
    rest. *)
Definition field (sep : ascii) (s : string) : option (string * string) :=
  if PyStr.contains_char sep s then Some (PyStr.partition sep s) else None.

(** The value of a field that matches one of the directive's forms:
    one digit from [lo1] on, or two digits with a value from [lo2] to [hi2]
    (and, for [%d], a space before one digit). *)
Definition field_value (lo1 lo2 hi2 : Z) (space_ok : bool) (f : string)
  : option Z :=
  match f with
  | String a EmptyString =>
      if PyStr.isdigit a && (lo1 <=? PyStr.digit_value a)
      then Some (PyStr.digit_value a) else None
  | String a (String b EmptyString) =>
      if PyStr.isdigit a && PyStr.isdigit b then
        let v := 10 * PyStr.digit_value a + PyStr.digit_value b in
        if (lo2 <=? v) && (v <=? hi2) then Some v else None
      else if space_ok && Ascii.eqb a " " && PyStr.isdigit b
              && (1 <=? PyStr.digit_value b)
      then Some (PyStr.digit_value b) else None
  | _ => None
  end.

Definition strptime_iso (s : string) : option datetime :=
  '(y, s1) ← digits 4 0 s;
  s1' ← expect "-" s1;
  '(fm, s2) ← field "-" s1';
  m ← field_value 1 1 12 false fm;
  '(fd, s3) ← field (if PyStr.contains_char "T" s2 then "T" else "t")%char s2;
  d ← field_value 1 1 31 true fd;
  '(fh, s4) ← field ":" s3;
  h ← field_value 0 0 23 false fh;
  '(fmi, s5) ← field ":" s4;
  mi ← field_value 0 0 59 false fmi;
  sec ← field_value 0 0 61 false s5;
  match make y m d h mi sec 0 with Ok dt => Some dt | Raise _ => None end.

Definition documented_parsers : Parsers :=
  {| fromisoformat := iso_datetime; strptime := strptime_iso |}.

End Datetime.

Import Datetime.

(** ** Records shared by the two modules *)

(** A JSON object or CSV row whose members are strings. *)
Abbreviation sdict := (gmap string string).

(** [d.get(k, dflt)] *)
Definition get (d : sdict) (k : string) (dflt : string) : string :=
  default dflt (d !! k).

(** A roster entry of [EmployeeDatabase.json]. [skills] and
    [max_tasks_per_day] may be absent; the code reads them with a default. *)
Record Employee : Type := mk_Employee {
  id : Z;
  email : string;
  first_name : string;
  last_name : string;
  role : option string;
  skills : option (list string);
  max_tasks_per_day : option Z
}.

(** ** normalizer.py

    The payloads are typed by the schemas of the providers: a member that
    the code reads as text holds a string, a member that it reads as an
    object holds an object. A member that is absent and a member that is
    JSON [null] read alike wherever the code treats them alike, and are both
    [None] here. The rows of the CSV export hold a string in each cell, as
    [save_events_to_csv] writes them. *)

Module Normalizer.

Local Open Scope Z_scope.

Record NormalizedEvent : Type := mk_NormalizedEvent {
  event_id : string;
  source : string;
  employee_id : string;
  employee_email : string;
  title : string;
  availability : string;
  start_utc : datetime;
  end_utc : datetime;
  is_all_day : bool
}.

(** The dict [NormalizedEvent.to_dict] builds: the instants become their
    [isoformat] text. *)
Record EventDict : Type := mk_EventDict {
  ed_event_id : string;
  ed_source : string;
  ed_employee_id : string;
  ed_employee_email : string;
  ed_title : string;
  ed_availability : string;
  ed_start_utc : string;
  ed_end_utc : string;
  ed_is_all_day : bool
}.

Definition to_dict (ev : NormalizedEvent) : EventDict :=
  mk_EventDict (event_id ev) (source ev) (employee_id ev) (employee_email ev)
    (title ev) (availability ev)
    (isoformat (start_utc ev)) (isoformat (end_utc ev)) (is_all_day ev).

Definition _TZ_OFFSETS : gmap string Z :=
  list_to_map
    [ ("Pacific Standard Time", -8);
      ("Pacific Daylight Time", -7);
      ("Mountain Standard Time", -7);
      ("Mountain Daylight Time", -6);
      ("Central Standard Time", -6);
      ("Central Daylight Time", -5);
      ("Eastern Standard Time", -5);
      ("Eastern Daylight Time", -4);
      ("UTC", 0) ].

(** The zone as its offset in seconds east of UTC. *)
Definition _ms_tz_to_offset (tz_name : string) : result Z :=
  let hours := default 0 (_TZ_OFFSETS !! tz_name) in
  td ← timedelta hours 0; timezone td.

Section Parse.

Context {lib : Parsers}.

(** The inner loop of [_parse_dt_to_utc] (lines 90-105), at index [i] of
    [tail] with [rest = tail[i:]]. [Some r]: the function returned or raised
    [r]; [None]: the loop ended, by exhaustion or by [break]. *)
Fixpoint scan_tail (body tail : string) (i : nat) (rest : string)
  : option (result datetime) :=
  match rest with
  | EmptyString => None
  | String ch rest' =>
      if (0 <? i)%nat && (Ascii.eqb ch "+" || Ascii.eqb ch "-") then
        let offset_str := PyStr.slice_from tail i in
        let dt_naive_str := body +:+ "T" +:+ PyStr.slice tail 0 i in
        match fromisoformat dt_naive_str with
        | None => None
        | Some dt_naive =>
            Some (
              let sign := if Ascii.eqb ch "+" then 1 else -1 in
              let parts := PyStr.split ":" (PyStr.slice_from offset_str 1) in
              oh ← PyStr.int (nth 0 parts EmptyString);
              om ← (if (1 <? length parts)%nat
                    then PyStr.int (nth 1 parts EmptyString) else Ok 0);
              td ← timedelta (sign * oh) (sign * om);
              tz_offset ← timezone td;
              astimezone_utc dt_naive tz_offset)
        end
      else scan_tail body tail (S i) rest'
  end.

(** The outer loop (line 84): its body does not read [sep]. *)
Fixpoint scan_seps (seps : list ascii) (s : string) : option (result datetime) :=
  match seps with
  | [] => None
  | _ :: seps' =>
      let found :=
        if PyStr.contains_char "T" s then
          let '(body, tail) := PyStr.partition "T" s in
          scan_tail body tail 0 tail
        else None in
      match found with
      | Some r => Some r
      | None => scan_seps seps' s
      end
  end.

Definition _parse_dt_to_utc (dt_str : string) (tz_hint : option string)
  : result datetime :=
  let s := PyStr.strip dt_str in
  (* Date-only *)
  if PyStr.len s =? 10 then
    y ← PyStr.int (PyStr.slice s 0 4);
    m ← PyStr.int (PyStr.slice s 5 7);
    d ← PyStr.int (PyStr.slice s 8 10);
    make y m d 0 0 0 0
  else
  (* Has offset in string *)
  match scan_seps ["+"; "-"]%char s with
  | Some r => r
  | None =>
      (* Naive: use tz_hint *)
      match (match fromisoformat s with
             | Some dt => Some dt
             | None => strptime s
             end) with
      | None => Raise ValueError
      | Some dt_naive =>
          if PyStr.truthy (default EmptyString tz_hint) then
            tz ← _ms_tz_to_offset (default EmptyString tz_hint);
            astimezone_utc dt_naive tz
          else
            (* Assume UTC *)
            Ok dt_naive
      end
  end.

(** The [try] block shared by the three normalizers: parse the start, then
    the end when there is one. *)
Definition parse_start_end (start_str end_str : string)
    (tz_hint : option string) : result (datetime * datetime) :=
  start_utc ← _parse_dt_to_utc start_str tz_hint;
  end_utc ← (if PyStr.truthy end_str
             then _parse_dt_to_utc end_str tz_hint else Ok start_utc);
  Ok (start_utc, end_utc).

(** *** Google JSON *)

(** An element of ["items"]. *)
Record GoogleEvent : Type := mk_GoogleEvent {
  (** the members that hold a string: ["id"], ["summary"], ... *)
  g_members : sdict;
  (** ["extendedProperties"]: its bags (["private"], ["shared"]) *)
  g_extendedProperties : option (gmap string sdict);
  g_creator : option sdict;
  g_start : option sdict;
  g_end : option sdict
}.

(** The local variables [start_str], [end_str] and [tz_hint] of the loop
    body (lines 143-145). *)
Definition google_start_str (ev : GoogleEvent) : string :=
  let start_obj : sdict := default ∅ (g_start ev) in
  PyStr.or_else (start_obj !! "dateTime") (get start_obj "date" "").

Definition google_end_str (ev : GoogleEvent) : string :=
  let end_obj : sdict := default ∅ (g_end ev) in
  PyStr.or_else (end_obj !! "dateTime") (get end_obj "date" "").

Definition google_tz_hint (ev : GoogleEvent) : option string :=
  default ∅ (g_start ev) !! "timeZone".

(** One pass of the loop body: [None] is [continue]. *)
Definition google_json_event (ev : GoogleEvent) : option NormalizedEvent :=
  let ext_priv : sdict :=
    default ∅ (default ∅ (g_extendedProperties ev) !! "private") in
  let emp_id := get ext_priv "employeeId" "" in
  let emp_email :=
    PyStr.or_else (Some (get ext_priv "employeeEmail" ""))
      (get (default ∅ (g_creator ev)) "email" "") in
  let avail := get ext_priv "availabilityKind" "busy" in
  let start_obj : sdict := default ∅ (g_start ev) in
  let is_all_day :=
    bool_decide (is_Some (start_obj !! "date"))
    && negb (bool_decide (is_Some (start_obj !! "dateTime"))) in
  let start_str := google_start_str ev in
  let end_str := google_end_str ev in
  let tz_hint := google_tz_hint ev in
  if negb (PyStr.truthy start_str) then None
  else
    match parse_start_end start_str end_str tz_hint with
    | Raise _ => None
    | Ok (start_utc, end_utc) =>
        Some (mk_NormalizedEvent (get (g_members ev) "id" "") "google"
                emp_id emp_email (get (g_members ev) "summary" "") avail
                start_utc end_utc is_all_day)
    end.

(** [data]: the decoded file, of which the code reads ["items"]. *)
Definition normalize_google_json (items : option (list GoogleEvent))
  : list NormalizedEvent :=
  omap google_json_event (default [] items).

(** *** Google CSV *)

Definition ooo_keywords : list string :=
  ["ooo"; "pto"; "vacation"; "sick"; "out of office"].

Definition google_csv_row (row : sdict) : option NormalizedEvent :=
  let start_str := get row "start" "" in
  let end_str := get row "end" "" in
  if negb (PyStr.truthy start_str) then None
  else
    let summary := get row "summary" "" in
    let avail :=
      if existsb (fun k => PyStr.contains k (PyStr.lower summary)) ooo_keywords
      then "oof" else "busy" in
    let emp_email := "" in
    let emp_id := "" in
    match parse_start_end start_str end_str None with
    | Raise _ => None
    | Ok (start_utc, end_utc) =>
        let is_all_day := PyStr.len (PyStr.strip start_str) =? 10 in
        Some (mk_NormalizedEvent (get row "id" "") "google_csv"
                emp_id emp_email summary avail start_utc end_utc is_all_day)
    end.

(** [rows]: what [csv.DictReader] yields for the file. The lookup table
    built from [employee_db] is never read. *)
Definition normalize_google_csv (rows : list sdict)
    (employee_db : option (list Employee)) : list NormalizedEvent :=
  let email_to_id : gmap string string :=
    foldl (fun m emp => <[email emp := PyStr.of_int (id emp)]> m) ∅
      (default [] employee_db) in
  omap google_csv_row rows.

(** *** Microsoft JSON *)

(** An element of ["value"]. *)
Record MicrosoftEvent : Type := mk_MicrosoftEvent {
  (** the members that hold a string: ["id"], ["subject"], ["showAs"], ... *)
  m_members : sdict;
  m_extensions : option (list sdict);
  (** ["organizer"]: its members (["emailAddress"]) *)
  m_organizer : option (gmap string sdict);
  m_isAllDay : option bool;
  m_start : option sdict;
  m_end : option sdict
}.

(** The scan of [extensions] (lines 246-251): the first extension with an
    ["employeeId"] sets the three variables. *)
Fixpoint scan_extensions (extensions : list sdict) : string * string * string :=
  match extensions with
  | [] => (EmptyString, EmptyString, EmptyString)
  | ext :: rest =>
      match ext !! "employeeId" with
      | Some i => (i, get ext "employeeEmail" "", get ext "availabilityKind" "")
      | None => scan_extensions rest
      end
  end.

(** The local variables [start_str], [end_str] and [tz_hint] of the loop
    body (lines 265-267). *)
Definition microsoft_start_str (ev : MicrosoftEvent) : string :=
  get (default ∅ (m_start ev)) "dateTime" "".

Definition microsoft_end_str (ev : MicrosoftEvent) : string :=
  get (default ∅ (m_end ev)) "dateTime" "".

Definition microsoft_tz_hint (ev : MicrosoftEvent) : option string :=
  default ∅ (m_start ev) !! "timeZone".

Definition microsoft_json_event (ev : MicrosoftEvent) : option NormalizedEvent :=
  let extensions := default [] (m_extensions ev) in
  let '(emp_id, emp_email, avail_kind) := scan_extensions extensions in
  let emp_email :=
    if negb (PyStr.truthy emp_email)
    then get (default ∅ (default ∅ (m_organizer ev) !! "emailAddress")) "address" ""
    else emp_email in
  let show_as := get (m_members ev) "showAs" "busy" in
  let avail_kind :=
    if negb (PyStr.truthy avail_kind)
    then (if String.eqb show_as "oof" then "oof" else "busy")
    else avail_kind in
  let is_all_day := default false (m_isAllDay ev) in
  let start_str := microsoft_start_str ev in
  let end_str := microsoft_end_str ev in
  let tz_hint := microsoft_tz_hint ev in
  if negb (PyStr.truthy start_str) then None
  else
    match parse_start_end start_str end_str tz_hint with
    | Raise _ => None
    | Ok (start_utc, end_utc) =>
        Some (mk_NormalizedEvent (get (m_members ev) "id" "") "microsoft"
                emp_id emp_email (get (m_members ev) "subject" "") avail_kind
                start_utc end_utc is_all_day)
    end.

(** [value]: the ["value"] member of the decoded file. *)
Definition normalize_microsoft_json (value : option (list MicrosoftEvent))
  : list NormalizedEvent :=
  omap microsoft_json_event (default [] value).

End Parse.

(** *** Availability query *)

(** An element of the [available] and [unavailable] lists:
    [{**emp, "employee_id": emp_id}]. *)
Record AvailEntry : Type := mk_AvailEntry {
  ae_emp : Employee;
  ae_employee_id : string
}.

Record Availability : Type := mk_Availability {
  av_date : string;
  available : list AvailEntry;
  unavailable : list AvailEntry;
  available_count : Z;
  unavailable_count : Z
}.

(** One pass of the first loop of [get_available_employees] (lines
    312-328) over the two sets. *)
Definition busy_step (target_date : date)
    (acc : gset string * gset string) (ev : NormalizedEvent)
  : gset string * gset string :=
  let '(busy_ids, busy_emails) := acc in
  if negb (String.eqb (availability ev) "busy" || String.eqb (availability ev) "oof")
  then acc
  else
    let ev_start_date := date_of (start_utc ev) in
    let ev_end_date := date_of (end_utc ev) in
    let overlaps :=
      if is_all_day ev
      then date_leb ev_start_date target_date && date_ltb target_date ev_end_date
      else date_leb ev_start_date target_date && date_leb target_date ev_end_date in
    if overlaps then
      (if PyStr.truthy (employee_id ev)
       then busy_ids ∪ {[employee_id ev]} else busy_ids,
       if PyStr.truthy (employee_email ev)
       then busy_emails ∪ {[employee_email ev]} else busy_emails)
    else acc.

(** One pass of the second loop (lines 332-340) over the two lists. *)
Definition partition_step (busy_ids busy_emails : gset string)
    (acc : list AvailEntry * list AvailEntry) (emp : Employee)
  : list AvailEntry * list AvailEntry :=
  let '(available, unavailable) := acc in
  let emp_id := PyStr.of_int (id emp) in
  let emp_email := email emp in
  let is_busy :=
    bool_decide (emp_id ∈ busy_ids) || bool_decide (emp_email ∈ busy_emails) in
  let entry := mk_AvailEntry emp emp_id in
  if is_busy then (available, unavailable ++ [entry])
  else (available ++ [entry], unavailable).

Definition get_available_employees (events : list NormalizedEvent)
    (all_employees : list Employee) (query_date : datetime) : Availability :=
  let target_date := date_of query_date in
  let '(busy_ids, busy_emails) := foldl (busy_step target_date) (∅, ∅) events in
  let '(available, unavailable) :=
    foldl (partition_step busy_ids busy_emails) ([], []) all_employees in
  mk_Availability (date_isoformat target_date) available unavailable
    (Z.of_nat (length available)) (Z.of_nat (length unavailable)).

(** One pass of the loop of [get_events_for_date] (lines 355-363). *)
Definition events_step (target_date : date)
    (result : list EventDict) (ev : NormalizedEvent) : list EventDict :=
  let ev_start := date_of (start_utc ev) in
  let ev_end := date_of (end_utc ev) in
  let overlaps :=
    if is_all_day ev
    then date_leb ev_start target_date && date_ltb target_date ev_end
    else date_leb ev_start target_date && date_leb target_date ev_end in
  if overlaps then result ++ [to_dict ev] else result.

Definition get_events_for_date (events : list NormalizedEvent)
    (query_date : datetime) : list EventDict :=
  let target_date := date_of query_date in
  foldl (events_step target_date) [] events.

End Normalizer.

Import Normalizer.

(** ** Python lists and floats *)

Module PyList.

(** [l[:n]]: the first [n] elements, or all but the last [-n] when [n] is
    negative. *)
Definition slice_to {A : Type} (l : list A) (n : Z) : list A :=
  if (0 <=? n)%Z then take (Z.to_nat n) l
  else take (Z.to_nat (Z.of_nat (length l) + n)) l.

(** The place of [x] in a list sorted by [key]: before the first element
    whose key is not below its own. *)
Fixpoint insert_by {A K : Type} (leb : K -> K -> bool) (key : A -> K)
    (x : A) (l : list A) : list A :=
  match l with
  | [] => [x]
  | y :: l' =>
      if leb (key x) (key y) then x :: l
      else y :: insert_by leb key x l'
  end.

(** [l.sort(key=key)] and [sorted(l, key=key)]: the stable sort, in which
    elements with equal keys keep their order. *)
Fixpoint sort_by {A K : Type} (leb : K -> K -> bool) (key : A -> K)
    (l : list A) : list A :=
  match l with
  | [] => []
  | x :: l' => insert_by leb key x (sort_by leb key l')
  end.

(** [x] may stand before [y] in a list sorted by [key]. *)
Definition key_le {A K : Type} (leb : K -> K -> bool) (key : A -> K)
    (x y : A) : Prop :=
  leb (key x) (key y) = true.

(** [<=] on pairs and triples of integers, as Python compares tuples. *)
Definition leb2 (a b : Z * Z) : bool :=
  match (a.1 ?= b.1)%Z with
  | Lt => true
  | Gt => false
  | Eq => (a.2 <=? b.2)%Z
  end.

Definition leb3 (a b : Z * Z * Z) : bool :=
  match (a.1.1 ?= b.1.1)%Z with
  | Lt => true
  | Gt => false
  | Eq => leb2 (a.1.2, a.2) (b.1.2, b.2)
  end.

End PyList.

(** Python's [float] is IEEE 754 binary64; its operations are those of
    [SpecFloat] at precision 53. *)
Module PyFloat.

Local Open Scope Z_scope.

Definition prec : Z := 53.
Definition emax : Z := 1024.

(** [float(n)] for a small integer literal. *)
Definition of_int (n : Z) : spec_float := binary_normalize prec emax n 0 false.

(** [a / b] on integers: the correctly rounded quotient;
    [ZeroDivisionError] when [b] is zero and [OverflowError] when the
    quotient exceeds the range. *)
Definition truediv (a b : Z) : result spec_float :=
  match b, a with
  | Z0, _ => Raise ZeroDivisionError
  | _, Z0 => Ok (S754_zero (b <? 0))
  | _, _ =>
      match SFdiv prec emax
              (S754_finite (a <? 0) (Z.to_pos (Z.abs a)) 0)
              (S754_finite (b <? 0) (Z.to_pos (Z.abs b)) 0) with
      | S754_infinity _ => Raise OverflowError
      | q => Ok q
      end
  end.

(** [x * y] *)
Definition mul (x y : spec_float) : spec_float := SFmul prec emax x y.

(** The integer nearest to [m * 2 ^ e], ties to the even one. *)
Definition round_half_even (m : positive) (e : Z) : Z :=
  match e with
  | Zneg k =>
      let d := 2 ^ Zpos k in
      let q := Zpos m / d in
      let r := Zpos m mod d in
      match (2 * r ?= d) with
      | Lt => q
      | Gt => q + 1
      | Eq => if Z.even q then q else q + 1
      end
  | _ => Zpos m * 2 ^ e
  end.

(** [round(x)]: [ValueError] on NaN, [OverflowError] on an infinity. *)
Definition round (x : spec_float) : result Z :=
  match x with
  | S754_zero _ => Ok 0
  | S754_finite s m e =>
      Ok (if s then - round_half_even m e else round_half_even m e)
  | S754_infinity _ => Raise OverflowError
  | S754_nan => Raise ValueError
  end.

(** [round(a / b * 100)] *)
Definition round_pct (a b : Z) : result Z :=
  q ← truediv a b; round (mul q (of_int 100)).

(** A float that is NaN or carries the sign [s]. *)
Definition signed (s : bool) (x : spec_float) : Prop :=
  match x with
  | S754_zero s' | S754_infinity s' | S754_finite s' _ _ => s' = s
  | S754_nan => True
  end.

(** A float that is a zero or a finite float of value below [2 ^ B]. *)
Definition below (B : Z) (x : spec_float) : Prop :=
  match x with
  | S754_zero _ => True
  | S754_finite _ m e => Zpos m < 2 ^ (B - e)
  | _ => False
  end.

End PyFloat.

(** ** reassignment.py *)

Module Reassignment.

Local Open Scope Z_scope.

(** A task of [EmployeeDatabase.json]; an absent member is [None]. *)
Record Task : Type := mk_Task {
  t_id : string;
  t_title : option string;
  t_description : option string;
  t_status : option string;
  t_priority : option string;
  t_required_skills : option (list string);
  t_effort_hours : option spec_float;
  t_due_date : option string;
  t_assigned_to_id : option Z;
  t_last_reassigned : option string;
  t_reassignment_reason : option string
}.

(** An element of the list [get_utilization] returns: the employee and the
    fields added to it. [active_task_hours], a sum of floats that no
    decision reads, is left out. *)
Record UtilEntry : Type := mk_UtilEntry {
  u_emp : Employee;
  is_available : bool;
  active_task_count : Z;
  active_tasks : list Task;
  calendar_event_count : Z;
  utilization_pct : Z;
  free_capacity : Z
}.

(** [str(t.get("assigned_to_id", ""))] *)
Definition assignee_str (t : Task) : string :=
  match t_assigned_to_id t with
  | Some i => PyStr.of_int i
  | None => EmptyString
  end.

(** [t.get("status") in ("in_progress", "todo")] *)
Definition is_active (t : Task) : bool :=
  match t_status t with
  | Some st => String.eqb st "in_progress" || String.eqb st "todo"
  | None => false
  end.

(** The body of the loop of [get_utilization] (lines 60-93). *)
Definition utilization_entry (available_ids : gset string)
    (day_events : list EventDict) (tasks : list Task) (emp : Employee)
  : result UtilEntry :=
  let emp_id := PyStr.of_int (id emp) in
  let max_tasks := default 4 (max_tasks_per_day emp) in
  let active_tasks :=
    filter (fun t => String.eqb (assignee_str t) emp_id && is_active t = true) tasks in
  let task_count := Z.of_nat (length active_tasks) in
  let cal_events :=
    filter (fun e =>
      (String.eqb (ed_employee_id e) emp_id
       || String.eqb (ed_employee_email e) (email emp))
      && negb (ed_is_all_day e) = true) day_events in
  let is_available := bool_decide (emp_id ∈ available_ids) in
  pct ← PyFloat.round_pct task_count (Z.max max_tasks 1);
  let utilization_pct := Z.min 100 pct in
  let free_capacity := Z.max 0 (max_tasks - task_count) in
  Ok (mk_UtilEntry emp is_available task_count active_tasks
        (Z.of_nat (length cal_events)) utilization_pct free_capacity).

(** The sort key of line 96. *)
Definition utilization_key (e : UtilEntry) : Z * Z * Z :=
  (if is_available e then 0 else 1, utilization_pct e, - free_capacity e).

Definition get_utilization (events : list NormalizedEvent)
    (employees : list Employee) (tasks : list Task) (query_date : datetime)
  : result (list UtilEntry) :=
  let avail_result := get_available_employees events employees query_date in
  let available_ids : gset string :=
    list_to_set (map (fun e => PyStr.of_int (id (ae_emp e))) (available avail_result)) in
  let day_events := get_events_for_date events query_date in
  results ← mapM (utilization_entry available_ids day_events tasks) employees;
  Ok (PyList.sort_by PyList.leb3 utilization_key results).

(** [set(task.get("required_skills", []))] and [set(emp.get("skills", []))] *)
Definition required_set (t : Task) : gset string :=
  list_to_set (default [] (t_required_skills t)).

Definition skill_set (emp : Employee) : gset string :=
  list_to_set (default [] (skills emp)).

Definition _score_candidate (candidate : UtilEntry) (task : Task) : Z :=
  let required := required_set task in
  let emp_skills := skill_set (u_emp candidate) in
  let skill_match := Z.of_nat (size (required ∩ emp_skills)) in
  skill_match * 15 - utilization_pct candidate - calendar_event_count candidate * 3.

(** The dict [_serialize_emp] builds from an element of the utilization
    list. *)
Record SerializedEmp : Type := mk_SerializedEmp {
  se_id : Z;
  se_first_name : string;
  se_last_name : string;
  se_email : string;
  se_role : option string;
  se_skills : list string;
  se_max_tasks_per_day : Z;
  se_is_available : bool;
  se_utilization_pct : Z;
  se_free_capacity : Z;
  se_active_task_count : Z;
  se_calendar_event_count : Z
}.

Definition _serialize_emp (emp : UtilEntry) : SerializedEmp :=
  mk_SerializedEmp (id (u_emp emp)) (first_name (u_emp emp))
    (last_name (u_emp emp)) (email (u_emp emp)) (role (u_emp emp))
    (default [] (skills (u_emp emp)))
    (default 4 (max_tasks_per_day (u_emp emp)))
    (is_available emp) (utilization_pct emp) (free_capacity emp)
    (active_task_count emp) (calendar_event_count emp).

(** [_serialize_task]: the same members, [required_skills] defaulting to
    the empty list. *)
Definition _serialize_task (task : Task) : Task :=
  mk_Task (t_id task) (t_title task) (t_description task) (t_status task)
    (t_priority task) (Some (default [] (t_required_skills task)))
    (t_effort_hours task) (t_due_date task) (t_assigned_to_id task)
    (t_last_reassigned task) (t_reassignment_reason task).

(** An element of [recommendations]: the serialized employee and the
    members added to it. *)
Record Candidate : Type := mk_Candidate {
  c_emp : SerializedEmp;
  skill_match_count : Z;
  skill_match_pct : Z;
  skill_gap : list string;
  score : Z
}.

(** An element of [suggestions]. [current_assignee] is [None] when the
    assignee is not in the roster, where the code serializes an empty dict. *)
Record Suggestion : Type := mk_Suggestion {
  s_task : Task;
  current_assignee : option SerializedEmp;
  needs_reassignment : bool;
  reason : option string;
  recommendations : list Candidate
}.

Record Suggestions : Type := mk_Suggestions {
  sg_date : string;
  total_tasks_checked : Z;
  sg_needs_reassignment : Z;
  suggestions : list Suggestion;
  utilization_snapshot : list SerializedEmp
}.

(** The body of the inner loop (lines 165-178): [None] is [continue]. *)
Definition candidate_of (task : Task) (assignee_id : string) (emp : UtilEntry)
  : result (option Candidate) :=
  if String.eqb (PyStr.of_int (id (u_emp emp))) assignee_id then Ok None
  else
    let required_skills := required_set task in
    let emp_skills := skill_set (u_emp emp) in
    let skill_match := Z.of_nat (size (required_skills ∩ emp_skills)) in
    let skill_gap :=
      PyList.sort_by String.leb (fun k => k) (elements (required_skills ∖ emp_skills)) in
    let score := _score_candidate emp task in
    pct ← PyFloat.round_pct (Z.of_nat (size (required_skills ∩ emp_skills)))
            (Z.max (Z.of_nat (size required_skills)) 1);
    Ok (Some (mk_Candidate (_serialize_emp emp) skill_match pct skill_gap score)).

(** The sort key of line 180. *)
Definition candidate_key (c : Candidate) : Z * Z :=
  (- score c, - se_free_capacity (c_emp c)).

(** [util_map]: a later element with the same id replaces an earlier one. *)
Definition util_map_of (utilization : list UtilEntry) : gmap string UtilEntry :=
  foldl (fun m e => <[PyStr.of_int (id (u_emp e)) := e]> m) ∅ utilization.

(** The body of the loop over the active tasks (lines 147-188). *)
Definition suggestion_of (target_str : string)
    (util_map : gmap string UtilEntry) (unavailable_ids : gset string)
    (available_pool : list UtilEntry) (top_n : Z) (task : Task)
  : result Suggestion :=
  let assignee_id := assignee_str task in
  let assignee_info := util_map !! assignee_id in
  if negb (bool_decide (assignee_id ∈ unavailable_ids)) then
    Ok (mk_Suggestion (_serialize_task task) (_serialize_emp <$> assignee_info)
          false None [])
  else
    found ← mapM (candidate_of task assignee_id) available_pool;
    let candidates := omap (fun c => c) found in
    let candidates := PyList.sort_by PyList.leb2 candidate_key candidates in
    Ok (mk_Suggestion (_serialize_task task) (_serialize_emp <$> assignee_info)
          true (Some ("Assignee unavailable on " +:+ target_str))
          (PyList.slice_to candidates top_n)).

Definition priority_order : gmap string Z :=
  list_to_map [("critical", 0); ("high", 1); ("medium", 2); ("low", 3)].

(** The sort key of line 192. *)
Definition suggestion_key (s : Suggestion) : Z * Z :=
  (if needs_reassignment s then 0 else 1,
   match t_priority (s_task s) with
   | Some p => default 9 (priority_order !! p)
   | None => 9
   end).

Definition suggest_reassignments (events : list NormalizedEvent)
    (employees : list Employee) (tasks : list Task) (query_date : datetime)
    (top_n : Z) : result Suggestions :=
  let target_str := date_isoformat (date_of query_date) in
  utilization ← get_utilization events employees tasks query_date;
  let util_map := util_map_of utilization in
  let unavailable_ids : gset string :=
    list_to_set (map (fun e => PyStr.of_int (id (u_emp e)))
                   (filter (fun e => is_available e = false) utilization)) in
  let available_pool :=
    filter (fun e => is_available e && (0 <? free_capacity e) = true) utilization in
  let active_tasks := filter (fun t => is_active t = true) tasks in
  suggestions ←
    mapM (suggestion_of target_str util_map unavailable_ids available_pool top_n)
      active_tasks;
  let suggestions := PyList.sort_by PyList.leb2 suggestion_key suggestions in
  let needs := Z.of_nat (length (filter (fun s => needs_reassignment s = true) suggestions)) in
  Ok (mk_Suggestions target_str (Z.of_nat (length active_tasks)) needs suggestions
        (map _serialize_emp utilization)).

(** The default of [top_n]. *)
Definition default_top_n : Z := 3.

(** *** The commit *)

(** The decoded [EmployeeDatabase.json]; an absent ["tasks"] or
    ["employees"] member reads as the empty list. *)
Record Store : Type := mk_Store {
  tasks : list Task;
  employees : list Employee
}.

Record Audit : Type := mk_Audit {
  a_task_id : string;
  a_task_title : option string;
  from_employee_id : option Z;
  from_employee_name : string;
  to_employee_id : Z;
  to_employee_name : string;
  a_reason : string;
  executed_at : string
}.

(** The three assignments of lines 242-244 on a task. *)
Definition stamped (new_assignee_id : Z) (reason : string) (now : datetime)
    (t : Task) : Task :=
  mk_Task (t_id t) (t_title t) (t_description t) (t_status t) (t_priority t)
    (t_required_skills t) (t_effort_hours t) (t_due_date t)
    (Some new_assignee_id) (Some (isoformat now)) (Some reason).

(** [task["assigned_to_id"] = ...] and the two stamps, on the first task of
    the list whose id is [task_id]: the object [next] returned. *)
Fixpoint update_task (task_id : string) (f : Task -> Task) (ts : list Task)
  : list Task :=
  match ts with
  | [] => []
  | t :: ts' =>
      if String.eqb (t_id t) task_id then f t :: ts'
      else t :: update_task task_id f ts'
  end.

Definition full_name (e : Employee) : string :=
  first_name e +:+ " " +:+ last_name e.

Section Commit.

(** The file at [db_path]: its content, and the codec [json.load] and
    [json.dump] apply to it. *)
Context {File : Type}.
Variable load : File -> Store.
Variable dump : Store -> File.

(** [execute_reassignment] as a transition of the file: [now1] and [now2]
    are the two readings of the clock. The second component is the content
    of the file afterwards. *)
Definition execute_reassignment (task_id : string) (new_assignee_id : Z)
    (reason : string) (now1 now2 : datetime) (file : File)
  : result Audit * File :=
  let db := load file in
  (* Find task *)
  match find (fun t => String.eqb (t_id t) task_id) (tasks db) with
  | None => (Raise ValueError, file)
  | Some task =>
      (* Find new assignee *)
      match find (fun e => id e =? new_assignee_id) (employees db) with
      | None => (Raise ValueError, file)
      | Some new_emp =>
          (* Find old assignee *)
          let old_emp :=
            find (fun e => bool_decide (Some (id e) = t_assigned_to_id task))
              (employees db) in
          let old_assignee_id := t_assigned_to_id task in
          let db' :=
            mk_Store
              (update_task task_id (stamped new_assignee_id reason now1) (tasks db))
              (employees db) in
          (* Write back *)
          let file' := dump db' in
          (Ok (mk_Audit task_id (t_title task) old_assignee_id
                 (match old_emp with
                  | Some e => full_name e
                  | None => "Unknown"
                  end)
                 new_assignee_id (full_name new_emp) reason (isoformat now2)),
           file')
      end
  end.

End Commit.

End Reassignment.

(** ** Vocabulary of the statements

    The words of the specification and of the lemmas of Part II: the
    overlap rule, what a loop body yields for an element, the pool and the
    order of the ranking. *)

(** The rule of the specification: an all-day event covers
    [start_date <= target_date < end_date], a timed event covers
    [start_date <= target_date <= end_date]. *)
Definition overlaps_spec (ev : NormalizedEvent) (target_date : date) : bool :=
  let start_date := date_of (start_utc ev) in
  let end_date := date_of (end_utc ev) in
  if is_all_day ev
  then date_leb start_date target_date && date_ltb target_date end_date
  else date_leb start_date target_date && date_leb target_date end_date.

(** An event blocks an employee when it names the employee's id or email. *)
Definition names_employee (ev : NormalizedEvent) (emp : Employee) : Prop :=
  (employee_id ev ≠ EmptyString ∧ employee_id ev = PyStr.of_int (id emp))
  ∨ (employee_email ev ≠ EmptyString ∧ employee_email ev = email emp).

Definition blocking (ev : NormalizedEvent) : Prop :=
  availability ev = "busy" ∨ availability ev = "oof".

(** The test of the second loop: does some blocking event that overlaps
    the day name the employee? *)
Definition is_busy (events : list NormalizedEvent) (t : date) (emp : Employee) : bool :=
  let '(busy_ids, busy_emails) := foldl (busy_step t) (∅, ∅) events in
  bool_decide (PyStr.of_int (id emp) ∈ busy_ids)
  || bool_decide (email emp ∈ busy_emails).

(** The entry the second loop appends for an employee. *)
Definition entry_of (emp : Employee) : AvailEntry :=
  mk_AvailEntry emp (PyStr.of_int (id emp)).

(** The condition under which the [try] block of a normalizer skips the
    event: the start text is missing, or the start or a present end does
    not parse. *)
Definition unparsable {lib : Parsers} (start_str end_str : string) (tz_hint : option string) : Prop :=
  start_str = EmptyString
  ∨ is_ok (_parse_dt_to_utc start_str tz_hint) = false
  ∨ (end_str ≠ EmptyString ∧ is_ok (_parse_dt_to_utc end_str tz_hint) = false).

(** What the [try] block yields otherwise. *)
Definition parsed_as {lib : Parsers} (start_str end_str : string) (tz_hint : option string)
    (start_utc end_utc : datetime) : Prop :=
  start_str ≠ EmptyString
  ∧ _parse_dt_to_utc start_str tz_hint = Ok start_utc
  ∧ (if PyStr.truthy end_str
     then _parse_dt_to_utc end_str tz_hint = Ok end_utc
     else end_utc = start_utc).

Import Reassignment.

Local Open Scope Z_scope.

(** The ids of the available entries of the availability query, as
    [get_utilization] collects them. *)
Definition available_ids_of (events : list NormalizedEvent)
    (employees : list Employee) (q : datetime) : gset string :=
  list_to_set (map (fun e => PyStr.of_int (id (ae_emp e)))
                 (available (get_available_employees events employees q))).

(** The tasks the scorer counts for an employee. *)
Definition active_tasks_of (tasks : list Task) (emp : Employee) : list Task :=
  filter (fun t => String.eqb (assignee_str t) (PyStr.of_int (id emp)) && is_active t = true)
    tasks.

(** What the loop body of [get_utilization] stores for an employee. *)
Record entry_for (avail : gset string) (tasks : list Task) (emp : Employee)
    (e : UtilEntry) : Prop := {
  ef_emp : u_emp e = emp;
  ef_available : is_available e = bool_decide (PyStr.of_int (id emp) ∈ avail);
  ef_tasks : active_tasks e = active_tasks_of tasks emp;
  ef_count : active_task_count e = Z.of_nat (length (active_tasks_of tasks emp));
  ef_pct : ∃ pct,
    PyFloat.round_pct (active_task_count e)
      (Z.max (default 4 (max_tasks_per_day emp)) 1) = Ok pct
    ∧ utilization_pct e = Z.min 100 pct;
  ef_free : free_capacity e
            = Z.max 0 (default 4 (max_tasks_per_day emp) - active_task_count e)
}.

(** The pool and the two id collections of [suggest_reassignments]. *)
Definition unavailable_ids_of (u : list UtilEntry) : gset string :=
  list_to_set (map (fun e => PyStr.of_int (id (u_emp e)))
                 (filter (fun e => is_available e = false) u)).

Definition available_pool_of (u : list UtilEntry) : list UtilEntry :=
  filter (fun e => is_available e && (0 <? free_capacity e) = true) u.

(** What the inner loop appends for a pool member. *)
Record candidate_for (task : Task) (emp : UtilEntry) (c : Candidate) : Prop := {
  cf_emp : c_emp c = _serialize_emp emp;
  cf_match : skill_match_count c
             = Z.of_nat (size (required_set task ∩ skill_set (u_emp emp)));
  cf_score : score c = _score_candidate emp task
}.

(** The pool of a task in the words of the specification: the members that
    are available, have free capacity, and are not the assignee. *)
Definition candidate_pool (u : list UtilEntry) (task : Task) : list UtilEntry :=
  filter (fun e => is_available e = true ∧ 0 < free_capacity e
                   ∧ PyStr.of_int (id (u_emp e)) ≠ assignee_str task) u.

(** The order of the ranking: higher score first, and more free capacity
    first among equal scores. *)
Definition ranks_before (c1 c2 : Candidate) : Prop :=
  score c2 < score c1
  ∨ (score c1 = score c2
     ∧ se_free_capacity (c_emp c2) <= se_free_capacity (c_emp c1)).

Local Close Scope Z_scope.

(** ** A scenario

    Four employees on 2026-03-02: Alice is out of office on an all-day
    event from 2026-03-01 to 2026-03-03 and owns two active tasks; Bob owns
    one and has a meeting marked free; Carol owns none; Dave is at
    capacity. *)

Module Scenario.

Local Open Scope Z_scope.

Definition alice : Employee :=
  mk_Employee 1 "alice@example.com" "Alice" "Ames" (Some "engineer")
    (Some ["payments"]) (Some 4).
Definition bob : Employee :=
  mk_Employee 2 "bob@example.com" "Bob" "Brown" (Some "engineer")
    (Some ["payments"]) (Some 4).
Definition carol : Employee :=
  mk_Employee 3 "carol@example.com" "Carol" "Cole" None
    (Some ["api"; "payments"]) None.
Definition dave : Employee :=
  mk_Employee 4 "dave@example.com" "Dave" "Dunn" None (Some ["api"]) (Some 1).

Definition roster : list Employee := [alice; bob; carol; dave].

Definition task (i : string) (status priority : string) (required : list string)
    (assignee : Z) : Task :=
  mk_Task i (Some ("Task " +:+ i)) None (Some status) (Some priority)
    (Some required) None None (Some assignee) None None.

Definition task_list : list Task :=
  [ task "T1" "todo" "high" ["payments"; "api"] 1;
    task "T2" "in_progress" "medium" ["payments"] 2;
    task "T3" "todo" "critical" ["api"] 1;
    task "T4" "todo" "low" ["api"] 4;
    task "T5" "done" "low" [] 2 ].

Definition events : list NormalizedEvent :=
  [ mk_NormalizedEvent "e1" "google" "1" "alice@example.com" "Out of office" "oof"
      (mk_datetime 2026 3 1 0 0 0 0) (mk_datetime 2026 3 3 0 0 0 0) true;
    mk_NormalizedEvent "e2" "microsoft" "2" "bob@example.com" "Office hours" "free"
      (mk_datetime 2026 3 2 14 0 0 0) (mk_datetime 2026 3 2 15 0 0 0) false ].

Definition day : datetime := mk_datetime 2026 3 2 0 0 0 0.

Definition store : Store := mk_Store task_list roster.

End Scenario.

(** A Google payload whose only event ends the day before it starts. *)
Definition reversed_google_event : GoogleEvent :=
  mk_GoogleEvent {["id" := "ev1"]} None None
    (Some {["date" := "2026-03-02"]}) (Some {["date" := "2026-03-01"]}).

(** ** The payloads as the providers write them

    The texts of the start and of the end of a source event, read off the
    payload: the [dateTime] member of the object when it holds a text that
    is not empty, else the [date] member for a Google event (an all-day
    event) and nothing for a Microsoft event; the zone is the [timeZone]
    member of the start. A missing object, a missing member and an empty
    text all give the empty text. *)
Definition payload_time (with_date : bool) (obj : option sdict) : string :=
  match obj with
  | Some o =>
      match o !! "dateTime" with
      | Some (String c s) => String c s
      | _ => if with_date then default EmptyString (o !! "date") else EmptyString
      end
  | None => EmptyString
  end.

Definition payload_zone (obj : option sdict) : option string :=
  match obj with
  | Some o => o !! "timeZone"
  | None => None
  end.

#[global] Instance unparsable_dec {lib : Parsers} start_str end_str tz_hint :
  Decision (unparsable start_str end_str tz_hint).
Proof. unfold unparsable. apply _. Defined.

(** ** A roster with a shared id

    Ann and Ben have the same id. On 2026-03-02 Ann is busy on an event
    that names her by email and Cy, who owns task T1, is busy on an event
    that names him by id. *)

Module SharedId.

Local Open Scope Z_scope.

Definition ann : Employee :=
  mk_Employee 1 "ann@example.com" "Ann" "Able" None (Some ["api"]) None.
Definition ben : Employee :=
  mk_Employee 1 "ben@example.com" "Ben" "Bell" None (Some ["api"]) None.
Definition cy : Employee :=
  mk_Employee 2 "cy@example.com" "Cy" "Cole" None (Some ["api"]) None.

Definition roster : list Employee := [ann; ben; cy].

Definition task_list : list Task :=
  [ mk_Task "T1" (Some "Task T1") None (Some "todo") (Some "high")
      (Some ["api"]) None None (Some 2) None None ].

Definition events : list NormalizedEvent :=
  [ mk_NormalizedEvent "e1" "microsoft" "" "ann@example.com" "Workshop" "busy"
      (mk_datetime 2026 3 2 9 0 0 0) (mk_datetime 2026 3 2 17 0 0 0) false;
    mk_NormalizedEvent "e2" "google" "2" "" "Leave" "oof"
      (mk_datetime 2026 3 2 0 0 0 0) (mk_datetime 2026 3 3 0 0 0 0) true ].

Definition day : datetime := mk_datetime 2026 3 2 0 0 0 0.

End SharedId.

Local Open Scope Z_scope.

(** ** api.py

    The loader of the events, the reading of the [date] parameter and the
    route [/api/normalize]. A route returns its JSON body, or the error
    response of its [except Exception] clause, which is [Raise] here. *)

Module Api.

(** [datetime.strptime(s, "%Y-%m-%d")], by the documented directives: four
    digits, then a month and a day of one or two digits. *)
Definition strptime_date (s : string) : option datetime :=
  '(y, s1) ← digits 4 0 s;
  s1' ← expect "-" s1;
  '(fm, s2) ← field "-" s1';
  m ← field_value 1 1 12 false fm;
  d ← field_value 1 1 31 true s2;
  match make y m d 0 0 0 0 with Ok dt => Some dt | Raise _ => None end.

(** [parse_date]: [now] is the reading of the clock. *)
Definition parse_date (date_str : option string) (now : datetime) : result datetime :=
  if negb (PyStr.truthy (default EmptyString date_str)) then Ok now
  else
    match strptime_date (default EmptyString date_str) with
    | Some dt => Ok dt
    | None => Raise ValueError
    end.

Section Load.

Context {lib : Parsers}.

(** [load_events]: each feed is the content of its file, or [None] when
    the file does not exist; [employees] is what [load_employees] returns. *)
Definition load_events (google_json : option (option (list GoogleEvent)))
    (google_csv : option (list sdict))
    (ms_json : option (option (list MicrosoftEvent)))
    (employees : list Employee) : list NormalizedEvent :=
  let events := [] in
  let events :=
    match google_json with
    | Some data => events ++ normalize_google_json data
    | None => events
    end in
  let events :=
    match google_csv with
    | Some rows => events ++ normalize_google_csv rows (Some employees)
    | None => events
    end in
  let events :=
    match ms_json with
    | Some data => events ++ normalize_microsoft_json data
    | None => events
    end in
  events.

End Load.

(** The body of the response of [/api/normalize]. *)
Record NormalizeReport : Type := mk_NormalizeReport {
  nr_events : list EventDict;
  nr_count : Z;
  total_normalized : Z;
  by_source : gmap string Z;
  by_availability : gmap string Z
}.

(** One pass of the loop of lines 127-129 over the two counters. *)
Definition count_step (acc : gmap string Z * gmap string Z) (e : NormalizedEvent)
  : gmap string Z * gmap string Z :=
  let '(by_source, by_avail) := acc in
  (<[source e := default 0 (by_source !! source e) + 1]> by_source,
   <[availability e := default 0 (by_avail !! availability e) + 1]> by_avail).

Section Routes.

Context {lib : Parsers}.

(** [api_normalize] on the feeds and the [date] parameter of the request. *)
Definition api_normalize (google_json : option (option (list GoogleEvent)))
    (google_csv : option (list sdict))
    (ms_json : option (option (list MicrosoftEvent)))
    (employees : list Employee) (date_str : option string) (now : datetime)
  : result NormalizeReport :=
  let events := load_events google_json google_csv ms_json employees in
  result ←
    (if PyStr.truthy (default EmptyString date_str)
     then q ← parse_date date_str now; Ok (get_events_for_date events q)
     else Ok (map to_dict events));
  let '(by_source, by_avail) := foldl count_step (∅, ∅) events in
  Ok (mk_NormalizeReport result (Z.of_nat (length result))
        (Z.of_nat (length events)) by_source by_avail).

End Routes.

End Api.

(** ** Vocabulary of the further properties

    The orders, counts and texts that the statements of Part III are
    written with. *)

(** The order of the utilization list: available members first, then the
    lower utilization, then the larger free capacity. *)
Definition less_loaded (a b : UtilEntry) : Prop :=
  (is_available a = true ∧ is_available b = false)
  ∨ (is_available a = is_available b
     ∧ (utilization_pct a < utilization_pct b
        ∨ (utilization_pct a = utilization_pct b
           ∧ free_capacity b <= free_capacity a))).

(** The timed events of the day that carry the id or the email of an
    employee. *)
Definition timed_events_of (events : list NormalizedEvent) (t : date)
    (emp : Employee) : list NormalizedEvent :=
  filter (fun ev => overlaps_spec ev t = true ∧ is_all_day ev = false
                    ∧ (employee_id ev = PyStr.of_int (id emp)
                       ∨ employee_email ev = email emp)) events.

(** [sum(l)] *)
Definition total (l : list Z) : Z := foldr Z.add 0 l.

(** The active tasks whose assignee is a roster member. *)
Definition assigned_in_roster (employees : list Employee) (tasks : list Task)
  : list Task :=
  filter (fun t => is_active t = true
                   ∧ t_assigned_to_id t ∈ map (fun e => Some (id e)) employees) tasks.

(** The rank of the priority of a task in the sort of the suggestions. *)
Definition priority_rank (t : Task) : Z :=
  match t_priority t with
  | Some p => default 9 (priority_order !! p)
  | None => 9
  end.

(** The order of the suggestions: the tasks to reassign first, then by
    priority. *)
Definition triage_before (a b : Suggestion) : Prop :=
  (needs_reassignment a = true ∧ needs_reassignment b = false)
  ∨ (needs_reassignment a = needs_reassignment b
     ∧ priority_rank (s_task a) <= priority_rank (s_task b)).

(** The last steps of [ord2ymd]: the month and the day of day [n] (from 0)
    of a year. *)
Definition month_day (n : Z) (leapyear : bool) : Z * Z :=
  let m := Z.shiftr (n + 50) 5 in
  let preceding :=
    days_before_month 1 m + (if (2 <? m) && leapyear then 1 else 0) in
  if n <? preceding then
    let m' := m - 1 in
    let preceding' :=
      preceding - (days_in_month 1 m' + (if (m' =? 2) && leapyear then 1 else 0)) in
    (m', n - preceding' + 1)
  else (m, n - preceding + 1).

(** The fields of a [datetime] that its constructor accepts. *)
Definition valid_datetime (dt : datetime) : bool :=
  valid_date (year dt) (month dt) (day dt)
  && valid_time (hour dt) (minute dt) (second dt) (microsecond dt).

(** The seconds from the start of day 0 of the calendar to an instant. *)
Definition seconds_of (dt : datetime) : Z :=
  ymd2ord (year dt) (month dt) (day dt) * 86400
  + hour dt * 3600 + minute dt * 60 + second dt.

(** Every character of [s] passes the test [P]. *)
Fixpoint all_chars (P : ascii → bool) (s : string) : bool :=
  match s with
  | EmptyString => true
  | String c s' => P c && all_chars P s'
  end.

(** [dt.isoformat()] for a [datetime] without [tzinfo]: the text of a
    local time. *)
Definition naive_isoformat (dt : datetime) : string :=
  date_isoformat (date_of dt) +:+ "T" +:+ PyStr.pad 2 (hour dt) +:+ ":"
  +:+ PyStr.pad 2 (minute dt) +:+ ":" +:+ PyStr.pad 2 (second dt)
  +:+ (if microsecond dt =? 0 then "" else "." +:+ PyStr.pad 6 (microsecond dt)).

(** The text [+HH:MM] or [-HH:MM] of an offset east or west of UTC, and
    the seconds it stands for. *)
Definition offset_text (east : bool) (oh om : Z) : string :=
  String (if east then "+" else "-")%char (PyStr.pad 2 oh +:+ ":" +:+ PyStr.pad 2 om).

Definition offset_seconds (east : bool) (oh om : Z) : Z :=
  (if east then 1 else -1) * (oh * 3600 + om * 60).

(** A character that is neither sign of an offset. *)
Definition no_sign (c : ascii) : bool := negb (Ascii.eqb c "+" || Ascii.eqb c "-").

(** The entry of a counter dict for a key that occurs [n] times. *)
Definition counter (n : nat) : option Z :=
  if decide (n = 0%nat) then None else Some (Z.of_nat n).

(** The value [m * 2 ^ e] is at least the integer [N]. *)
Definition value_ge (N m e : Z) : Prop :=
  if e <=? 0 then N * 2 ^ (- e) <= m else N <= m * 2 ^ e.

(** The value [m * 2 ^ e] is at most [U * 2 ^ (- k)], for an exponent that
    is at most [- k]. *)
Definition value_le (U k m e : Z) : Prop :=
  e <= - k ∧ m <= U * 2 ^ (- k - e).

(** A positive float of value at least [N], the infinity included. *)
Definition at_least (N : Z) (x : spec_float) : Prop :=
  match x with
  | S754_finite false m e => value_ge N (Zpos m) e
  | S754_infinity false => True
  | _ => False
  end.

(** A zero, or a finite float of magnitude at most [U * 2 ^ (- k)]. *)
Definition at_most (U k : Z) (x : spec_float) : Prop :=
  match x with
  | S754_zero _ => True
  | S754_finite _ m e => value_le U k (Zpos m) e
  | _ => False
  end.

Local Close Scope Z_scope.


(* ===================================================================== *)
(** * Part II. Properties                                                 *)
(* ===================================================================== *)

(** ** Loops that append *)

Section Loops.

Context {A B : Type}.

(** A loop that appends [f x] to its result for the elements that pass a
    test computes a filtered map. *)
Lemma foldl_append_filter (test : A -> bool) (f : A -> B) (l : list A) (acc : list B) :
  foldl (fun r x => if test x then r ++ [f x] else r) acc l
  = acc ++ map f (filter (fun x => test x = true) l).
Proof.
  revert acc. induction l as [|x l IH]; intros acc; simpl.
  - by rewrite app_nil_r.
  - rewrite filter_cons. destruct (test x) eqn:Hx; rewrite IH.
    + rewrite decide_True by done. simpl. by rewrite <- app_assoc.
    + rewrite decide_False; [done | congruence].
Qed.

End Loops.

(** ** Dates *)

Module DateFacts.

Local Open Scope Z_scope.

Lemma lex_antisym c1 c2 d1 d2 :
  c1 = CompOpp d1 -> c2 = CompOpp d2 -> lex c1 c2 = CompOpp (lex d1 d2).
Proof. intros -> ->. by destruct d1. Qed.

Lemma date_compare_antisym (a b : date) :
  date_compare a b = CompOpp (date_compare b a).
Proof.
  unfold date_compare.
  repeat apply lex_antisym; apply Z.compare_antisym.
Qed.

Lemma compare_antisym (a b : datetime) :
  Datetime.compare a b = CompOpp (Datetime.compare b a).
Proof.
  unfold Datetime.compare.
  repeat apply lex_antisym; apply Z.compare_antisym.
Qed.

Lemma compare_refl (a : datetime) : Datetime.compare a a = Eq.
Proof. unfold Datetime.compare. by rewrite !Z.compare_refl. Qed.


(** [a <= t < a] holds for no [t]. *)
Lemma date_leb_ltb_absurd (a t : date) :
  date_leb a t && date_ltb t a = false.
Proof.
  unfold date_leb, date_ltb. rewrite (date_compare_antisym a t).
  by destruct (date_compare t a).
Qed.

End DateFacts.

Module AvailabilityFacts.

Lemma truthy_spec (s : string) : PyStr.truthy s = true ↔ s ≠ EmptyString.
Proof. destruct s; simpl; split; congruence. Qed.

Lemma get_events_for_date_filter events q :
  get_events_for_date events q
  = map to_dict (filter (fun ev => overlaps_spec ev (date_of q) = true) events).
Proof.
  unfold get_events_for_date.
  exact (foldl_append_filter (fun ev => overlaps_spec ev (date_of q)) to_dict events []).
Qed.

(** The two sets after the first loop: the ids and the emails that the
    blocking, overlapping events name. *)
Lemma busy_sets events t (ids emails : gset string) :
  foldl (busy_step t) (ids, emails) events
  = (ids ∪ list_to_set (map employee_id
             (filter (fun ev => blocking ev ∧ overlaps_spec ev t = true
                                ∧ employee_id ev ≠ EmptyString) events)),
     emails ∪ list_to_set (map employee_email
             (filter (fun ev => blocking ev ∧ overlaps_spec ev t = true
                                ∧ employee_email ev ≠ EmptyString) events))).
Proof.
  revert ids emails. induction events as [|ev events IH]; intros ids emails.
  - simpl. by rewrite !(right_id_L ∅ (∪)).
  - rewrite !filter_cons. cbn [foldl].
    assert (Hb : String.eqb (availability ev) "busy" || String.eqb (availability ev) "oof" = true
                 ↔ blocking ev).
    { unfold blocking. rewrite orb_true_iff, !String.eqb_eq. tauto. }
    destruct (busy_step t (ids, emails) ev) as [ids' emails'] eqn:Hstep.
    rewrite IH. unfold busy_step in Hstep. fold (overlaps_spec ev t) in Hstep.
    destruct (String.eqb (availability ev) "busy" || String.eqb (availability ev) "oof") eqn:Hav;
      simpl in Hstep.
    2:{ injection Hstep as <- <-. rewrite !decide_False; [done | |];
        intros (Hbl & _); apply Hb in Hbl; congruence. }
    assert (Hbl : blocking ev) by by apply Hb.
    destruct (overlaps_spec ev t) eqn:Hov.
    2:{ injection Hstep as <- <-.
        rewrite !decide_False; [done | |]; intros (_ & ? & _); congruence. }
    injection Hstep as <- <-. f_equal.
    + destruct (PyStr.truthy (employee_id ev)) eqn:Ht.
      * rewrite decide_True by (split_and!; [done..| by apply truthy_spec]).
        simpl. by rewrite (assoc_L (∪)).
      * rewrite decide_False; [done|]. intros (_ & _ & Hne).
        apply truthy_spec in Hne. congruence.
    + destruct (PyStr.truthy (employee_email ev)) eqn:Ht.
      * rewrite decide_True by (split_and!; [done..| by apply truthy_spec]).
        simpl. by rewrite (assoc_L (∪)).
      * rewrite decide_False; [done|]. intros (_ & _ & Hne).
        apply truthy_spec in Hne. congruence.
Qed.

Lemma is_busy_spec events t emp :
  is_busy events t emp = true
  ↔ ∃ ev, ev ∈ events ∧ blocking ev ∧ overlaps_spec ev t = true ∧ names_employee ev emp.
Proof.
  unfold is_busy. rewrite busy_sets.
  rewrite orb_true_iff, !bool_decide_eq_true, !elem_of_union, !elem_of_list_to_set,
    !list_elem_of_fmap.
  unfold names_employee. split.
  - intros [[H|(ev & Heq & Hin)]|[H|(ev & Heq & Hin)]];
      try (by apply not_elem_of_empty in H).
    + apply list_elem_of_filter in Hin as ((? & ? & ?) & ?).
      exists ev. split_and!; try done. left. by rewrite Heq.
    + apply list_elem_of_filter in Hin as ((? & ? & ?) & ?).
      exists ev. split_and!; try done. right. by rewrite Heq.
  - intros (ev & Hin & Hbl & Hov & [[Hne Heq]|[Hne Heq]]).
    + left. right. exists ev. split; [done|].
      apply list_elem_of_filter. by split_and!.
    + right. right. exists ev. split; [done|].
      apply list_elem_of_filter. by split_and!.
Qed.

Lemma ae_emp_entry_of (l : list Employee) : map ae_emp (map entry_of l) = l.
Proof. induction l as [|e l IH]; simpl; [done | by rewrite IH]. Qed.

(** The second loop splits the roster by its test. *)
Lemma partition_loop ids emails roster (no yes : list AvailEntry) :
  let test emp :=
    bool_decide (PyStr.of_int (id emp) ∈ ids) || bool_decide (email emp ∈ emails) in
  foldl (partition_step ids emails) (no, yes) roster
  = (no ++ map entry_of (filter (fun emp => test emp = false) roster),
     yes ++ map entry_of (filter (fun emp => test emp = true) roster)).
Proof.
  intros test. revert no yes.
  induction roster as [|emp roster IH]; intros no yes; cbn [foldl].
  - by rewrite !app_nil_r.
  - rewrite !filter_cons. unfold partition_step at 2. fold (test emp).
    fold (entry_of emp). destruct (test emp) eqn:Ht; rewrite IH.
    + rewrite decide_False by congruence. rewrite decide_True by done.
      simpl. by rewrite <- app_assoc.
    + rewrite decide_True by done. rewrite decide_False by congruence.
      simpl. by rewrite <- app_assoc.
Qed.

(** The two lists are the roster, filtered by [is_busy]. *)
Lemma get_available_employees_filter events roster q :
  available (get_available_employees events roster q)
    = map entry_of (filter (fun emp => is_busy events (date_of q) emp = false) roster)
  ∧ unavailable (get_available_employees events roster q)
    = map entry_of (filter (fun emp => is_busy events (date_of q) emp = true) roster).
Proof.
  unfold get_available_employees, is_busy.
  destruct (foldl (busy_step (date_of q)) (∅, ∅) events) as [ids emails].
  rewrite partition_loop. simpl. done.
Qed.

End AvailabilityFacts.

(** ** The availability query *)

Section AvailabilityClaims.

Import AvailabilityFacts DateFacts.

Local Open Scope Z_scope.

(** The roster splits by a test into two lists that together are a
    permutation of it. *)
Lemma split_by_test {A : Type} (test : A -> bool) (l : list A) :
  filter (fun x => test x = false) l ++ filter (fun x => test x = true) l ≡ₚ l.
Proof.
  induction l as [|x l IH]; [done|].
  rewrite !filter_cons. destruct (test x) eqn:Hx.
  - rewrite decide_False by congruence. rewrite decide_True by done.
    rewrite <- Permutation_middle. by constructor.
  - rewrite decide_True by done. rewrite decide_False by congruence.
    simpl. by constructor.
Qed.

(** C2: the overlap rule of [get_events_for_date] and of
    [get_available_employees] is the rule of the specification: an all-day
    event overlaps the dates [start_date <= target_date < end_date], a timed
    event the dates [start_date <= target_date <= end_date]. The first query
    returns exactly the events that overlap the date by this rule; the
    second marks a roster member unavailable exactly when a busy or
    out-of-office event that overlaps the date by this rule names the
    member. The all-day event from 2026-03-01 to 2026-03-03 overlaps
    2026-03-01 and 2026-03-02 and not 2026-03-03; the timed event of
    2026-03-01 from 09:00 to 10:00 overlaps 2026-03-01 and not 2026-03-02. *)
Theorem overlap_rule_of_both_queries :
  (∀ events q,
     get_events_for_date events q
     = map to_dict (filter (fun ev => overlaps_spec ev (date_of q) = true) events))
  ∧ (∀ events roster q emp,
       emp ∈ map ae_emp (unavailable (get_available_employees events roster q))
       ↔ emp ∈ roster
         ∧ ∃ ev, ev ∈ events ∧ blocking ev
                 ∧ overlaps_spec ev (date_of q) = true ∧ names_employee ev emp)
  ∧ (let all_day :=
       mk_NormalizedEvent "a" "google" "7" "" "Leave" "oof"
         (mk_datetime 2026 3 1 0 0 0 0) (mk_datetime 2026 3 3 0 0 0 0) true in
     let timed :=
       mk_NormalizedEvent "b" "google" "7" "" "Review" "busy"
         (mk_datetime 2026 3 1 9 0 0 0) (mk_datetime 2026 3 1 10 0 0 0) false in
     let day d := mk_datetime 2026 3 d 0 0 0 0 in
     get_events_for_date [all_day; timed] (day 1) = [to_dict all_day; to_dict timed]
     ∧ get_events_for_date [all_day; timed] (day 2) = [to_dict all_day]
     ∧ get_events_for_date [all_day; timed] (day 3) = []
     ∧ overlaps_spec all_day (mk_date 2026 3 1) = true
     ∧ overlaps_spec all_day (mk_date 2026 3 2) = true
     ∧ overlaps_spec all_day (mk_date 2026 3 3) = false
     ∧ overlaps_spec timed (mk_date 2026 3 1) = true
     ∧ overlaps_spec timed (mk_date 2026 3 2) = false).
Proof.
  split_and!.
  - apply get_events_for_date_filter.
  - intros events roster q emp.
    destruct (get_available_employees_filter events roster q) as [_ ->].
    rewrite ae_emp_entry_of, list_elem_of_filter, is_busy_spec. tauto.
  - vm_compute. by split_and!.
Qed.

(** C6: [get_available_employees] partitions the roster: the employees of
    the two lists together are a permutation of the roster, no employee is
    in both, and the two lengths (and the two counts returned) add up to the
    size of the roster. *)
Theorem availability_is_partition events roster q :
  let r := get_available_employees events roster q in
  map ae_emp (available r) ++ map ae_emp (unavailable r) ≡ₚ roster
  ∧ (∀ emp, ¬ (emp ∈ map ae_emp (available r) ∧ emp ∈ map ae_emp (unavailable r)))
  ∧ (∀ emp, emp ∈ roster ↔
            emp ∈ map ae_emp (available r) ∨ emp ∈ map ae_emp (unavailable r))
  ∧ (length (available r) + length (unavailable r) = length roster)%nat
  ∧ (available_count r + unavailable_count r = Z.of_nat (length roster))%Z.
Proof.
  intros r.
  destruct (get_available_employees_filter events roster q) as [Ha Hu].
  fold r in Ha, Hu.
  pose proof ae_emp_entry_of as Hid.
  assert (Hperm : map ae_emp (available r) ++ map ae_emp (unavailable r) ≡ₚ roster).
  { rewrite Ha, Hu, !Hid. apply split_by_test. }
  assert (Hlen : (length (available r) + length (unavailable r) = length roster)%nat).
  { rewrite <- (Permutation_length Hperm), length_app, !length_map. done. }
  split_and!.
  - exact Hperm.
  - intros emp. rewrite Ha, Hu, !Hid, !list_elem_of_filter.
    intros [[H1 _] [H2 _]]. congruence.
  - intros emp. rewrite <- Hperm, elem_of_app. done.
  - exact Hlen.
  - unfold r, get_available_employees in *.
    destruct (foldl _ _ events) as [ids emails].
    destruct (foldl _ _ roster) as [av un]. simpl in *. lia.
Qed.

(** C10: an all-day event whose [end_utc] equals its [start_utc] overlaps
    no date: [get_events_for_date] returns what it returns without the
    event and [get_available_employees] returns what it returns without
    it. Each normalizer sets [end_utc = start_utc] when the end of the
    source event is missing or empty. *)
Theorem all_day_without_end_never_overlaps :
  (∀ ev, is_all_day ev = true → end_utc ev = start_utc ev →
     (∀ t, overlaps_spec ev t = false)
     ∧ (∀ pre post q,
          get_events_for_date (pre ++ ev :: post) q
          = get_events_for_date (pre ++ post) q)
     ∧ (∀ pre post roster q,
          get_available_employees (pre ++ ev :: post) roster q
          = get_available_employees (pre ++ post) roster q))
  ∧ (∀ (lib : Parsers),
       (∀ ev e, google_json_event ev = Some e → google_end_str ev = EmptyString →
                end_utc e = start_utc e)
       ∧ (∀ row e, google_csv_row row = Some e → get row "end" "" = EmptyString →
                   end_utc e = start_utc e)
       ∧ (∀ ev e, microsoft_json_event ev = Some e →
                  microsoft_end_str ev = EmptyString → end_utc e = start_utc e)).
Proof.
  split.
  - intros ev Hall Heq.
    assert (Hno : ∀ t, overlaps_spec ev t = false).
    { intros t. unfold overlaps_spec. rewrite Hall, Heq. apply date_leb_ltb_absurd. }
    split_and!; [exact Hno | |].
    + intros pre post q. rewrite !get_events_for_date_filter.
      rewrite !filter_app, filter_cons, decide_False; [done|].
      rewrite Hno. congruence.
    + intros pre post roster q. unfold get_available_employees.
      rewrite !busy_sets.
      rewrite !filter_app, !filter_cons.
      rewrite !decide_False; [done | |]; rewrite Hno; intros (_ & ? & _); congruence.
  - intros lib. split_and!.
    + intros ev e. unfold google_json_event.
      destruct (negb _); [done|]. intros H Hend. rewrite Hend in H.
      unfold parse_start_end in H. simpl in H.
      destruct (_parse_dt_to_utc _ _); simpl in H; by simplify_eq.
    + intros row e. unfold google_csv_row.
      destruct (negb _); [done|]. intros H Hend. rewrite Hend in H.
      unfold parse_start_end in H. simpl in H.
      destruct (_parse_dt_to_utc _ _); simpl in H; by simplify_eq.
    + intros ev e. unfold microsoft_json_event.
      destruct (scan_extensions _) as [[? ?] ?].
      destruct (negb (PyStr.truthy (microsoft_start_str ev))); [done|].
      intros H Hend. rewrite Hend in H.
      unfold parse_start_end in H. simpl in H.
      destruct (_parse_dt_to_utc _ _); simpl in H; by simplify_eq.
Qed.

End AvailabilityClaims.

(** ** The normalizers *)

Module NormalizerFacts.

Section WithParsers.

Context {lib : Parsers}.

Lemma parse_start_end_raise start_str end_str tz_hint :
  is_ok (parse_start_end start_str end_str tz_hint) = false
  ↔ is_ok (_parse_dt_to_utc start_str tz_hint) = false
    ∨ (end_str ≠ EmptyString ∧ is_ok (_parse_dt_to_utc end_str tz_hint) = false).
Proof.
  unfold parse_start_end.
  destruct (_parse_dt_to_utc start_str tz_hint) as [s|e]; simpl.
  2:{ split; [by left | done]. }
  destruct end_str as [|c r]; simpl.
  { split; [done | intros [?|[? _]]; done]. }
  destruct (_parse_dt_to_utc (String c r) tz_hint); simpl.
  - split; [done | intros [?|[_ ?]]; done].
  - split; [by right | done].
Qed.

Lemma parse_start_end_ok start_str end_str tz_hint s e :
  parse_start_end start_str end_str tz_hint = Ok (s, e)
  ↔ _parse_dt_to_utc start_str tz_hint = Ok s
    ∧ (if PyStr.truthy end_str
       then _parse_dt_to_utc end_str tz_hint = Ok e else e = s).
Proof.
  unfold parse_start_end.
  destruct (_parse_dt_to_utc start_str tz_hint) as [s'|x]; simpl.
  2:{ split; [done | intros [? _]; done]. }
  destruct (PyStr.truthy end_str).
  - destruct (_parse_dt_to_utc end_str tz_hint); simpl; split;
      try done; intros; destruct_and?; by simplify_eq.
  - simpl. split; intros; destruct_and?; by simplify_eq.
Qed.

(** The three loop bodies skip exactly the unparsable events, and build
    their event from the parsed instants otherwise. *)
Lemma try_block_none {E : Type} start_str end_str tz_hint
    (build : datetime -> datetime -> E) :
  (if negb (PyStr.truthy start_str) then None
   else match parse_start_end start_str end_str tz_hint with
        | Raise _ => None
        | Ok (s, e) => Some (build s e)
        end) = None
  ↔ unparsable start_str end_str tz_hint.
Proof.
  unfold unparsable. rewrite <- parse_start_end_raise.
  destruct start_str as [|c r]; simpl.
  { split; [by left | done]. }
  destruct (parse_start_end (String c r) end_str tz_hint) as [[s e]|x]; simpl.
  - split; [done | intros [?|?]; done].
  - split; [by right | done].
Qed.

Lemma try_block_some {E : Type} start_str end_str tz_hint
    (build : datetime -> datetime -> E) (ev : E) :
  (if negb (PyStr.truthy start_str) then None
   else match parse_start_end start_str end_str tz_hint with
        | Raise _ => None
        | Ok (s, e) => Some (build s e)
        end) = Some ev
  ↔ ∃ s e, parsed_as start_str end_str tz_hint s e ∧ ev = build s e.
Proof.
  unfold parsed_as. split.
  - destruct start_str as [|c r]; simpl; [done|].
    destruct (parse_start_end (String c r) end_str tz_hint) as [[s e]|x] eqn:Hp;
      [|done].
    intros [= <-]. apply parse_start_end_ok in Hp as (? & ?). by exists s, e.
  - intros (s & e & (Hne & Hs & He) & ->).
    destruct start_str as [|c r]; [done|]. simpl.
    by rewrite (proj2 (parse_start_end_ok _ _ _ s e) (conj Hs He)).
Qed.

Lemma google_json_event_none ev :
  google_json_event ev = None
  ↔ unparsable (google_start_str ev) (google_end_str ev) (google_tz_hint ev).
Proof. unfold google_json_event. apply try_block_none. Qed.

Lemma google_json_event_some ev e :
  google_json_event ev = Some e →
  parsed_as (google_start_str ev) (google_end_str ev) (google_tz_hint ev)
    (start_utc e) (end_utc e).
Proof.
  unfold google_json_event. intros H.
  apply try_block_some in H as (s & e' & Hp & ->). exact Hp.
Qed.

Lemma google_csv_row_none row :
  google_csv_row row = None
  ↔ unparsable (get row "start" "") (get row "end" "") None.
Proof.
  unfold google_csv_row, unparsable. rewrite <- parse_start_end_raise.
  destruct (get row "start" "") as [|c r]; simpl.
  { split; [by left | done]. }
  destruct (parse_start_end (String c r) _ None) as [[s e]|x]; simpl.
  - split; [done | intros [?|?]; done].
  - split; [by right | done].
Qed.

Lemma google_csv_row_some row e :
  google_csv_row row = Some e →
  parsed_as (get row "start" "") (get row "end" "") None (start_utc e) (end_utc e).
Proof.
  unfold google_csv_row, parsed_as. intros H.
  destruct (get row "start" "") as [|c r]; [done|]. simpl in H.
  destruct (parse_start_end (String c r) _ None) as [[s x]|?] eqn:Hp; [|done].
  injection H as <-. apply parse_start_end_ok in Hp as [? ?]. by split_and!.
Qed.

Lemma microsoft_json_event_none ev :
  microsoft_json_event ev = None
  ↔ unparsable (microsoft_start_str ev) (microsoft_end_str ev) (microsoft_tz_hint ev).
Proof.
  unfold microsoft_json_event. destruct (scan_extensions _) as [[? ?] ?].
  apply try_block_none.
Qed.

Lemma microsoft_json_event_some ev e :
  microsoft_json_event ev = Some e →
  parsed_as (microsoft_start_str ev) (microsoft_end_str ev) (microsoft_tz_hint ev)
    (start_utc e) (end_utc e).
Proof.
  unfold microsoft_json_event. destruct (scan_extensions _) as [[i m] k].
  intros H. apply try_block_some in H as (s0 & e' & Hp & ->). exact Hp.
Qed.

(** A loop body that skips an element leaves the result of the loop as it
    is without the element. *)
Lemma omap_skip {A B : Type} (f : A -> option B) pre x post :
  f x = None → omap f (pre ++ x :: post) = omap f (pre ++ post).
Proof. intros H. rewrite !omap_app. simpl. by rewrite H. Qed.

End WithParsers.

End NormalizerFacts.

(** ** The payload and the variables of the loops *)

Module PayloadFacts.

Import NormalizerFacts.

Lemma google_start_payload ev : google_start_str ev = payload_time true (g_start ev).
Proof.
  unfold google_start_str, payload_time, PyStr.or_else, get.
  destruct (g_start ev) as [o|]; simpl; [|done].
  by destruct (o !! "dateTime") as [[|c s]|].
Qed.

Lemma google_end_payload ev : google_end_str ev = payload_time true (g_end ev).
Proof.
  unfold google_end_str, payload_time, PyStr.or_else, get.
  destruct (g_end ev) as [o|]; simpl; [|done].
  by destruct (o !! "dateTime") as [[|c s]|].
Qed.

Lemma google_zone_payload ev : google_tz_hint ev = payload_zone (g_start ev).
Proof. unfold google_tz_hint, payload_zone. by destruct (g_start ev). Qed.

Lemma microsoft_start_payload ev :
  microsoft_start_str ev = payload_time false (m_start ev).
Proof.
  unfold microsoft_start_str, payload_time, get.
  destruct (m_start ev) as [o|]; simpl; [|done].
  by destruct (o !! "dateTime") as [[|c s]|].
Qed.

Lemma microsoft_end_payload ev : microsoft_end_str ev = payload_time false (m_end ev).
Proof.
  unfold microsoft_end_str, payload_time, get.
  destruct (m_end ev) as [o|]; simpl; [|done].
  by destruct (o !! "dateTime") as [[|c s]|].
Qed.

Lemma microsoft_zone_payload ev : microsoft_tz_hint ev = payload_zone (m_start ev).
Proof. unfold microsoft_tz_hint, payload_zone. by destruct (m_start ev). Qed.

(** A loop that appends for the elements its body does not skip returns
    one result for each element that passes, in order. *)
Lemma omap_kept {A B : Type} (f : A → option B) (P : A → Prop)
    `{!∀ x, Decision (P x)} (R : A → B → Prop) (l : list A) :
  (∀ x, f x = None ↔ ¬ P x) → (∀ x y, f x = Some y → R x y) →
  Forall2 R (filter P l) (omap f l).
Proof.
  intros Hnone Hsome. induction l as [|x l IH]; simpl; [constructor|].
  rewrite filter_cons. destruct (f x) as [y|] eqn:Hx.
  - rewrite decide_True.
    + constructor; [by apply Hsome | done].
    + destruct (decide (P x)) as [|Hn]; [done|]. apply Hnone in Hn. congruence.
  - rewrite decide_False; [done|]. by apply Hnone.
Qed.

Section Fields.

Context {lib : Parsers}.

Lemma google_json_event_fields ev e :
  google_json_event ev = Some e →
  event_id e = get (g_members ev) "id" "" ∧ source e = "google"
  ∧ title e = get (g_members ev) "summary" "".
Proof.
  unfold google_json_event. destruct (negb _); [done|].
  destruct (parse_start_end _ _ _) as [[t1 t2]|?]; [|done]. by intros [= <-].
Qed.

Lemma google_csv_row_texts row e :
  google_csv_row row = Some e →
  event_id e = get row "id" "" ∧ source e = "google_csv"
  ∧ title e = get row "summary" "".
Proof.
  unfold google_csv_row. destruct (negb _); [done|].
  destruct (parse_start_end _ _ None) as [[t1 t2]|?]; [|done]. by intros [= <-].
Qed.

Lemma microsoft_json_event_fields ev e :
  microsoft_json_event ev = Some e →
  event_id e = get (m_members ev) "id" "" ∧ source e = "microsoft"
  ∧ title e = get (m_members ev) "subject" "".
Proof.
  unfold microsoft_json_event. destruct (scan_extensions _) as [[? ?] ?].
  destruct (negb (PyStr.truthy (microsoft_start_str ev))); [done|].
  destruct (parse_start_end _ _ _) as [[t1 t2]|?]; [|done]. by intros [= <-].
Qed.

End Fields.

End PayloadFacts.

Section NormalizerClaims.

Import NormalizerFacts PayloadFacts DateFacts.

Context {lib : Parsers}.

(** C8: a source event whose start is missing, or whose start or end does
    not parse, is left out of the result of its normalizer, and the events
    around it are returned as they are without it. What a normalizer
    returns is one event for each remaining source event, in the order of
    the payload, with the id, the source tag and the title of its source
    event and with its parsed instants. The normalizers are total: they
    return their list for every payload. *)
Theorem unparsable_events_are_skipped :
  (∀ pre ev post,
     unparsable (payload_time true (g_start ev)) (payload_time true (g_end ev))
       (payload_zone (g_start ev)) →
     normalize_google_json (Some (pre ++ ev :: post))
     = normalize_google_json (Some (pre ++ post)))
  ∧ (∀ pre row post db,
       unparsable (get row "start" "") (get row "end" "") None →
       normalize_google_csv (pre ++ row :: post) db
       = normalize_google_csv (pre ++ post) db)
  ∧ (∀ pre ev post,
       unparsable (payload_time false (m_start ev)) (payload_time false (m_end ev))
         (payload_zone (m_start ev)) →
       normalize_microsoft_json (Some (pre ++ ev :: post))
       = normalize_microsoft_json (Some (pre ++ post)))
  ∧ (∀ items,
       Forall2 (fun ev e =>
           event_id e = get (g_members ev) "id" "" ∧ source e = "google"
           ∧ title e = get (g_members ev) "summary" ""
           ∧ parsed_as (payload_time true (g_start ev)) (payload_time true (g_end ev))
               (payload_zone (g_start ev)) (start_utc e) (end_utc e))
         (filter (fun ev =>
            ¬ unparsable (payload_time true (g_start ev)) (payload_time true (g_end ev))
                (payload_zone (g_start ev))) (default [] items))
         (normalize_google_json items))
  ∧ (∀ rows db,
       Forall2 (fun row e =>
           event_id e = get row "id" "" ∧ source e = "google_csv"
           ∧ title e = get row "summary" ""
           ∧ parsed_as (get row "start" "") (get row "end" "") None
               (start_utc e) (end_utc e))
         (filter (fun row => ¬ unparsable (get row "start" "") (get row "end" "") None)
            rows)
         (normalize_google_csv rows db))
  ∧ (∀ value,
       Forall2 (fun ev e =>
           event_id e = get (m_members ev) "id" "" ∧ source e = "microsoft"
           ∧ title e = get (m_members ev) "subject" ""
           ∧ parsed_as (payload_time false (m_start ev)) (payload_time false (m_end ev))
               (payload_zone (m_start ev)) (start_utc e) (end_utc e))
         (filter (fun ev =>
            ¬ unparsable (payload_time false (m_start ev)) (payload_time false (m_end ev))
                (payload_zone (m_start ev))) (default [] value))
         (normalize_microsoft_json value)).
Proof.
  split_and!.
  - intros pre ev post H. apply omap_skip, google_json_event_none.
    by rewrite google_start_payload, google_end_payload, google_zone_payload.
  - intros pre row post db H. apply omap_skip. by apply google_csv_row_none.
  - intros pre ev post H. apply omap_skip, microsoft_json_event_none.
    by rewrite microsoft_start_payload, microsoft_end_payload, microsoft_zone_payload.
  - intros items. apply omap_kept.
    + intros ev. rewrite google_json_event_none.
      rewrite google_start_payload, google_end_payload, google_zone_payload.
      split; [tauto | apply dec_stable].
    + intros ev e He. pose proof (google_json_event_some ev e He) as Hp.
      rewrite google_start_payload, google_end_payload, google_zone_payload in Hp.
      destruct (google_json_event_fields ev e He) as (? & ? & ?). done.
  - intros rows db. apply omap_kept.
    + intros row. rewrite google_csv_row_none. split; [tauto | apply dec_stable].
    + intros row e He. pose proof (google_csv_row_some row e He) as Hp.
      destruct (google_csv_row_texts row e He) as (? & ? & ?). done.
  - intros value. apply omap_kept.
    + intros ev. rewrite microsoft_json_event_none.
      rewrite microsoft_start_payload, microsoft_end_payload, microsoft_zone_payload.
      split; [tauto | apply dec_stable].
    + intros ev e He. pose proof (microsoft_json_event_some ev e He) as Hp.
      rewrite microsoft_start_payload, microsoft_end_payload, microsoft_zone_payload in Hp.
      destruct (microsoft_json_event_fields ev e He) as (? & ? & ?). done.
Qed.


End NormalizerClaims.


(** ** The time parser on date-only text *)

Module ParseFacts.

Local Open Scope Z_scope.

Lemma digit_char_cases (k : Z) :
  ∃ r, 0 <= r < 10 ∧ k mod 10 = r ∧ PyStr.digit_char k = ascii_of_nat (Z.to_nat (48 + r)).
Proof.
  exists (k mod 10). split; [apply Z.mod_pos_bound; lia | done].
Qed.

Lemma digit_char_facts (k : Z) :
  PyStr.isdigit (PyStr.digit_char k) = true
  ∧ PyStr.digit_value (PyStr.digit_char k) = k mod 10
  ∧ PyStr.isspace (PyStr.digit_char k) = false
  ∧ PyStr.int_space (PyStr.digit_char k) = false
  ∧ Ascii.eqb (PyStr.digit_char k) "+" = false
  ∧ Ascii.eqb (PyStr.digit_char k) "-" = false.
Proof.
  destruct (digit_char_cases k) as (r & Hr & -> & ->).
  assert (r = 0 ∨ r = 1 ∨ r = 2 ∨ r = 3 ∨ r = 4 ∨ r = 5 ∨ r = 6 ∨ r = 7
          ∨ r = 8 ∨ r = 9) as Hc by lia.
  destruct_or!; subst r; by vm_compute.
Qed.

(** [int] on two and on four digit characters. *)
Lemma int_two (a b : Z) :
  PyStr.int (String (PyStr.digit_char a) (String (PyStr.digit_char b) EmptyString))
  = Ok (10 * (a mod 10) + b mod 10).
Proof.
  destruct (digit_char_facts a) as (Da & Va & _ & Sa & Pa & Ma).
  destruct (digit_char_facts b) as (Db & Vb & _ & Sb & Pb & Mb).
  unfold PyStr.int. cbn [PyStr.lstrip]. rewrite Sa.
  cbn [PyStr.rstrip]. rewrite Sb, Pa, Ma.
  cbn [PyStr.int_digits]. rewrite Da, Db, Va, Vb. f_equal; lia.
Qed.

Lemma int_four (a b c d : Z) :
  PyStr.int (String (PyStr.digit_char a) (String (PyStr.digit_char b)
              (String (PyStr.digit_char c) (String (PyStr.digit_char d) EmptyString))))
  = Ok (1000 * (a mod 10) + 100 * (b mod 10) + 10 * (c mod 10) + d mod 10).
Proof.
  destruct (digit_char_facts a) as (Da & Va & _ & Sa & Pa & Ma).
  destruct (digit_char_facts b) as (Db & Vb & _ & Sb & Pb & Mb).
  destruct (digit_char_facts c) as (Dc & Vc & _ & Sc & Pc & Mc).
  destruct (digit_char_facts d) as (Dd & Vd & _ & Sd & Pd & Md).
  unfold PyStr.int. cbn [PyStr.lstrip]. rewrite Sa.
  cbn [PyStr.rstrip]. rewrite Sd, Pa, Ma.
  cbn [PyStr.int_digits]. rewrite Da, Db, Dc, Dd, Va, Vb, Vc, Vd. f_equal; lia.
Qed.

(** The text [isoformat] writes for a date, character by character. *)
Lemma date_isoformat_chars (y m d : Z) :
  date_isoformat (mk_date y m d)
  = String (PyStr.digit_char (y / 10 / 10 / 10)) (String (PyStr.digit_char (y / 10 / 10))
      (String (PyStr.digit_char (y / 10)) (String (PyStr.digit_char y)
        (String "-" (String (PyStr.digit_char (m / 10)) (String (PyStr.digit_char m)
          (String "-" (String (PyStr.digit_char (d / 10)) (String (PyStr.digit_char d)
            EmptyString))))))))).
Proof. reflexivity. Qed.

Lemma four_digits (y : Z) :
  0 <= y < 10000 →
  1000 * (y / 10 / 10 / 10 mod 10) + 100 * (y / 10 / 10 mod 10)
  + 10 * (y / 10 mod 10) + y mod 10 = y.
Proof. intros H. Z.div_mod_to_equations. lia. Qed.

Lemma two_digits (m : Z) :
  0 <= m < 100 → 10 * (m / 10 mod 10) + m mod 10 = m.
Proof. intros H. Z.div_mod_to_equations. lia. Qed.

Lemma valid_date_bounds (y m d : Z) :
  valid_date y m d = true → 0 <= y < 10000 ∧ 0 <= m < 100 ∧ 0 <= d < 100.
Proof.
  unfold valid_date. rewrite !andb_true_iff, !Z.leb_le.
  intros (((((? & ?) & ?) & ?) & ?) & Hd).
  assert (days_in_month y m <= 31).
  { unfold days_in_month. destruct (_ && _); [lia|].
    assert (m = 1 ∨ m = 2 ∨ m = 3 ∨ m = 4 ∨ m = 5 ∨ m = 6 ∨ m = 7 ∨ m = 8
            ∨ m = 9 ∨ m = 10 ∨ m = 11 ∨ m = 12) as Hm by lia.
    destruct_or!; subst m; simpl; lia. }
  lia.
Qed.

End ParseFacts.

Section ParseClaims.

Import ParseFacts.

Context {lib : Parsers}.

Local Open Scope Z_scope.

(** C9: the ten characters [YYYY-MM-DD] of a date parse to midnight UTC of
    that date, whatever the timezone hint. *)
Theorem date_only_is_midnight_utc (y m d : Z) (tz_hint : option string) :
  valid_date y m d = true →
  _parse_dt_to_utc (date_isoformat (mk_date y m d)) tz_hint
  = Ok (mk_datetime y m d 0 0 0 0).
Proof.
  intros Hv. destruct (valid_date_bounds y m d Hv) as (Hy & Hm & Hd).
  rewrite date_isoformat_chars. unfold _parse_dt_to_utc.
  destruct (digit_char_facts (y / 10 / 10 / 10)) as (_ & _ & S0 & _).
  destruct (digit_char_facts d) as (_ & _ & S9 & _).
  unfold PyStr.strip. cbn [PyStr.lstrip]. rewrite S0.
  cbn [PyStr.rstrip]. rewrite S9.
  change (PyStr.len _ =? 10) with true. cbv iota.
  unfold PyStr.slice. cbn [Nat.sub String.substring].
  rewrite int_four, four_digits by done. cbn [mbind result_bind].
  rewrite !int_two, !two_digits by done. cbn [mbind result_bind].
  unfold make. rewrite Hv. reflexivity.
Qed.

End ParseClaims.

(** C9 at 2026-02-24 with the Pacific hint. *)
Lemma date_only_is_midnight_utc_witness :
  valid_date 2026 2 24 = true
  ∧ _parse_dt_to_utc (lib := documented_parsers) "2026-02-24"
      (Some "Pacific Standard Time")
    = Ok (mk_datetime 2026 2 24 0 0 0 0).
Proof.
  split; [reflexivity|].
  exact (date_only_is_midnight_utc (lib := documented_parsers) 2026 2 24
           (Some "Pacific Standard Time") eq_refl).
Defined.

(** ** Lists, sorting and exceptions *)

Module ListFacts.

(** The elements of a list that [mapM] returned are the results of the
    function on the elements of its argument, in order. *)
Lemma mapM_ok {A B : Type} (f : A -> result B) (l : list A) (ys : list B) :
  mapM f l = Ok ys → Forall2 (fun x y => f x = Ok y) l ys.
Proof.
  revert ys. induction l as [|x l IH]; intros ys; simpl.
  - intros [= <-]. constructor.
  - destruct (f x) as [y|e] eqn:Hx; simpl; [|done].
    destruct (mapM f l) as [ys'|e]; simpl; [|done].
    intros [= <-]. constructor; [done | by apply IH].
Qed.

Lemma mapM_ok_elem {A B : Type} (f : A -> result B) (l : list A) (ys : list B) y :
  mapM f l = Ok ys → y ∈ ys → ∃ x, x ∈ l ∧ f x = Ok y.
Proof.
  intros H%mapM_ok Hy.
  induction H as [|x y' l ys Hxy H IH]; [by apply elem_of_nil in Hy|].
  apply elem_of_cons in Hy as [->|Hy].
  - exists x. split; [left | done].
  - destruct (IH Hy) as (x' & ? & ?). exists x'. split; [by right | done].
Qed.

Lemma mapM_ok_elem_l {A B : Type} (f : A -> result B) (l : list A) (ys : list B) x :
  mapM f l = Ok ys → x ∈ l → ∃ y, y ∈ ys ∧ f x = Ok y.
Proof.
  intros H%mapM_ok Hx.
  induction H as [|x' y l ys Hxy H IH]; [by apply elem_of_nil in Hx|].
  apply elem_of_cons in Hx as [->|Hx].
  - exists y. split; [left | done].
  - destruct (IH Hx) as (y' & ? & ?). exists y'. split; [by right | done].
Qed.

Lemma mapM_returns {A B : Type} (f : A -> result B) (l : list A) :
  (∀ x, x ∈ l → ∃ y, f x = Ok y) → ∃ ys, mapM f l = Ok ys.
Proof.
  induction l as [|x l IH]; intros H; simpl.
  - by eexists.
  - destruct (H x) as [y ->]; [left|].
    destruct IH as [ys ->]; [intros z Hz; apply H; by right|].
    by eexists.
Qed.

Lemma mapM_ok_length {A B : Type} (f : A -> result B) (l : list A) (ys : list B) :
  mapM f l = Ok ys → length ys = length l.
Proof. intros H%mapM_ok. symmetry. by eapply Forall2_length. Qed.

Section Sorting.

Context {A K : Type} (leb : K -> K -> bool) (key : A -> K).

Hypothesis leb_total : ∀ a b, leb a b = false → leb b a = true.
Hypothesis leb_trans : ∀ a b c, leb a b = true → leb b c = true → leb a c = true.

Local Abbreviation key_le := (PyList.key_le leb key).

Lemma insert_by_perm x l : PyList.insert_by leb key x l ≡ₚ x :: l.
Proof.
  induction l as [|y l IH]; simpl; [done|].
  destruct (leb (key x) (key y)); [done|].
  rewrite IH. apply Permutation_swap.
Qed.

Lemma sort_by_perm l : PyList.sort_by leb key l ≡ₚ l.
Proof.
  induction l as [|x l IH]; simpl; [done|].
  by rewrite insert_by_perm, IH.
Qed.

Lemma insert_by_sorted x l :
  StronglySorted key_le l → StronglySorted key_le (PyList.insert_by leb key x l).
Proof.
  induction l as [|y l IH]; simpl; intros Hs.
  - repeat constructor.
  - apply StronglySorted_inv in Hs as [Hs Hy].
    destruct (leb (key x) (key y)) eqn:Hxy.
    + constructor; [by constructor|].
      constructor; [done|].
      eapply Forall_impl; [exact Hy|]. intros z Hz. unfold PyList.key_le in *. eauto.
    + constructor; [by apply IH|].
      rewrite insert_by_perm. constructor; [|done].
      unfold PyList.key_le. by apply leb_total.
Qed.

Lemma sort_by_sorted l : StronglySorted key_le (PyList.sort_by leb key l).
Proof.
  induction l as [|x l IH]; simpl; [constructor | by apply insert_by_sorted].
Qed.

End Sorting.

Local Open Scope Z_scope.

Lemma leb2_spec (a b : Z * Z) :
  PyList.leb2 a b = true ↔ a.1 < b.1 ∨ (a.1 = b.1 ∧ a.2 <= b.2).
Proof.
  unfold PyList.leb2. destruct (Z.compare_spec a.1 b.1); rewrite ?Z.leb_le; split;
    try done; try lia.
Qed.

Lemma leb2_total a b : PyList.leb2 a b = false → PyList.leb2 b a = true.
Proof.
  intros H. apply leb2_spec.
  destruct (PyList.leb2 a b) eqn:E; [done|].
  assert (¬ (a.1 < b.1 ∨ (a.1 = b.1 ∧ a.2 <= b.2))) by (rewrite <- leb2_spec; congruence).
  lia.
Qed.

Lemma leb2_trans a b c :
  PyList.leb2 a b = true → PyList.leb2 b c = true → PyList.leb2 a c = true.
Proof. rewrite !leb2_spec. lia. Qed.

Lemma leb3_spec (a b : Z * Z * Z) :
  PyList.leb3 a b = true
  ↔ a.1.1 < b.1.1 ∨ (a.1.1 = b.1.1 ∧ (a.1.2 < b.1.2 ∨ (a.1.2 = b.1.2 ∧ a.2 <= b.2))).
Proof.
  unfold PyList.leb3. destruct (Z.compare_spec a.1.1 b.1.1); rewrite ?leb2_spec;
    simpl; split; try done; try lia.
Qed.

Lemma leb3_total a b : PyList.leb3 a b = false → PyList.leb3 b a = true.
Proof.
  intros H. apply leb3_spec.
  assert (¬ (a.1.1 < b.1.1 ∨ (a.1.1 = b.1.1 ∧ (a.1.2 < b.1.2 ∨ (a.1.2 = b.1.2 ∧ a.2 <= b.2)))))
    by (rewrite <- leb3_spec; congruence).
  lia.
Qed.

Lemma leb3_trans a b c :
  PyList.leb3 a b = true → PyList.leb3 b c = true → PyList.leb3 a c = true.
Proof. rewrite !leb3_spec. lia. Qed.

Lemma slice_to_nonneg {A : Type} (l : list A) (n : Z) :
  0 <= n → PyList.slice_to l n = take (Z.to_nat n) l.
Proof.
  intros H. unfold PyList.slice_to.
  by rewrite (proj2 (Z.leb_le 0 n) H).
Qed.

Lemma slice_to_subseteq {A : Type} (l : list A) (n : Z) x :
  x ∈ PyList.slice_to l n → x ∈ l.
Proof.
  unfold PyList.slice_to. destruct (0 <=? n); intros H;
    by eapply subseteq_take.
Qed.

(** [str] is one-to-one on integers. *)
Lemma of_int_inj (a b : Z) : PyStr.of_int a = PyStr.of_int b → a = b.
Proof.
  unfold PyStr.of_int. intros H.
  assert (Hn : ∀ z, Z.to_int z ≠ Decimal.Pos Decimal.Nil ∧ Z.to_int z ≠ Decimal.Neg Decimal.Nil).
  { intros z. destruct z as [|p|p]; simpl; split; try done.
    - intros [= Hp]. by apply (DecimalPos.Unsigned.to_uint_nonnil p).
    - intros [= Hp]. by apply (DecimalPos.Unsigned.to_uint_nonnil p). }
  assert (Hi : Some (Z.to_int a) = Some (Z.to_int b)).
  { rewrite <- (NilZero.isi (Z.to_int a)) by apply Hn.
    rewrite <- (NilZero.isi (Z.to_int b)) by apply Hn. by rewrite H. }
  injection Hi as Hi. rewrite <- (DecimalZ.of_to a), <- (DecimalZ.of_to b).
  by rewrite Hi.
Qed.

End ListFacts.

(** ** Binary64 *)

Module FloatFacts.

Local Open Scope Z_scope.

Lemma binary_round_aux_signed s m e l :
  PyFloat.signed s (binary_round_aux PyFloat.prec PyFloat.emax s m e l).
Proof.
  unfold binary_round_aux.
  destruct (shr_fexp _ _ m e l) as [mrs' e'].
  destruct (shr_fexp _ _ _ e' loc_Exact) as [mrs'' e''].
  destruct (shr_m mrs''); simpl; [done | | done].
  by destruct (e'' <=? _).
Qed.

Lemma truediv_signed (a b : Z) q :
  0 <= a → 0 < b → PyFloat.truediv a b = Ok q → PyFloat.signed false q.
Proof.
  intros Ha Hb. unfold PyFloat.truediv.
  destruct b as [|b|b]; try lia.
  destruct a as [|a|a]; try lia.
  - intros [= <-]. done.
  - unfold SFdiv.
    destruct (SFdiv_core_binary _ _ _ _ _ _) as [[mz ez] lz].
    pose proof (binary_round_aux_signed (xorb (Z.pos a <? 0) (Z.pos b <? 0)) mz ez lz) as Hs.
    destruct (binary_round_aux _ _ _ mz ez lz); intros; simplify_eq; exact Hs.
Qed.

Lemma mul_100_signed q : PyFloat.signed false q → PyFloat.signed false (PyFloat.mul q (PyFloat.of_int 100)).
Proof.
  change (PyFloat.of_int 100) with (S754_finite false 7036874417766400 (-46)).
  destruct q as [s|s| |s m e]; simpl; intros H; subst; try done.
  apply binary_round_aux_signed.
Qed.

Lemma round_half_even_nonneg m e : 0 <= PyFloat.round_half_even m e.
Proof.
  unfold PyFloat.round_half_even. destruct e as [|k|k].
  - lia.
  - assert (0 < 2 ^ Z.pos k) by (apply Z.pow_pos_nonneg; lia). nia.
  - assert (0 < 2 ^ Z.pos k) by (apply Z.pow_pos_nonneg; lia).
    assert (0 <= Z.pos m / 2 ^ Z.pos k) by (apply Z.div_pos; lia).
    destruct (_ ?= _); [destruct (Z.even _)| |]; lia.
Qed.

Lemma round_signed x v : PyFloat.signed false x → PyFloat.round x = Ok v → 0 <= v.
Proof.
  destruct x as [s|s| |s m e]; simpl; intros Hs Hr; simplify_eq; [lia|].
  apply round_half_even_nonneg.
Qed.

(** [round(a / b * 100)] is not negative when [a] is not and [b] is
    positive. *)
Lemma round_pct_nonneg (a b p : Z) :
  0 <= a → 0 < b → PyFloat.round_pct a b = Ok p → 0 <= p.
Proof.
  intros Ha Hb. unfold PyFloat.round_pct.
  destruct (PyFloat.truediv a b) as [q|e] eqn:Hq; simpl; [|done].
  intros Hr. eapply round_signed; [|exact Hr].
  apply mul_100_signed. by eapply truediv_signed.
Qed.

Lemma fexp_eq x : fexp PyFloat.prec PyFloat.emax x = Z.max (x - 53) (-1074).
Proof. reflexivity. Qed.

Lemma digits_bound p :
  2 ^ (Zpos (digits2_pos p) - 1) <= Zpos p < 2 ^ Zpos (digits2_pos p).
Proof.
  induction p as [p IH|p IH|]; simpl digits2_pos.
  - rewrite Pos2Z.inj_succ.
    replace (Z.succ (Z.pos (digits2_pos p)) - 1) with (Z.succ (Z.pos (digits2_pos p) - 1)) by lia.
    rewrite !Z.pow_succ_r by lia. lia.
  - rewrite Pos2Z.inj_succ.
    replace (Z.succ (Z.pos (digits2_pos p)) - 1) with (Z.succ (Z.pos (digits2_pos p) - 1)) by lia.
    rewrite !Z.pow_succ_r by lia. lia.
  - simpl. lia.
Qed.

Lemma Zdigits2_nonneg m : 0 <= Zdigits2 m.
Proof. destruct m; simpl; lia. Qed.

(** A number below [2 ^ k] has at most [k] binary digits. *)
Lemma Zdigits2_le m k : 0 <= m < 2 ^ k -> 0 <= k -> Zdigits2 m <= k.
Proof.
  intros [Hm Hlt] Hk. destruct m as [|p|p]; simpl; try lia.
  destruct (digits_bound p) as [Hlo _].
  assert (2 ^ (Z.pos (digits2_pos p) - 1) < 2 ^ k) by lia.
  apply Z.pow_lt_mono_r_iff in H; lia.
Qed.

Lemma shr_1_m mrs : 0 <= shr_m mrs -> shr_m (shr_1 mrs) = shr_m mrs / 2.
Proof.
  destruct mrs as [m r s]. cbn [shr_m]. intros Hm.
  destruct m as [|[p|p|]|p]; cbn [shr_1 shr_m]; try lia.
  - reflexivity.
  - apply Z.div_unique with (r := 1); lia.
  - apply Z.div_unique with (r := 0); lia.
  - reflexivity.
Qed.

Lemma iter_shr_m n mrs :
  0 <= shr_m mrs ->
  shr_m (@SpecFloat.iter_pos shr_record shr_1 n mrs) = shr_m mrs / 2 ^ Zpos n.
Proof.
  revert mrs. induction n as [n IH|n IH|]; intros mrs Hm; cbn [SpecFloat.iter_pos].
  - assert (Hpow : 0 < 2 ^ Z.pos n) by (apply Z.pow_pos_nonneg; lia).
    assert (H1 : 0 <= shr_m (shr_1 mrs)).
    { rewrite shr_1_m by done. apply Z.div_pos; lia. }
    assert (H2 : 0 <= shr_m (@SpecFloat.iter_pos shr_record shr_1 n (shr_1 mrs))).
    { rewrite IH by done. by apply Z.div_pos. }
    rewrite IH, IH, shr_1_m by done.
    rewrite !Z.div_div by lia.
    f_equal. change (Z.pos n~1) with (2 * Z.pos n + 1).
    replace (2 * Z.pos n + 1) with (1 + (Z.pos n + Z.pos n)) by lia.
    rewrite !Z.pow_add_r by lia. change (2 ^ 1) with 2. lia.
  - assert (Hpow : 0 < 2 ^ Z.pos n) by (apply Z.pow_pos_nonneg; lia).
    assert (H2 : 0 <= shr_m (@SpecFloat.iter_pos shr_record shr_1 n mrs)).
    { rewrite IH by done. by apply Z.div_pos. }
    rewrite IH, IH by done.
    rewrite !Z.div_div by lia.
    f_equal. change (Z.pos n~0) with (2 * Z.pos n).
    replace (2 * Z.pos n) with (Z.pos n + Z.pos n) by lia.
    rewrite !Z.pow_add_r by lia. lia.
  - rewrite shr_1_m by done. reflexivity.
Qed.

Lemma shr_m_of_loc m l : shr_m (shr_record_of_loc m l) = m.
Proof. by destruct l as [|[]]. Qed.

(** [shr_fexp] on a mantissa that is not negative: the new exponent is the
    larger of the old one and the canonical one, and the mantissa is
    divided by the power of two between them. *)
Lemma shr_fexp_spec m e l :
  0 <= m ->
  ∃ mrs e2,
    shr_fexp PyFloat.prec PyFloat.emax m e l = (mrs, e2)
    ∧ e2 = Z.max e (fexp PyFloat.prec PyFloat.emax (Zdigits2 m + e))
    ∧ shr_m mrs = m / 2 ^ (e2 - e).
Proof.
  intros Hm. unfold shr_fexp, shr.
  generalize (fexp PyFloat.prec PyFloat.emax (Zdigits2 m + e)). intros f.
  destruct (f - e) as [|n|n] eqn:Hn.
  - exists (shr_record_of_loc m l), e. split; [done|]. split.
    { lia. }
    rewrite shr_m_of_loc, Z.sub_diag. by rewrite Z.div_1_r.
  - exists (@SpecFloat.iter_pos shr_record shr_1 n (shr_record_of_loc m l)), (e + Z.pos n).
    split; [done|]. split.
    { lia. }
    rewrite iter_shr_m by (rewrite shr_m_of_loc; lia).
    rewrite shr_m_of_loc. f_equal. f_equal. lia.
  - exists (shr_record_of_loc m l), e. split; [done|]. split.
    { lia. }
    rewrite shr_m_of_loc, Z.sub_diag. by rewrite Z.div_1_r.
Qed.

Lemma round_nearest_even_bounds m l :
  m <= round_nearest_even m l <= m + 1.
Proof. destruct l as [|[]]; simpl; try lia. destruct (Z.even m); lia. Qed.

(** Division by a power of two keeps a number below a power of two below
    the quotient of the powers. *)
Lemma div_pow_lt m a k :
  0 <= m < 2 ^ a -> 0 <= k -> 0 < m / 2 ^ k -> m / 2 ^ k < 2 ^ (a - k).
Proof.
  intros [Hm Hlt] Hk Hpos.
  assert (Hpk : 0 < 2 ^ k) by (apply Z.pow_pos_nonneg; lia).
  destruct (Z.le_gt_cases k a) as [Hka|Hka].
  - apply Z.div_lt_upper_bound; [done|].
    rewrite <- Z.pow_add_r by lia. by replace (k + (a - k)) with a by lia.
  - assert (2 ^ a <= 2 ^ k) by (apply Z.pow_le_mono_r; lia).
    rewrite Z.div_small in Hpos by lia. lia.
Qed.

(** Rounding a mantissa whose value lies below [2 ^ B] and whose exponent
    is in range gives a zero or a finite float, whose value lies below
    twice that bound (or is the least positive float). *)
Lemma binary_round_aux_bounded s mx ex lx B :
  0 <= mx < 2 ^ (B - ex) -> ex <= B -> ex <= 971 -> B <= 1023 ->
  match binary_round_aux PyFloat.prec PyFloat.emax s mx ex lx with
  | S754_zero s' => s' = s
  | S754_finite s' m e => s' = s ∧ Zpos m < 2 ^ (Z.max (B + 1) (-1073) - e)
  | _ => False
  end.
Proof.
  intros [Hmx Hlt] HexB Hex HB. unfold binary_round_aux.
  destruct (shr_fexp_spec mx ex lx Hmx) as (mrs1 & e1 & -> & He1 & Hm1).
  rewrite fexp_eq in He1.
  assert (Hd : Zdigits2 mx <= B - ex) by (apply Zdigits2_le; lia).
  pose proof (Zdigits2_nonneg mx) as Hd0.
  set (Bout := Z.max (B + 1) (-1073)).
  assert (Hp1 : 0 < 2 ^ (e1 - ex)) by (apply Z.pow_pos_nonneg; lia).
  assert (Hm1' : 0 <= shr_m mrs1) by (rewrite Hm1; apply Z.div_pos; lia).
  pose proof (round_nearest_even_bounds (shr_m mrs1) (loc_of_shr_record mrs1)) as Hr.
  set (mx1 := round_nearest_even (shr_m mrs1) (loc_of_shr_record mrs1)) in *.
  assert (Hmx1 : 0 <= mx1) by lia.
  assert (Hb1 : mx1 < 2 ^ (Bout - e1) ∧ 1 <= Bout - e1).
  { split; [|lia].
    destruct (Z.le_gt_cases e1 B) as [Hle|Hgt].
    - assert (shr_m mrs1 < 2 ^ (B - e1)).
      { rewrite Hm1. apply Z.div_lt_upper_bound; [done|].
        rewrite <- Z.pow_add_r by lia.
        by replace (e1 - ex + (B - e1)) with (B - ex) by lia. }
      assert (2 ^ (B - e1) < 2 ^ (Bout - e1)).
      { apply Z.pow_lt_mono_r; lia. }
      lia.
    - assert (shr_m mrs1 = 0).
      { rewrite Hm1. apply Z.div_small. split; [done|].
        assert (2 ^ (B - ex) <= 2 ^ (e1 - ex)) by (apply Z.pow_le_mono_r; lia).
        lia. }
      assert (2 ^ 1 <= 2 ^ (Bout - e1)) by (apply Z.pow_le_mono_r; lia).
      change (2 ^ 1) with 2 in *. lia. }
  destruct Hb1 as [Hb1 Hb1'].
  destruct (shr_fexp_spec mx1 e1 loc_Exact Hmx1) as (mrs2 & e2 & -> & He2 & Hm2).
  rewrite fexp_eq in He2.
  assert (Hd1 : Zdigits2 mx1 <= Bout - e1) by (apply Zdigits2_le; lia).
  pose proof (Zdigits2_nonneg mx1) as Hd10.
  assert (He2' : e2 <= 971) by lia.
  assert (Hp2 : 0 < 2 ^ (e2 - e1)) by (apply Z.pow_pos_nonneg; lia).
  destruct (shr_m mrs2) as [|m|m] eqn:Hm.
  - done.
  - replace (e2 <=? PyFloat.emax - PyFloat.prec) with true
      by (symmetry; apply Z.leb_le; unfold PyFloat.emax, PyFloat.prec; lia).
    split; [done|].
    replace (Bout - e2) with (Bout - e1 - (e2 - e1)) by lia.
    rewrite Hm2. apply div_pow_lt; [lia | lia |]. rewrite <- Hm2. lia.
  - assert (0 <= mx1 / 2 ^ (e2 - e1)) by (apply Z.div_pos; lia). lia.
Qed.

(** The quotient and exponent the division hands to the rounding. *)
Lemma div_core_bounds (a b : positive) :
  ∃ mz ez lz,
    SFdiv_core_binary PyFloat.prec PyFloat.emax (Zpos a) 0 (Zpos b) 0 = (mz, ez, lz)
    ∧ ez <= 0 ∧ 0 <= mz < 2 ^ (Zpos (digits2_pos a) - ez).
Proof.
  unfold SFdiv_core_binary.
  set (e' := Z.min _ (0 - 0)).
  assert (He : e' <= 0) by (unfold e'; lia).
  set (m' := match 0 - 0 - e' with
             | 0 => Z.pos a
             | Z.pos _ => Z.shiftl (Z.pos a) (0 - 0 - e')
             | Z.neg _ => 0
             end).
  assert (Hm' : m' = Z.pos a * 2 ^ (- e')).
  { unfold m'. destruct (0 - 0 - e') as [|s|s] eqn:Hs; try lia.
    - replace (- e') with 0 by lia. lia.
    - rewrite Z.shiftl_mul_pow2 by lia. f_equal. f_equal. lia. }
  assert (Hq : fst (Z.div_eucl m' (Z.pos b)) = m' / Z.pos b) by reflexivity.
  destruct (Z.div_eucl m' (Z.pos b)) as [q r]. simpl in Hq. subst q.
  eexists _, _, _. split; [reflexivity|]. split; [done|].
  assert (Hp : 0 < 2 ^ (- e')) by (apply Z.pow_pos_nonneg; lia).
  destruct (digits_bound a) as [_ Ha].
  assert (0 <= m') by (rewrite Hm'; lia).
  split; [apply Z.div_pos; lia|].
  apply Z.le_lt_trans with m'.
  - apply Z.div_le_upper_bound; [lia|]. nia.
  - rewrite Hm'. replace (Z.pos (digits2_pos a) - e') with (Z.pos (digits2_pos a) + - e') by lia.
    rewrite Z.pow_add_r by lia. nia.
Qed.

Lemma binary_round_aux_below s mx ex lx B :
  0 <= mx < 2 ^ (B - ex) -> ex <= B -> ex <= 971 -> -1074 <= B <= 1023 ->
  PyFloat.below (B + 1) (binary_round_aux PyFloat.prec PyFloat.emax s mx ex lx).
Proof.
  intros Hmx HexB Hex HB.
  pose proof (binary_round_aux_bounded s mx ex lx B Hmx HexB Hex (proj2 HB)) as H.
  destruct (binary_round_aux _ _ s mx ex lx); simpl; try done.
  destruct H as [_ H]. by replace (Z.max (B + 1) (-1073)) with (B + 1) in H by lia.
Qed.

(** [a / b] returns for a numerator below [2 ^ 1000] and a positive
    denominator. *)
Lemma truediv_returns (a b : Z) :
  0 <= a < 2 ^ 1000 -> 1 <= b -> ∃ q, PyFloat.truediv a b = Ok q ∧ PyFloat.below 1001 q.
Proof.
  intros [Ha Hlt] Hb. unfold PyFloat.truediv.
  destruct b as [|b|b]; try lia. destruct a as [|a|a]; try lia.
  { by eexists. }
  cbn [SFdiv].
  change (Z.to_pos (Z.abs (Z.pos a))) with a.
  change (Z.to_pos (Z.abs (Z.pos b))) with b.
  destruct (div_core_bounds a b) as (mz & ez & lz & -> & Hez & Hmz).
  assert (Hd : Z.pos (digits2_pos a) <= 1000).
  { apply (Zdigits2_le (Z.pos a) 1000); lia. }
  pose proof (binary_round_aux_below (xorb (Z.pos a <? 0) (Z.pos b <? 0)) mz ez lz
                (Z.pos (digits2_pos a)) Hmz) as H.
  destruct (binary_round_aux _ _ _ mz ez lz) as [s|s| |s m e] eqn:Hr;
    simpl in H; try (exfalso; apply H; lia).
  - by eexists.
  - eexists. split; [done|]. simpl.
    assert (Hm : Z.pos m < 2 ^ (Z.pos (digits2_pos a) + 1 - e)) by (apply H; lia).
    assert (2 ^ (Z.pos (digits2_pos a) + 1 - e) <= 2 ^ (1001 - e))
      by (apply Z.pow_le_mono_r; lia).
    lia.
Qed.

(** [x * 100] is a zero or finite for such a quotient. *)
Lemma mul_100_below q :
  PyFloat.below 1001 q -> PyFloat.below 1009 (PyFloat.mul q (PyFloat.of_int 100)).
Proof.
  change (PyFloat.of_int 100) with (S754_finite false 7036874417766400 (-46)).
  destruct q as [s|s| |s m e]; simpl; try done. intros Hm.
  assert (He : e <= 1000).
  { destruct (Z.le_gt_cases e 1000) as [?|Hgt]; [done|].
    assert (2 ^ (1001 - e) <= 2 ^ 0) by (apply Z.pow_le_mono_r; lia).
    change (2 ^ 0) with 1 in *. lia. }
  apply (binary_round_aux_below _ _ _ _ 1008); try lia.
  rewrite Pos2Z.inj_mul. split; [lia|].
  replace (1008 - (e + -46)) with (1001 - e + 53) by lia.
  rewrite Z.pow_add_r by lia.
  assert (7036874417766400 < 2 ^ 53) by (by vm_compute).
  assert (0 < 2 ^ (1001 - e)) by (apply Z.pow_pos_nonneg; lia).
  nia.
Qed.

Lemma round_below B x : PyFloat.below B x -> ∃ v, PyFloat.round x = Ok v.
Proof. destruct x; simpl; try done; intros _; by eexists. Qed.

(** [round(a / b * 100)] returns an integer for a numerator below
    [2 ^ 1000] and a positive denominator. *)
Lemma round_pct_returns (a b : Z) :
  0 <= a < 2 ^ 1000 -> 1 <= b -> ∃ p, PyFloat.round_pct a b = Ok p.
Proof.
  intros Ha Hb. unfold PyFloat.round_pct.
  destruct (truediv_returns a b Ha Hb) as (q & -> & Hq). simpl.
  eapply round_below. by apply mul_100_below.
Qed.

End FloatFacts.

(** ** The utilization scorer and the reassignment engine *)

Module ReassignFacts.

Import ListFacts FloatFacts.

Local Open Scope Z_scope.

Lemma utilization_entry_ok avail day tasks emp e :
  utilization_entry avail day tasks emp = Ok e → entry_for avail tasks emp e.
Proof.
  unfold utilization_entry.
  destruct (PyFloat.round_pct _ _) as [pct|x] eqn:Hp; simpl; [|done].
  intros [= <-]. split; simpl; try done. by exists pct.
Qed.

Lemma get_utilization_ok events employees tasks q u :
  get_utilization events employees tasks q = Ok u →
  ∃ results,
    u = PyList.sort_by PyList.leb3 utilization_key results
    ∧ Forall2 (entry_for (available_ids_of events employees q) tasks) employees results.
Proof.
  unfold get_utilization. fold (available_ids_of events employees q).
  destruct (mapM _ employees) as [results|x] eqn:Hm; simpl; [|done].
  intros [= <-]. exists results. split; [done|].
  apply mapM_ok in Hm. eapply Forall2_impl; [exact Hm|].
  intros emp e. apply utilization_entry_ok.
Qed.

(** Every element of the utilization list is the entry of a roster member. *)
Lemma get_utilization_elem events employees tasks q u e :
  get_utilization events employees tasks q = Ok u → e ∈ u →
  ∃ emp, emp ∈ employees
         ∧ entry_for (available_ids_of events employees q) tasks emp e.
Proof.
  intros (results & -> & HF)%get_utilization_ok He.
  rewrite sort_by_perm in He.
  apply list_elem_of_lookup in He as [i Hi].
  destruct (Forall2_lookup_r _ _ _ _ _ HF Hi) as (emp & Hemp & Hent).
  exists emp. split; [by eapply list_elem_of_lookup_2 | done].
Qed.

Lemma suggest_reassignments_ok events employees tasks q top_n r :
  suggest_reassignments events employees tasks q top_n = Ok r →
  ∃ u sl,
    get_utilization events employees tasks q = Ok u
    ∧ mapM (suggestion_of (date_isoformat (date_of q)) (util_map_of u)
              (unavailable_ids_of u) (available_pool_of u) top_n)
        (filter (fun t => is_active t = true) tasks) = Ok sl
    ∧ suggestions r = PyList.sort_by PyList.leb2 suggestion_key sl.
Proof.
  unfold suggest_reassignments.
  destruct (get_utilization events employees tasks q) as [u|x]; simpl; [|done].
  fold (unavailable_ids_of u). fold (available_pool_of u).
  destruct (mapM _ _) as [sl|x] eqn:Hm; simpl; [|done].
  intros [= <-]. by exists u, sl.
Qed.

Lemma candidate_of_ok task aid emp oc :
  candidate_of task aid emp = Ok oc →
  match oc with
  | None => PyStr.of_int (id (u_emp emp)) = aid
  | Some c => PyStr.of_int (id (u_emp emp)) ≠ aid ∧ candidate_for task emp c
  end.
Proof.
  unfold candidate_of.
  destruct (String.eqb_spec (PyStr.of_int (id (u_emp emp))) aid) as [Heq|Hne].
  - by intros [= <-].
  - destruct (PyFloat.round_pct _ _) as [pct|x]; simpl; [|done].
    intros [= <-]. split; [done|]. by split.
Qed.

(** The candidates of a task: one for each pool member that is not the
    assignee, in the order of the pool. *)
Lemma candidates_of_pool task aid pool found :
  mapM (candidate_of task aid) pool = Ok found →
  Forall2 (candidate_for task)
    (filter (fun e => PyStr.of_int (id (u_emp e)) ≠ aid) pool)
    (omap (fun c => c) found).
Proof.
  intros H%mapM_ok. induction H as [|emp oc pool found Hc H IH]; [constructor|].
  apply candidate_of_ok in Hc. rewrite filter_cons. destruct oc as [c|]; simpl.
  - destruct Hc as [Hne Hc]. rewrite decide_True by done. by constructor.
  - rewrite decide_False; [done | by intros ?].
Qed.

(** The two outcomes of the loop body over the active tasks. *)
Lemma suggestion_of_ok ts um unav pool top_n task s :
  suggestion_of ts um unav pool top_n task = Ok s →
  s_task s = _serialize_task task
  ∧ (((assignee_str task ∉ unav) ∧ needs_reassignment s = false
      ∧ recommendations s = [])
     ∨ (assignee_str task ∈ unav ∧ needs_reassignment s = true
        ∧ ∃ cands,
            Forall2 (candidate_for task)
              (filter (fun e => PyStr.of_int (id (u_emp e)) ≠ assignee_str task) pool)
              cands
            ∧ recommendations s
              = PyList.slice_to (PyList.sort_by PyList.leb2 candidate_key cands) top_n)).
Proof.
  unfold suggestion_of. case_bool_decide as Hin; simpl.
  2:{ intros [= <-]. split; [done|]. by left. }
  destruct (mapM _ pool) as [found|x] eqn:Hm; simpl; [|done].
  intros [= <-]. split; [done|]. right. split_and!; try done.
  exists (omap (fun c => c) found). split; [|done].
  by apply candidates_of_pool.
Qed.

Lemma serialize_task_assignee task :
  assignee_str (_serialize_task task) = assignee_str task.
Proof. done. Qed.

Lemma serialize_task_required task :
  required_set (_serialize_task task) = required_set task.
Proof. unfold required_set. simpl. by destruct (t_required_skills task). Qed.

Lemma suggestion_elem events employees tasks q top_n r s :
  suggest_reassignments events employees tasks q top_n = Ok r →
  s ∈ suggestions r →
  ∃ u task,
    get_utilization events employees tasks q = Ok u
    ∧ task ∈ tasks ∧ is_active task = true
    ∧ suggestion_of (date_isoformat (date_of q)) (util_map_of u)
        (unavailable_ids_of u) (available_pool_of u) top_n task = Ok s.
Proof.
  intros (u & sl & Hu & Hm & Hs)%suggest_reassignments_ok Hin.
  rewrite Hs, sort_by_perm in Hin.
  destruct (mapM_ok_elem _ _ _ _ Hm Hin) as (task & Ht & Hok).
  apply list_elem_of_filter in Ht as [? ?]. by exists u, task.
Qed.

(** The two functions return when the lists are of a size a machine can
    hold: the quotients of [round_pct] then stay in the range of binary64. *)
Lemma utilization_entry_returns avail day tasks emp :
  Z.of_nat (length tasks) < 2 ^ 1000 →
  ∃ e, utilization_entry avail day tasks emp = Ok e.
Proof.
  intros Hlen. unfold utilization_entry.
  match goal with
  | |- context [PyFloat.round_pct ?a ?b] =>
      destruct (round_pct_returns a b) as [pct ->]
  end.
  - pose proof (length_filter
      (fun t => String.eqb (assignee_str t) (PyStr.of_int (id emp)) && is_active t = true)
      tasks). lia.
  - lia.
  - by eexists.
Qed.

Lemma get_utilization_returns events employees tasks q :
  Z.of_nat (length tasks) < 2 ^ 1000 →
  ∃ u, get_utilization events employees tasks q = Ok u.
Proof.
  intros Hlen. unfold get_utilization.
  match goal with
  | |- context [mapM ?f employees] => destruct (mapM_returns f employees) as [rs ->]
  end.
  - intros emp _. by apply utilization_entry_returns.
  - by eexists.
Qed.

Lemma size_list_to_set_le (l : list string) :
  (size (list_to_set l : gset string) <= length l)%nat.
Proof.
  induction l as [|x l IH]; cbn [list_to_set length].
  - by rewrite size_empty.
  - rewrite size_union_alt, size_singleton.
    pose proof (subseteq_size (list_to_set l ∖ {[x]}) (list_to_set l : gset string)) as H.
    assert (list_to_set l ∖ {[x]} ⊆ (list_to_set l : gset string)) as Hsub
      by (intros y Hy; by apply elem_of_difference in Hy as [? _]).
    specialize (H Hsub). lia.
Qed.

Lemma candidate_of_returns task aid emp :
  Z.of_nat (length (default [] (t_required_skills task))) < 2 ^ 1000 →
  ∃ oc, candidate_of task aid emp = Ok oc.
Proof.
  intros Hlen. unfold candidate_of. destruct (String.eqb _ aid); [by eexists|].
  match goal with
  | |- context [PyFloat.round_pct ?a ?b] =>
      destruct (round_pct_returns a b) as [pct ->]
  end.
  - pose proof (size_list_to_set_le (default [] (t_required_skills task))) as H1.
    pose proof (subseteq_size (required_set task ∩ skill_set (u_emp emp)) (required_set task)) as H2.
    assert (required_set task ∩ skill_set (u_emp emp) ⊆ required_set task) as Hsub
      by (intros y Hy; by apply elem_of_intersection in Hy as [? _]).
    specialize (H2 Hsub). unfold required_set in *. lia.
  - lia.
  - by eexists.
Qed.

Lemma suggest_reassignments_returns events employees tasks q top_n :
  Z.of_nat (length tasks) < 2 ^ 1000 →
  (∀ t, t ∈ tasks → Z.of_nat (length (default [] (t_required_skills t))) < 2 ^ 1000) →
  ∃ r, suggest_reassignments events employees tasks q top_n = Ok r.
Proof.
  intros Hlen Hskills. unfold suggest_reassignments.
  destruct (get_utilization_returns events employees tasks q Hlen) as [u ->]. simpl.
  match goal with
  | |- context [mapM ?f ?l] => destruct (mapM_returns f l) as [sl ->]
  end.
  - intros t [_ Ht]%list_elem_of_filter. unfold suggestion_of.
    destruct (negb _); [by eexists|].
    match goal with
    | |- context [mapM ?f ?l] => destruct (mapM_returns f l) as [found ->]
    end.
    + intros emp _. apply candidate_of_returns. by apply Hskills.
    + by eexists.
  - by eexists.
Qed.

End ReassignFacts.

Section ReassignClaims.

Import ListFacts FloatFacts ReassignFacts AvailabilityFacts.

Local Open Scope Z_scope.

(** C4: for every element of the list [get_utilization] returns,
    [utilization_pct] is [min(100, round(active_task_count /
    max(max_tasks_per_day, 1) * 100))] in binary64 and lies between 0 and
    100, and [free_capacity] is [max(0, max_tasks_per_day -
    active_task_count)] and is not negative; [active_task_count] counts the
    active tasks assigned to the member. The function returns its list for
    every task list of fewer than [2 ^ 1000] tasks, however many of them one
    member owns. *)
Theorem utilization_is_clamped events employees tasks q :
  (Z.of_nat (length tasks) < 2 ^ 1000 →
   ∃ u, get_utilization events employees tasks q = Ok u)
  ∧ ∀ u, get_utilization events employees tasks q = Ok u →
    ∀ e, e ∈ u →
      let max_tasks := default 4 (max_tasks_per_day (u_emp e)) in
      u_emp e ∈ employees
      ∧ active_task_count e = Z.of_nat (length (active_tasks_of tasks (u_emp e)))
      ∧ (∃ pct, PyFloat.round_pct (active_task_count e) (Z.max max_tasks 1) = Ok pct
                ∧ utilization_pct e = Z.min 100 pct)
      ∧ 0 <= utilization_pct e <= 100
      ∧ free_capacity e = Z.max 0 (max_tasks - active_task_count e)
      ∧ 0 <= free_capacity e.
Proof.
  split; [apply get_utilization_returns|].
  intros u Hu e He max_tasks.
  destruct (get_utilization_elem _ _ _ _ _ _ Hu He) as (emp & Hemp & Hent).
  destruct Hent as [<- _ _ Hcount (pct & Hpct & Hutil) Hfree].
  fold max_tasks in Hpct, Hfree.
  assert (0 <= pct) by (apply round_pct_nonneg in Hpct; lia).
  split_and!; try done; try lia.
  by exists pct.
Qed.

Lemma candidate_pool_filter u task :
  filter (fun e => PyStr.of_int (id (u_emp e)) ≠ assignee_str task) (available_pool_of u)
  = candidate_pool u task.
Proof.
  unfold available_pool_of, candidate_pool. rewrite list_filter_filter.
  apply list_filter_iff. intros e.
  rewrite andb_true_iff, Z.ltb_lt. tauto.
Qed.

Lemma sorted_weaken {A : Type} (R S : A → A → Prop) (l : list A) :
  (∀ x y, R x y → S x y) → StronglySorted R l → StronglySorted S l.
Proof.
  intros HRS. induction 1 as [|x l Hs IH Hx]; constructor; [done|].
  eapply Forall_impl; [exact Hx | auto].
Qed.

Lemma candidate_key_le c1 c2 :
  PyList.key_le PyList.leb2 candidate_key c1 c2 ↔ ranks_before c1 c2.
Proof.
  unfold PyList.key_le, ranks_before, candidate_key. rewrite leb2_spec. simpl. lia.
Qed.

(** The recommendations of a suggestion: none, or a prefix of the ranking
    of the candidates of its task. *)
Lemma recommendations_of events employees tasks q top_n r s :
  suggest_reassignments events employees tasks q top_n = Ok r →
  s ∈ suggestions r →
  (needs_reassignment s = false ∧ recommendations s = [])
  ∨ (needs_reassignment s = true
     ∧ ∃ u task cands,
         get_utilization events employees tasks q = Ok u
         ∧ task ∈ tasks ∧ s_task s = _serialize_task task
         ∧ Forall2 (candidate_for task) (candidate_pool u task) cands
         ∧ recommendations s
           = PyList.slice_to (PyList.sort_by PyList.leb2 candidate_key cands) top_n).
Proof.
  intros Hr Hs.
  destruct (suggestion_elem _ _ _ _ _ _ _ Hr Hs) as (u & task & Hu & Ht & _ & Hok).
  apply suggestion_of_ok in Hok as [Htask [(_ & Hn & Hrec)|(_ & Hn & cands & HF & Hrec)]].
  - by left.
  - right. split; [done|]. rewrite candidate_pool_filter in HF.
    by exists u, task, cands.
Qed.

(** C7: a recommended candidate is never the current assignee of the task
    and never has [free_capacity = 0]: it is the entry of a roster member
    whose id is among the ids of the available list of the availability
    query and whose free capacity is positive. When the ids of the roster
    are distinct, the member itself is in that available list. *)
Theorem recommendations_exclude_assignee_and_full
    events employees tasks q top_n r :
  suggest_reassignments events employees tasks q top_n = Ok r →
  ∀ s c, s ∈ suggestions r → c ∈ recommendations s →
    Some (se_id (c_emp c)) ≠ t_assigned_to_id (s_task s)
    ∧ 0 < se_free_capacity (c_emp c)
    ∧ se_is_available (c_emp c) = true
    ∧ ∃ emp,
        emp ∈ employees
        ∧ se_id (c_emp c) = id emp ∧ se_email (c_emp c) = email emp
        ∧ (∃ a, a ∈ available (get_available_employees events employees q)
                ∧ id (ae_emp a) = id emp)
        ∧ (NoDup (map id employees) →
           emp ∈ map ae_emp (available (get_available_employees events employees q))).
Proof.
  intros Hr s c Hs Hc.
  destruct (recommendations_of _ _ _ _ _ _ _ Hr Hs)
    as [[_ Hnil]|(_ & u & task & cands & Hu & Ht & Htask & HF & Hrec)].
  { rewrite Hnil in Hc. by apply elem_of_nil in Hc. }
  rewrite Hrec in Hc. apply slice_to_subseteq in Hc. rewrite sort_by_perm in Hc.
  apply list_elem_of_lookup in Hc as [i Hi].
  destruct (Forall2_lookup_r _ _ _ _ _ HF Hi) as (e & He & [Hemp _ _]).
  apply list_elem_of_lookup_2, list_elem_of_filter in He as [(Hav & Hfree & Hne) He].
  destruct (get_utilization_elem _ _ _ _ _ _ Hu He) as (emp & Hin & Hent).
  destruct Hent as [Hue Havail _ _ _ _].
  rewrite Hemp, Htask. simpl. rewrite Hue in *.
  assert (Hids : ∃ a, a ∈ available (get_available_employees events employees q)
                      ∧ id (ae_emp a) = id emp).
  { rewrite Hav in Havail. symmetry in Havail.
    apply bool_decide_eq_true in Havail. unfold available_ids_of in Havail.
    apply elem_of_list_to_set, list_elem_of_fmap in Havail as (a & Ha & Hina).
    exists a. split; [done|]. symmetry. by apply of_int_inj. }
  split_and!; try done.
  - intros Heq. apply Hne. unfold assignee_str. by rewrite <- Heq.
  - exists emp. split_and!; try done.
    intros Hnodup. destruct Hids as (a & Hina & Hid).
    assert (Hroster : ae_emp a ∈ employees).
    { destruct (get_available_employees_filter events employees q) as [Ha _].
      rewrite Ha in Hina. apply list_elem_of_fmap in Hina as (x & -> & Hx).
      by apply list_elem_of_filter in Hx as [_ ?]. }
    assert (ae_emp a = emp) as <-.
    { apply list_elem_of_lookup in Hroster as [j Hj].
      apply list_elem_of_lookup in Hin as [k Hk].
      assert (j = k) as ->.
      { eapply NoDup_lookup; [exact Hnodup | |];
          rewrite list_lookup_fmap; [rewrite Hj | rewrite Hk]; simpl; by f_equal. }
      congruence. }
    apply list_elem_of_fmap. by exists a.
Qed.

(** C3: for a task whose assignee is unavailable, the recommendations are
    the first [top_n] elements of the ranking of the candidates of the
    task: one candidate for each member of the pool, sorted by score
    descending and by free capacity descending among equal scores. The
    score of a candidate is [skill_match_count * 15 - utilization_pct -
    calendar_event_count * 3], where [skill_match_count] is the size of the
    intersection of the required skills of the task with the skills of the
    candidate. The function returns its report whenever the task list and
    the skill lists of the tasks have fewer than [2 ^ 1000] elements. *)
Theorem recommendations_are_ranked events employees tasks q top_n :
  (Z.of_nat (length tasks) < 2 ^ 1000 →
   (∀ t, t ∈ tasks →
         Z.of_nat (length (default [] (t_required_skills t))) < 2 ^ 1000) →
   ∃ r, suggest_reassignments events employees tasks q top_n = Ok r)
  ∧ ∀ r, suggest_reassignments events employees tasks q top_n = Ok r →
  0 <= top_n →
  ∃ u, get_utilization events employees tasks q = Ok u
  ∧ ∀ s, s ∈ suggestions r → needs_reassignment s = true →
    ∃ ranked,
      recommendations s = take (Z.to_nat top_n) ranked
      ∧ map c_emp ranked ≡ₚ map _serialize_emp (candidate_pool u (s_task s))
      ∧ StronglySorted ranks_before ranked
      ∧ ∀ c, c ∈ ranked →
          skill_match_count c
          = Z.of_nat (size (required_set (s_task s) ∩ list_to_set (se_skills (c_emp c))))
          ∧ score c = skill_match_count c * 15 - se_utilization_pct (c_emp c)
                      - se_calendar_event_count (c_emp c) * 3.
Proof.
  split; [apply suggest_reassignments_returns|].
  intros r Hr Hn.
  destruct (suggest_reassignments_ok _ _ _ _ _ _ Hr) as (u & _ & Hu & _).
  exists u. split; [done|]. intros s Hs Hneeds.
  destruct (recommendations_of _ _ _ _ _ _ _ Hr Hs)
    as [[Hno _]|(_ & u' & task & cands & Hu' & Ht & Htask & HF & Hrec)];
    [congruence|].
  assert (u' = u) as -> by congruence.
  exists (PyList.sort_by PyList.leb2 candidate_key cands).
  assert (Hpool : candidate_pool u (s_task s) = candidate_pool u task).
  { unfold candidate_pool. by rewrite Htask. }
  split_and!.
  - rewrite Hrec. by apply slice_to_nonneg.
  - rewrite sort_by_perm, Hpool.
    clear -HF. induction HF as [|e c pool cands [Hc _ _] HF IH]; [done|].
    simpl. by rewrite Hc, IH.
  - eapply sorted_weaken;
      [|apply (sort_by_sorted PyList.leb2 candidate_key leb2_total leb2_trans)].
    intros c1 c2. apply candidate_key_le.
  - intros c Hc. rewrite sort_by_perm in Hc.
    apply list_elem_of_lookup in Hc as [i Hi].
    destruct (Forall2_lookup_r _ _ _ _ _ HF Hi) as (e & _ & [Hemp Hmatch Hscore]).
    rewrite Htask, serialize_task_required, Hemp. simpl.
    fold (skill_set (u_emp e)). split; [done|].
    rewrite Hscore, Hmatch. reflexivity.
Qed.

End ReassignClaims.

(** C7 fails as stated on a roster with a shared id: Ann, whom the
    availability query lists as unavailable and not as available, is
    recommended for T1, because Ben, who has her id, is available. *)
Lemma unavailable_member_with_shared_id_is_recommended :
  ∃ r s c,
    suggest_reassignments SharedId.events SharedId.roster SharedId.task_list
      SharedId.day 3 = Ok r
    ∧ suggestions r = [s]
    ∧ t_id (s_task s) = "T1"
    ∧ c ∈ recommendations s
    ∧ se_id (c_emp c) = id SharedId.ann
    ∧ se_email (c_emp c) = email SharedId.ann
    ∧ se_first_name (c_emp c) = first_name SharedId.ann
    ∧ map ae_emp (available (get_available_employees SharedId.events SharedId.roster
                               SharedId.day))
      = [SharedId.ben]
    ∧ map ae_emp (unavailable (get_available_employees SharedId.events SharedId.roster
                                 SharedId.day))
      = [SharedId.ann; SharedId.cy].
Proof.
  do 3 eexists.
  split; [vm_compute; reflexivity|].
  split; [reflexivity|]. split; [reflexivity|].
  split; [right; left|].
  by split_and!.
Qed.

(** ** The commit *)

Module CommitFacts.

Local Open Scope Z_scope.

Lemma find_task_none task_id ts :
  find (fun t => String.eqb (t_id t) task_id) ts = None ↔ task_id ∉ map t_id ts.
Proof.
  induction ts as [|t ts IH]; simpl.
  - split; [intros _ ?%elem_of_nil; done | done].
  - rewrite not_elem_of_cons. destruct (String.eqb_spec (t_id t) task_id) as [->|Hne].
    + split; [done | intros [? _]; done].
    + rewrite IH. split; [intros ?; split; [congruence | done] | intros [_ ?]; done].
Qed.

Lemma find_employee_none i es :
  find (fun e => id e =? i) es = None ↔ i ∉ map id es.
Proof.
  induction es as [|e es IH]; simpl.
  - split; [intros _ ?%elem_of_nil; done | done].
  - rewrite not_elem_of_cons. destruct (Z.eqb_spec (id e) i) as [->|Hne].
    + split; [done | intros [? _]; done].
    + rewrite IH. split; [intros ?; split; [congruence | done] | intros [_ ?]; done].
Qed.

(** The first task with the id is the one that is stamped; every other task
    stays as it is. *)
Lemma update_first task_id f ts task :
  find (fun t => String.eqb (t_id t) task_id) ts = Some task →
  ∃ pre post,
    ts = pre ++ task :: post ∧ t_id task = task_id
    ∧ (task_id ∉ map t_id pre)
    ∧ update_task task_id f ts = pre ++ f task :: post.
Proof.
  induction ts as [|t ts IH]; simpl; [done|].
  destruct (String.eqb_spec (t_id t) task_id) as [Heq|Hne].
  - intros [= ->]. exists [], ts. split_and!; try done. by intros ?%elem_of_nil.
  - intros H. destruct (IH H) as (pre & post & -> & Hid & Hpre & Hup).
    exists (t :: pre), post. simpl. split_and!; try done.
    + rewrite not_elem_of_cons. split; [congruence | done].
    + by rewrite Hup.
Qed.

End CommitFacts.

Section CommitClaims.

Import CommitFacts.

Context {File : Type} (load : File -> Store) (dump : Store -> File).

Local Open Scope Z_scope.

(** C5: when the task id or the id of the new assignee is not in the
    store, [execute_reassignment] raises its not-found error ([ValueError])
    and the file is what it was. Otherwise it returns an audit record and
    the file holds the store in which the first task with the id is
    replaced by a task with [assigned_to_id] set to the new assignee,
    [reassignment_reason] set to the reason and [last_reassigned] set to
    the time of the first clock reading, its other members being what they
    were; nothing else differs. *)
Theorem execute_reassignment_rejects_before_writing
    task_id new_assignee_id reason now1 now2 file :
  let db := load file in
  let run := execute_reassignment load dump task_id new_assignee_id reason now1 now2 file in
  (task_id ∉ map t_id (tasks db) ∨ new_assignee_id ∉ map id (employees db) →
   run = (Raise ValueError, file))
  ∧ (task_id ∈ map t_id (tasks db) → new_assignee_id ∈ map id (employees db) →
     ∃ audit pre task post new_emp task',
       tasks db = pre ++ task :: post
       ∧ t_id task = task_id ∧ (task_id ∉ map t_id pre)
       ∧ find (fun e => id e =? new_assignee_id) (employees db) = Some new_emp
       ∧ run = (Ok audit,
                dump (mk_Store (pre ++ task' :: post) (employees db)))
       ∧ t_assigned_to_id task' = Some new_assignee_id
       ∧ t_reassignment_reason task' = Some reason
       ∧ t_last_reassigned task' = Some (isoformat now1)
       ∧ t_id task' = t_id task
       ∧ t_title task' = t_title task
       ∧ t_description task' = t_description task
       ∧ t_status task' = t_status task
       ∧ t_priority task' = t_priority task
       ∧ t_required_skills task' = t_required_skills task
       ∧ t_effort_hours task' = t_effort_hours task
       ∧ t_due_date task' = t_due_date task
       ∧ a_task_id audit = task_id
       ∧ a_task_title audit = t_title task
       ∧ from_employee_id audit = t_assigned_to_id task
       ∧ from_employee_name audit
         = match find (fun e => bool_decide (Some (id e) = t_assigned_to_id task))
                   (employees db) with
           | Some old_emp => full_name old_emp
           | None => "Unknown"
           end
       ∧ to_employee_id audit = new_assignee_id
       ∧ to_employee_name audit = full_name new_emp
       ∧ a_reason audit = reason
       ∧ executed_at audit = isoformat now2).
Proof.
  intros db run. unfold run, execute_reassignment. fold db. split.
  - intros [Ht|He].
    + apply find_task_none in Ht. by rewrite Ht.
    + apply find_employee_none in He.
      destruct (find _ (tasks db)); by rewrite ?He.
  - intros Ht He.
    destruct (find _ (tasks db)) as [task|] eqn:Hft.
    2:{ apply find_task_none in Hft. done. }
    destruct (find _ (employees db)) as [new_emp|] eqn:Hfe.
    2:{ apply find_employee_none in Hfe. done. }
    destruct (update_first task_id (stamped new_assignee_id reason now1) _ _ Hft)
      as (pre & post & Hts & Hid & Hpre & Hup).
    exists (mk_Audit task_id (t_title task) (t_assigned_to_id task)
              (match find (fun e => bool_decide (Some (id e) = t_assigned_to_id task))
                       (employees db) with
               | Some e => full_name e
               | None => "Unknown"
               end)
              new_assignee_id (full_name new_emp) reason (isoformat now2)),
      pre, task, post, new_emp, (stamped new_assignee_id reason now1 task).
    rewrite Hup. split_and!; done.
Qed.

End CommitClaims.


(** ** The claims on the scenario *)

Section Witnesses.

Import Scenario.

Local Open Scope Z_scope.

(** C4 on the scenario: Alice, with room for four tasks and two active
    ones, has [utilization_pct = 50] and [free_capacity = 2]. *)
Lemma utilization_is_clamped_witness :
  ∃ u e,
    get_utilization events roster task_list day = Ok u
    ∧ e ∈ u ∧ u_emp e = alice
    ∧ active_task_count e = 2 ∧ utilization_pct e = 50 ∧ free_capacity e = 2
    ∧ (u_emp e ∈ roster
       ∧ active_task_count e = Z.of_nat (length (active_tasks_of task_list (u_emp e)))
       ∧ (∃ pct, PyFloat.round_pct (active_task_count e)
                   (Z.max (default 4 (max_tasks_per_day (u_emp e))) 1) = Ok pct
                 ∧ utilization_pct e = Z.min 100 pct)
       ∧ 0 <= utilization_pct e <= 100
       ∧ free_capacity e
         = Z.max 0 (default 4 (max_tasks_per_day (u_emp e)) - active_task_count e)
       ∧ 0 <= free_capacity e).
Proof.
  do 2 eexists.
  split; [vm_compute; reflexivity|].
  split; [do 3 right; left|].
  split; [reflexivity|]. split; [reflexivity|]. split; [reflexivity|].
  split; [reflexivity|].
  apply (proj2 (utilization_is_clamped events roster task_list day) _ eq_refl).
  do 3 right. left.
Defined.

(** C3 on the scenario: for task T1, which needs payments and api, Bob has
    one matching skill, utilization 25 and one calendar event, and scores
    -13; Carol, who scores 30, ranks before him. *)
Lemma recommendations_are_ranked_witness :
  ∃ r s carol_c bob_c,
    suggest_reassignments events roster task_list day 3 = Ok r
    ∧ s ∈ suggestions r ∧ t_id (s_task s) = "T1"
    ∧ recommendations s = [carol_c; bob_c]
    ∧ se_id (c_emp carol_c) = 3 ∧ score carol_c = 30
    ∧ se_id (c_emp bob_c) = 2 ∧ skill_match_count bob_c = 1
    ∧ se_utilization_pct (c_emp bob_c) = 25
    ∧ se_calendar_event_count (c_emp bob_c) = 1
    ∧ score bob_c = -13 ∧ skill_gap bob_c = ["api"]
    ∧ 0 <= 3
    ∧ ∃ u, get_utilization events roster task_list day = Ok u
      ∧ ∀ s, s ∈ suggestions r → needs_reassignment s = true →
        ∃ ranked,
          recommendations s = take (Z.to_nat 3) ranked
          ∧ map c_emp ranked ≡ₚ map _serialize_emp (candidate_pool u (s_task s))
          ∧ StronglySorted ranks_before ranked
          ∧ ∀ c, c ∈ ranked →
              skill_match_count c
              = Z.of_nat (size (required_set (s_task s) ∩ list_to_set (se_skills (c_emp c))))
              ∧ score c = skill_match_count c * 15 - se_utilization_pct (c_emp c)
                          - se_calendar_event_count (c_emp c) * 3.
Proof.
  do 4 eexists.
  split; [vm_compute; reflexivity|].
  split; [right; left|].
  do 10 (split; [reflexivity|]).
  split; [lia|].
  apply (proj2 (recommendations_are_ranked events roster task_list day 3) _ eq_refl).
  lia.
Defined.

(** C7 on the scenario: Alice, the assignee of T1, and Dave, who has no
    free capacity, are not recommended for it. *)
Lemma recommendations_exclude_assignee_and_full_witness :
  ∃ r,
    suggest_reassignments events roster task_list day 3 = Ok r
    ∧ map (fun s => (t_id (s_task s), map (fun c => se_id (c_emp c)) (recommendations s)))
        (suggestions r)
      = [("T3", [3; 2]); ("T1", [3; 2]); ("T2", []); ("T4", [])]
    ∧ ∀ s c, s ∈ suggestions r → c ∈ recommendations s →
        Some (se_id (c_emp c)) ≠ t_assigned_to_id (s_task s)
        ∧ 0 < se_free_capacity (c_emp c)
        ∧ se_is_available (c_emp c) = true
        ∧ ∃ emp,
            emp ∈ roster
            ∧ se_id (c_emp c) = id emp ∧ se_email (c_emp c) = email emp
            ∧ (∃ a, a ∈ available (get_available_employees events roster day)
                    ∧ id (ae_emp a) = id emp)
            ∧ (NoDup (map id roster) →
               emp ∈ map ae_emp (available (get_available_employees events roster day))).
Proof.
  eexists.
  split; [vm_compute; reflexivity|].
  split; [reflexivity|].
  apply (recommendations_exclude_assignee_and_full events roster task_list day 3 _ eq_refl).
Defined.

(** C5 on the scenario, with the store itself as the file: an unknown task
    id and an unknown employee id leave the store as it is, and
    reassigning T1 to Carol writes the store in which T1 alone differs: it
    is assigned to 3, with the reason and the time. *)
Lemma execute_reassignment_rejects_before_writing_witness :
  execute_reassignment (fun f => f) (fun s => s) "T9" 3 "cover" day day store
  = (Raise ValueError, store)
  ∧ execute_reassignment (fun f => f) (fun s => s) "T1" 9 "cover" day day store
    = (Raise ValueError, store)
  ∧ ∃ audit,
      execute_reassignment (fun f => f) (fun s => s) "T1" 3 "cover" day day store
      = (Ok audit,
         mk_Store
           (mk_Task "T1" (Some "Task T1") None (Some "todo") (Some "high")
              (Some ["payments"; "api"]) None None
              (Some 3) (Some "2026-03-02T00:00:00+00:00") (Some "cover")
            :: tail task_list)
           roster)
      ∧ from_employee_id audit = Some 1
      ∧ from_employee_name audit = "Alice Ames"
      ∧ to_employee_id audit = 3
      ∧ to_employee_name audit = "Carol Cole".
Proof.
  split.
  { apply (execute_reassignment_rejects_before_writing
             (fun f : Store => f) (fun s : Store => s) "T9" 3 "cover" day day store).
    left. simpl. rewrite !not_elem_of_cons. split_and!; try done. apply not_elem_of_nil. }
  split.
  { apply (execute_reassignment_rejects_before_writing
             (fun f : Store => f) (fun s : Store => s) "T1" 9 "cover" day day store).
    right. simpl. rewrite !not_elem_of_cons. split_and!; try done. apply not_elem_of_nil. }
  eexists. split; [vm_compute; reflexivity|]. by split_and!.
Defined.

(** C10 on the scenario: Carol's all-day event of 2026-03-02 without an
    end is normalized with [end_utc = start_utc], overlaps no date, and
    changes neither query. *)
Lemma all_day_without_end_never_overlaps_witness :
  let source :=
    mk_GoogleEvent {["id" := "e3"]}
      (Some {["private" := {["employeeId" := "3"; "availabilityKind" := "oof"]}]})
      None (Some {["date" := "2026-03-02"]}) None in
  let ev :=
    mk_NormalizedEvent "e3" "google" "3" "" "" "oof"
      (mk_datetime 2026 3 2 0 0 0 0) (mk_datetime 2026 3 2 0 0 0 0) true in
  normalize_google_json (lib := documented_parsers) (Some [source]) = [ev]
  ∧ is_all_day ev = true ∧ end_utc ev = start_utc ev
  ∧ (∀ t, overlaps_spec ev t = false)
  ∧ get_events_for_date (events ++ [ev]) day = get_events_for_date events day
  ∧ get_available_employees (events ++ [ev]) roster day
    = get_available_employees events roster day.
Proof.
  intros source ev.
  destruct all_day_without_end_never_overlaps as [H _].
  destruct (H ev eq_refl eq_refl) as (Hnone & Hev & Hav).
  split; [vm_compute; reflexivity|].
  split; [reflexivity|]. split; [reflexivity|]. split; [exact Hnone|].
  split.
  - rewrite (Hev events [] day). by rewrite app_nil_r.
  - rewrite (Hav events [] roster day). by rewrite app_nil_r.
Defined.

(** C8 on a payload of four source events for each normalizer: the event
    without a start, the event whose start does not parse and the event
    whose end does not parse are left out, and the fourth event is
    returned. *)
Lemma unparsable_events_are_skipped_witness :
  let g (i : string) (start end_ : option sdict) :=
    mk_GoogleEvent {["id" := i; "summary" := "Standup"]} None None start end_ in
  let m (i : string) (start end_ : option sdict) :=
    mk_MicrosoftEvent {["id" := i; "subject" := "Review"]} None None None start end_ in
  let r (i : string) (cells : sdict) : sdict :=
    <["id" := i]> (<["summary" := "PTO"]> cells) in
  let nine : sdict := {["dateTime" := "2026-03-02T09:00:00+00:00"]} in
  let ten : sdict := {["dateTime" := "2026-03-02T10:00:00+00:00"]} in
  normalize_google_json (lib := documented_parsers)
    (Some [g "g1" None (Some ten); g "g2" (Some nine) (Some ten);
           g "g3" (Some {["dateTime" := "next week"]}) (Some ten);
           g "g4" (Some nine) (Some {["dateTime" := "soon"]})])
  = [mk_NormalizedEvent "g2" "google" "" "" "Standup" "busy"
       (mk_datetime 2026 3 2 9 0 0 0) (mk_datetime 2026 3 2 10 0 0 0) false]
  ∧ normalize_google_csv (lib := documented_parsers)
      [r "r1" ∅; r "r2" {["start" := "2026-03-02"; "end" := "2026-03-03"]};
       r "r3" {["start" := "next week"]};
       r "r4" {["start" := "2026-03-02T09:00:00"; "end" := "soon"]}] None
    = [mk_NormalizedEvent "r2" "google_csv" "" "" "PTO" "oof"
         (mk_datetime 2026 3 2 0 0 0 0) (mk_datetime 2026 3 3 0 0 0 0) true]
  ∧ normalize_microsoft_json (lib := documented_parsers)
      (Some [m "m1" (Some ∅) (Some ten); m "m2" (Some nine) (Some ten);
             m "m3" (Some {["dateTime" := "next week"]}) (Some ten);
             m "m4" (Some nine) (Some {["dateTime" := "soon"]})])
    = [mk_NormalizedEvent "m2" "microsoft" "" "" "Review" "busy"
         (mk_datetime 2026 3 2 9 0 0 0) (mk_datetime 2026 3 2 10 0 0 0) false].
Proof.
  intros g m r nine ten.
  destruct (unparsable_events_are_skipped (lib := documented_parsers))
    as (Hg & Hc & Hm & _).
  split_and!.
  - etrans; [apply (Hg [] (g "g1" None (Some ten))); left; reflexivity|].
    etrans; [apply (Hg [g "g2" (Some nine) (Some ten)]
                      (g "g3" (Some {["dateTime" := "next week"]}) (Some ten)));
             right; left; vm_compute; reflexivity|].
    etrans; [apply (Hg [g "g2" (Some nine) (Some ten)]
                      (g "g4" (Some nine) (Some {["dateTime" := "soon"]})) []);
             right; right; split; [discriminate | vm_compute; reflexivity]|].
    vm_compute. reflexivity.
  - etrans; [apply (Hc [] (r "r1" ∅)); left; reflexivity|].
    etrans; [apply (Hc [r "r2" {["start" := "2026-03-02"; "end" := "2026-03-03"]}]
                      (r "r3" {["start" := "next week"]}));
             right; left; vm_compute; reflexivity|].
    etrans; [apply (Hc [r "r2" {["start" := "2026-03-02"; "end" := "2026-03-03"]}]
                      (r "r4" {["start" := "2026-03-02T09:00:00"; "end" := "soon"]}) []);
             right; right; split; [discriminate | vm_compute; reflexivity]|].
    vm_compute. reflexivity.
  - etrans; [apply (Hm [] (m "m1" (Some ∅) (Some ten))); left; reflexivity|].
    etrans; [apply (Hm [m "m2" (Some nine) (Some ten)]
                      (m "m3" (Some {["dateTime" := "next week"]}) (Some ten)));
             right; left; vm_compute; reflexivity|].
    etrans; [apply (Hm [m "m2" (Some nine) (Some ten)]
                      (m "m4" (Some nine) (Some {["dateTime" := "soon"]})) []);
             right; right; split; [discriminate | vm_compute; reflexivity]|].
    vm_compute. reflexivity.
Defined.


End Witnesses.

(* ===================================================================== *)
(** * Part III. Further properties of the code                           *)
(* ===================================================================== *)

Module FilterFacts.

(** A run of elements that all fail the test contributes nothing to a
    filter. *)
Lemma filter_skip_run {A : Type} (P : A → Prop) `{!∀ x, Decision (P x)}
    (pre run post : list A) :
  Forall (fun x => ¬ P x) run →
  filter P (pre ++ run ++ post) = filter P (pre ++ post).
Proof.
  intros Hrun. rewrite !filter_app. f_equal.
  induction Hrun as [|x run Hx Hrun IH]; [done|].
  simpl. rewrite filter_cons, decide_False by done. exact IH.
Qed.

(** A sequence returned: both of its parts did. *)
Lemma bind_ok {A B : Type} (r : result A) (k : A → result B) (v : B) :
  r ≫= k = Ok v → ∃ a, r = Ok a ∧ k a = Ok v.
Proof. destruct r as [a|x]; simpl; [by exists a | done]. Qed.

End FilterFacts.

Module DateOrder.

Local Open Scope Z_scope.

Lemma date_leb_spec (a b : date) :
  date_leb a b = true
  ↔ d_year a < d_year b
    ∨ (d_year a = d_year b
       ∧ (d_month a < d_month b ∨ (d_month a = d_month b ∧ d_day a <= d_day b))).
Proof.
  unfold date_leb, date_compare, lex.
  destruct (Z.compare_spec (d_year a) (d_year b));
    destruct (Z.compare_spec (d_month a) (d_month b));
    destruct (Z.compare_spec (d_day a) (d_day b)); split; try done; lia.
Qed.

Lemma date_ltb_spec (a b : date) :
  date_ltb a b = true
  ↔ d_year a < d_year b
    ∨ (d_year a = d_year b
       ∧ (d_month a < d_month b ∨ (d_month a = d_month b ∧ d_day a < d_day b))).
Proof.
  unfold date_ltb, date_compare, lex.
  destruct (Z.compare_spec (d_year a) (d_year b));
    destruct (Z.compare_spec (d_month a) (d_month b));
    destruct (Z.compare_spec (d_day a) (d_day b)); split; try done; lia.
Qed.

(** No date lies between the start of an event and an end that precedes
    the start. *)
Lemma reversed_overlaps_nothing ev t :
  date_ltb (date_of (end_utc ev)) (date_of (start_utc ev)) = true →
  overlaps_spec ev t = false.
Proof.
  intros Hrev. apply date_ltb_spec in Hrev.
  apply not_true_is_false. unfold overlaps_spec.
  destruct (is_all_day ev); rewrite andb_true_iff, ?date_leb_spec, ?date_ltb_spec; lia.
Qed.

End DateOrder.

Section NormalizerProperties.

Import AvailabilityFacts NormalizerFacts PayloadFacts FilterFacts DateOrder.

Context {lib : Parsers}.

Local Open Scope Z_scope.

Lemma google_csv_row_fields row e :
  google_csv_row row = Some e →
  employee_id e = EmptyString ∧ employee_email e = EmptyString
  ∧ source e = "google_csv"
  ∧ (availability e = "oof" ∨ availability e = "busy")
  ∧ is_all_day e = (PyStr.len (PyStr.strip (get row "start" "")) =? 10)
  ∧ _parse_dt_to_utc (get row "start" "") None = Ok (start_utc e).
Proof.
  unfold google_csv_row. destruct (negb _); [done|].
  destruct (parse_start_end _ _ None) as [[s x]|?] eqn:Hp; [|done].
  intros [= <-]. simpl. apply parse_start_end_ok in Hp as [Hs _].
  split_and!; try done.
  match goal with |- context [if ?b then _ else _] => destruct b end; [by left | by right].
Qed.

(** X1: the events of the CSV export name no employee: the availability query
    returns what it returns without them, and the roster handed to the
    normalizer does not change its result. *)
Theorem csv_events_block_nobody rows db :
  (∀ e, e ∈ normalize_google_csv rows db →
        employee_id e = EmptyString ∧ employee_email e = EmptyString)
  ∧ normalize_google_csv rows db = normalize_google_csv rows None
  ∧ (∀ pre post roster q,
       get_available_employees (pre ++ normalize_google_csv rows db ++ post) roster q
       = get_available_employees (pre ++ post) roster q).
Proof.
  assert (Hno : ∀ e, e ∈ normalize_google_csv rows db →
                     employee_id e = EmptyString ∧ employee_email e = EmptyString).
  { intros e (row & _ & He)%list_elem_of_omap.
    apply google_csv_row_fields in He. tauto. }
  split_and!; [exact Hno | done |].
  intros pre post roster q. unfold get_available_employees.
  rewrite !busy_sets.
  rewrite !(filter_skip_run _ pre (normalize_google_csv rows db) post); [done | |];
    apply Forall_forall; intros e He; destruct (Hno e He) as [Hi Hm];
    intros (_ & _ & Hne); congruence.
Qed.

(** X2: the events of the CSV normalizer stand one for one, in the order of
    the file, for the rows that have a start and parse. The event of a row
    has the id and the summary of that row and the parsed start of that
    row; it is marked all-day exactly when the start text of that row has
    ten characters once stripped, and an all-day event starts at
    midnight. *)
Theorem csv_all_day_starts_at_midnight rows db :
  Forall2 (fun row e =>
      event_id e = get row "id" "" ∧ title e = get row "summary" ""
      ∧ _parse_dt_to_utc (get row "start" "") None = Ok (start_utc e)
      ∧ (is_all_day e = true ↔ PyStr.len (PyStr.strip (get row "start" "")) = 10)
      ∧ (is_all_day e = true →
         hour (start_utc e) = 0 ∧ minute (start_utc e) = 0
         ∧ second (start_utc e) = 0 ∧ microsecond (start_utc e) = 0))
    (filter (fun row => ¬ unparsable (get row "start" "") (get row "end" "") None) rows)
    (normalize_google_csv rows db).
Proof.
  apply omap_kept.
  { intros row. rewrite google_csv_row_none. split; [tauto | apply dec_stable]. }
  intros row e He.
  destruct (google_csv_row_texts row e He) as (Hid & _ & Htitle).
  apply google_csv_row_fields in He as (_ & _ & _ & _ & Hall & Hs).
  split_and!; try done.
  - by rewrite Hall, Z.eqb_eq.
  - rewrite Hall, Z.eqb_eq. intros Hlen.
    unfold _parse_dt_to_utc in Hs. rewrite (proj2 (Z.eqb_eq _ _) Hlen) in Hs.
    apply bind_ok in Hs as (y & _ & Hs). apply bind_ok in Hs as (m & _ & Hs).
    apply bind_ok in Hs as (d & _ & Hs).
    unfold make in Hs. destruct (_ && _); [|done].
    injection Hs as <-. done.
Qed.

Lemma scan_extensions_none exts :
  Forall (fun ext : sdict => ext !! "employeeId" = None) exts →
  scan_extensions exts = (EmptyString, EmptyString, EmptyString).
Proof.
  induction 1 as [|ext exts Hx H IH]; simpl; [done|]. by rewrite Hx.
Qed.

(** X3: a Microsoft event none of whose extensions carries an employee id is
    attributed to the address of its organizer and is busy unless it shows
    as out of office: whatever else [showAs] holds, the event blocks the
    roster member with that address on every day it overlaps. *)
Theorem microsoft_event_blocks_organizer ev e :
  microsoft_json_event ev = Some e →
  Forall (fun ext : sdict => ext !! "employeeId" = None) (default [] (m_extensions ev)) →
  employee_id e = EmptyString
  ∧ employee_email e
    = get (default ∅ (default ∅ (m_organizer ev) !! "emailAddress")) "address" ""
  ∧ availability e
    = (if String.eqb (get (m_members ev) "showAs" "busy") "oof" then "oof" else "busy")
  ∧ ∀ events roster q emp,
      e ∈ events → emp ∈ roster →
      email emp = employee_email e → email emp ≠ EmptyString →
      overlaps_spec e (date_of q) = true →
      emp ∈ map ae_emp (unavailable (get_available_employees events roster q)).
Proof.
  intros He Hext. unfold microsoft_json_event in He.
  rewrite (scan_extensions_none _ Hext) in He. simpl in He.
  destruct (negb (PyStr.truthy (microsoft_start_str ev))); [done|].
  destruct (parse_start_end _ _ _) as [[s x]|?]; [|done].
  injection He as <-. simpl. split_and!; try done.
  intros events roster q emp Hin Hemp Hmail Hne Hov.
  destruct (get_available_employees_filter events roster q) as [_ ->].
  rewrite ae_emp_entry_of. apply list_elem_of_filter. split; [|done].
  apply is_busy_spec. eexists. split; [exact Hin|]. split_and!.
  - unfold blocking. simpl. destruct (String.eqb _ "oof"); [by right | by left].
  - exact Hov.
  - right. simpl in *. split; congruence.
Qed.

(** X4: an event whose end date precedes its start date overlaps no date: the
    two queries return what they return without it. *)
Theorem reversed_event_is_never_seen ev :
  date_ltb (date_of (end_utc ev)) (date_of (start_utc ev)) = true →
  (∀ t, overlaps_spec ev t = false)
  ∧ (∀ pre post q,
       get_events_for_date (pre ++ ev :: post) q = get_events_for_date (pre ++ post) q)
  ∧ (∀ pre post roster q,
       get_available_employees (pre ++ ev :: post) roster q
       = get_available_employees (pre ++ post) roster q).
Proof.
  intros Hrev.
  assert (Hno : ∀ t, overlaps_spec ev t = false)
    by (intros t; by apply reversed_overlaps_nothing).
  split_and!; [exact Hno | |].
  - intros pre post q. rewrite !get_events_for_date_filter.
    rewrite !filter_app, filter_cons, decide_False; [done|].
    rewrite Hno. congruence.
  - intros pre post roster q. unfold get_available_employees.
    rewrite !busy_sets, !filter_app, !filter_cons.
    rewrite !decide_False; [done | |]; rewrite Hno; intros (_ & ? & _); congruence.
Qed.

End NormalizerProperties.

Section AvailabilityProperties.

Import AvailabilityFacts.

Lemma entry_of_spec (l : list Employee) a :
  a ∈ map entry_of l → ae_employee_id a = PyStr.of_int (id (ae_emp a)).
Proof. intros (emp & -> & _)%list_elem_of_fmap. done. Qed.

(** X5: the two lists of the availability query keep the order of the roster,
    and each entry carries the id of its employee as text. *)
Theorem availability_keeps_roster_order events roster q :
  let r := get_available_employees events roster q in
  map ae_emp (available r) `sublist_of` roster
  ∧ map ae_emp (unavailable r) `sublist_of` roster
  ∧ (∀ a, a ∈ available r ++ unavailable r →
          ae_employee_id a = PyStr.of_int (id (ae_emp a)))
  ∧ av_date r = date_isoformat (date_of q).
Proof.
  intros r.
  destruct (get_available_employees_filter events roster q) as [Ha Hu].
  fold r in Ha, Hu. rewrite Ha, Hu, !ae_emp_entry_of.
  split_and!.
  - apply sublist_filter.
  - apply sublist_filter.
  - intros a [H|H]%elem_of_app; by eapply entry_of_spec.
  - unfold r, get_available_employees.
    destruct (foldl _ _ events) as [ids emails].
    by destruct (foldl _ _ roster) as [av un].
Qed.

End AvailabilityProperties.

Local Open Scope Z_scope.

Module UtilFacts.

Import ListFacts ReassignFacts AvailabilityFacts FilterFacts.

Lemma utilization_key_le a b :
  PyList.key_le PyList.leb3 utilization_key a b ↔ less_loaded a b.
Proof.
  unfold PyList.key_le, less_loaded, utilization_key. rewrite leb3_spec. simpl.
  destruct (is_available a), (is_available b); split; intros H;
    try lia; destruct_or?; destruct_and?; try done; try lia.
Qed.

Lemma sorted_impl {A : Type} (R S : A → A → Prop) (l : list A) :
  (∀ x y, R x y → S x y) → StronglySorted R l → StronglySorted S l.
Proof.
  intros HRS. induction 1 as [|x l Hs IH Hx]; constructor; [done|].
  eapply Forall_impl; [exact Hx | auto].
Qed.

(** The list before the sort: the entry of each roster member, in the
    order of the roster. *)
Lemma get_utilization_entries events employees tasks q u :
  get_utilization events employees tasks q = Ok u →
  ∃ results,
    u = PyList.sort_by PyList.leb3 utilization_key results
    ∧ Forall2 (fun emp e =>
        utilization_entry (available_ids_of events employees q)
          (get_events_for_date events q) tasks emp = Ok e) employees results.
Proof.
  unfold get_utilization. fold (available_ids_of events employees q).
  destruct (mapM _ employees) as [results|x] eqn:Hm; simpl; [|done].
  intros [= <-]. exists results. split; [done|]. by apply mapM_ok.
Qed.

Lemma utilization_entry_emp avail day tasks emp e :
  utilization_entry avail day tasks emp = Ok e → u_emp e = emp.
Proof. intros H%utilization_entry_ok. by destruct H. Qed.

Lemma entries_emp {avail day tasks} employees results :
  Forall2 (fun emp e => utilization_entry avail day tasks emp = Ok e) employees results →
  map u_emp results = employees.
Proof.
  induction 1 as [|emp e l r He H IH]; simpl; [done|].
  by rewrite (utilization_entry_emp _ _ _ _ _ He), IH.
Qed.

Lemma get_utilization_entry events employees tasks q u e :
  get_utilization events employees tasks q = Ok u → e ∈ u →
  u_emp e ∈ employees
  ∧ utilization_entry (available_ids_of events employees q)
      (get_events_for_date events q) tasks (u_emp e) = Ok e.
Proof.
  intros (results & -> & HF)%get_utilization_entries He.
  rewrite sort_by_perm in He.
  apply list_elem_of_lookup in He as [i Hi].
  destruct (Forall2_lookup_r _ _ _ _ _ HF Hi) as (emp & Hemp & Hent).
  rewrite (utilization_entry_emp _ _ _ _ _ Hent).
  split; [by eapply list_elem_of_lookup_2 | done].
Qed.

(** Two roster members with the same id are the same member when the ids
    of the roster are distinct. *)
Lemma roster_id_inj (employees : list Employee) a b :
  NoDup (map id employees) → a ∈ employees → b ∈ employees → id a = id b → a = b.
Proof.
  intros Hnd [j Hj]%list_elem_of_lookup [k Hk]%list_elem_of_lookup Hid.
  assert (j = k) as ->.
  { eapply NoDup_lookup; [exact Hnd | |];
      rewrite list_lookup_fmap; [rewrite Hj | rewrite Hk]; simpl; by f_equal. }
  congruence.
Qed.

Lemma available_ids_spec events employees q emp :
  PyStr.of_int (id emp) ∈ available_ids_of events employees q
  ↔ ∃ emp', emp' ∈ employees ∧ id emp' = id emp
            ∧ is_busy events (date_of q) emp' = false.
Proof.
  unfold available_ids_of.
  destruct (get_available_employees_filter events employees q) as [-> _].
  rewrite elem_of_list_to_set, list_elem_of_fmap. split.
  - intros (a & Heq & (emp' & -> & Hin)%list_elem_of_fmap).
    apply list_elem_of_filter in Hin as [Hb Hin]. simpl in Heq.
    exists emp'. split_and!; try done. symmetry. by apply of_int_inj.
  - intros (emp' & Hin & Hid & Hb). exists (entry_of emp'). simpl.
    split; [by rewrite Hid|]. apply list_elem_of_fmap. exists emp'.
    split; [done|]. by apply list_elem_of_filter.
Qed.

Lemma length_filter_fmap {A B : Type} (f : A → B) (P : B → Prop)
    `{!∀ y, Decision (P y)} (l : list A) :
  length (filter P (map f l)) = length (filter (fun x => P (f x)) l).
Proof.
  induction l as [|x l IH]; simpl; [done|].
  rewrite !filter_cons. destruct (decide (P (f x))); simpl; by rewrite IH.
Qed.

Lemma round_pct_zero b pct : 1 <= b → PyFloat.round_pct 0 b = Ok pct → pct = 0.
Proof.
  intros Hb. unfold PyFloat.round_pct, PyFloat.truediv.
  destruct b as [|b|b]; try lia. simpl. by intros [= <-].
Qed.

(** [str(n)] is never empty. *)
Lemma of_int_nonempty (n : Z) : PyStr.of_int n ≠ EmptyString.
Proof.
  unfold PyStr.of_int.
  assert (Hu : ∀ d, d ≠ Decimal.Nil → NilZero.string_of_uint d ≠ EmptyString)
    by (intros [] ?; done).
  destruct n as [|p|p]; simpl; [done | |].
  - apply Hu, DecimalPos.Unsigned.to_uint_nonnil.
  - done.
Qed.

Lemma assignee_str_spec (t : Task) (i : Z) :
  assignee_str t = PyStr.of_int i ↔ t_assigned_to_id t = Some i.
Proof.
  unfold assignee_str. destruct (t_assigned_to_id t) as [j|]; split.
  - by intros ->%of_int_inj.
  - by intros [= ->].
  - intros H. symmetry in H. by apply of_int_nonempty in H.
  - done.
Qed.

Lemma total_app l1 l2 : total (l1 ++ l2) = total l1 + total l2.
Proof. unfold total. induction l1 as [|x l1 IH]; simpl; lia. Qed.

Lemma total_perm l1 l2 : l1 ≡ₚ l2 → total l1 = total l2.
Proof. unfold total. induction 1; simpl; lia. Qed.

(** The number of roster members with a given id, when ids are distinct. *)
Lemma count_id (employees : list Employee) (i : Z) :
  NoDup (map id employees) →
  length (filter (fun emp => id emp = i) employees)
  = if decide (i ∈ map id employees) then 1%nat else 0%nat.
Proof.
  induction employees as [|emp l IH]; cbn [map]; intros Hnd.
  - rewrite decide_False; [done | apply not_elem_of_nil].
  - apply NoDup_cons in Hnd as [Hnot Hnd]. rewrite filter_cons.
    destruct (decide (id emp = i)) as [<-|Hne].
    + rewrite decide_True by left. cbn [length]. rewrite IH by done.
      by rewrite decide_False.
    + rewrite IH by done. destruct (decide (i ∈ map id l)) as [Hin|Hin].
      * rewrite decide_True; [done | by right].
      * rewrite decide_False; [done|]. rewrite not_elem_of_cons. split; congruence.
Qed.

Lemma filter_none {A : Type} (P : A → Prop) `{!∀ x, Decision (P x)} (l : list A) :
  (∀ x, x ∈ l → ¬ P x) → filter P l = [].
Proof.
  induction l as [|x l IH]; intros Hl; [done|].
  rewrite filter_cons, decide_False by (apply Hl; left).
  apply IH. intros y Hy. apply Hl. by right.
Qed.

(** The roster members a task is counted for: one, when the task is active
    and its assignee is in the roster, and none otherwise. *)
Lemma owners_of_task (employees : list Employee) (t : Task) :
  NoDup (map id employees) →
  length (filter (fun emp => is_active t = true ∧ t_assigned_to_id t = Some (id emp))
            employees)
  = if decide (is_active t = true
               ∧ t_assigned_to_id t ∈ map (fun e => Some (id e)) employees)
    then 1%nat else 0%nat.
Proof.
  intros Hnd.
  destruct (decide (is_active t = true)) as [Hact|Hact].
  2:{ rewrite decide_False by tauto. rewrite filter_none; [done|]. tauto. }
  destruct (t_assigned_to_id t) as [i|].
  2:{ rewrite decide_False.
      - rewrite filter_none; [done|]. by intros ? _ [_ ?].
      - intros [_ (? & ? & _)%list_elem_of_fmap]. done. }
  rewrite (list_filter_iff _ (fun emp => id emp = i)).
  2:{ intros emp. split; [by intros [_ [= ->]] | by intros ->]. }
  rewrite count_id by done.
  destruct (decide (i ∈ map id employees)) as [Hin|Hin].
  - rewrite decide_True; [done|]. split; [done|].
    apply list_elem_of_fmap in Hin as (emp & -> & Hemp).
    apply list_elem_of_fmap. by exists emp.
  - rewrite decide_False; [done|]. intros [_ (emp & [= ->] & Hemp)%list_elem_of_fmap].
    apply Hin, list_elem_of_fmap. by exists emp.
Qed.

(** Counting the pairs of a relation by rows and by columns. *)
Lemma double_count {A B : Type} (R : A → B → Prop) `{!∀ a b, Decision (R a b)}
    (la : list A) (lb : list B) :
  total (map (fun a => Z.of_nat (length (filter (R a) lb))) la)
  = total (map (fun b => Z.of_nat (length (filter (fun a => R a b) la))) lb).
Proof.
  induction la as [|a la IH]; simpl.
  - induction lb as [|b lb IHb]; simpl; [done|]. unfold total in *. simpl. lia.
  - unfold total in *. simpl. rewrite IH. clear IH.
    induction lb as [|b lb IHb]; simpl; [done|].
    rewrite !filter_cons. destruct (decide (R a b)); simpl; lia.
Qed.

End UtilFacts.

Section UtilizationProperties.

Import ListFacts ReassignFacts AvailabilityFacts UtilFacts FilterFacts.

(** X6: the utilization list has one entry for each roster member and is in
    the order of its sort key: the available members first; among members
    of the same availability the lower utilization first, and the larger
    free capacity first among equal utilizations. *)
Theorem utilization_is_sorted_roster events employees tasks q u :
  get_utilization events employees tasks q = Ok u →
  map u_emp u ≡ₚ employees
  ∧ length u = length employees
  ∧ StronglySorted less_loaded u.
Proof.
  intros (results & -> & HF)%get_utilization_entries.
  assert (Hperm : map u_emp (PyList.sort_by PyList.leb3 utilization_key results)
                  ≡ₚ employees).
  { rewrite sort_by_perm. by rewrite (entries_emp _ _ HF). }
  split_and!; [done | |].
  - by rewrite <- (Permutation_length Hperm), length_map.
  - eapply sorted_impl;
      [|apply (sort_by_sorted PyList.leb3 utilization_key leb3_total leb3_trans)].
    intros a b. apply utilization_key_le.
Qed.

(** X7: with distinct roster ids, [is_available] of an entry says where the
    availability query puts its member. *)
Theorem is_available_matches_query events employees tasks q u :
  NoDup (map id employees) →
  get_utilization events employees tasks q = Ok u →
  ∀ e, e ∈ u →
    let r := get_available_employees events employees q in
    (is_available e = true ↔ u_emp e ∈ map ae_emp (available r))
    ∧ (is_available e = false ↔ u_emp e ∈ map ae_emp (unavailable r)).
Proof.
  intros Hnd Hu e He r.
  destruct (get_utilization_entry _ _ _ _ _ _ Hu He) as [Hin Hent].
  apply utilization_entry_ok in Hent as [_ Hav _ _ _ _].
  destruct (get_available_employees_filter events employees q) as [Ha Hun].
  fold r in Ha, Hun. rewrite Ha, Hun, !ae_emp_entry_of, !list_elem_of_filter.
  assert (Hiff : is_available e = true ↔ is_busy events (date_of q) (u_emp e) = false).
  { rewrite Hav, bool_decide_eq_true, available_ids_spec. split.
    - intros (emp' & Hin' & Hid & Hb).
      by rewrite <- (roster_id_inj employees emp' (u_emp e) Hnd Hin' Hin Hid).
    - intros Hb. by exists (u_emp e). }
  split.
  - rewrite Hiff. tauto.
  - destruct (is_available e), (is_busy events (date_of q) (u_emp e));
      split; try tauto; try (intros [? _]; done); try done.
Qed.

(** X8: [calendar_event_count] is the number of timed events of the day that
    carry the id or the email of the member, whatever their availability;
    an all-day event is never counted. *)
Theorem calendar_count_is_timed_events events employees tasks q u :
  get_utilization events employees tasks q = Ok u →
  ∀ e, e ∈ u →
    calendar_event_count e
    = Z.of_nat (length (timed_events_of events (date_of q) (u_emp e))).
Proof.
  intros Hu e He.
  destruct (get_utilization_entry _ _ _ _ _ _ Hu He) as [_ Hent].
  unfold utilization_entry in Hent.
  destruct (PyFloat.round_pct _ _); simpl in Hent; [|done].
  injection Hent as <-. simpl. f_equal.
  rewrite get_events_for_date_filter, length_filter_fmap, list_filter_filter.
  unfold timed_events_of. f_equal. apply list_filter_iff. intros ev. simpl.
  rewrite andb_true_iff, orb_true_iff, negb_true_iff, !String.eqb_eq. tauto.
Qed.

(** X9: a member without active tasks has utilization 0 and all of
    [max_tasks_per_day] (or nothing, when that is negative) free. *)
Theorem idle_member_has_zero_utilization events employees tasks q u :
  get_utilization events employees tasks q = Ok u →
  ∀ e, e ∈ u → active_tasks_of tasks (u_emp e) = [] →
    active_task_count e = 0 ∧ active_tasks e = [] ∧ utilization_pct e = 0
    ∧ free_capacity e = Z.max 0 (default 4 (max_tasks_per_day (u_emp e))).
Proof.
  intros Hu e He Hnone.
  destruct (get_utilization_entry _ _ _ _ _ _ Hu He) as [_ Hent].
  apply utilization_entry_ok in Hent as [_ _ Htasks Hcount (pct & Hpct & Hutil) Hfree].
  rewrite Hnone in Htasks, Hcount. simpl in Hcount.
  rewrite Hcount in Hpct, Hfree. apply round_pct_zero in Hpct; [|lia].
  split_and!; try done.
  - rewrite Hutil, Hpct. done.
  - rewrite Hfree. f_equal. lia.
Qed.

(** X10: with distinct roster ids every active task of a roster member is
    counted for exactly one entry: the counts add up to the number of
    active tasks assigned within the roster. *)
Theorem active_tasks_are_counted_once events employees tasks q u :
  NoDup (map id employees) →
  get_utilization events employees tasks q = Ok u →
  total (map active_task_count u)
  = Z.of_nat (length (assigned_in_roster employees tasks)).
Proof.
  intros Hnd (results & -> & HF)%get_utilization_entries.
  rewrite (total_perm _ (map active_task_count results))
    by (by rewrite sort_by_perm).
  assert (Hcounts : map active_task_count results
                    = map (fun emp => Z.of_nat (length (active_tasks_of tasks emp))) employees).
  { clear -HF. induction HF as [|emp e l r He H IH]; simpl; [done|].
    apply utilization_entry_ok in He as [_ _ _ Hc _ _]. by rewrite Hc, IH. }
  rewrite Hcounts.
  set (R := fun (emp : Employee) (t : Task) =>
              is_active t = true ∧ t_assigned_to_id t = Some (id emp)).
  assert (Hrows : ∀ emp, length (active_tasks_of tasks emp) = length (filter (R emp) tasks)).
  { intros emp. unfold active_tasks_of. f_equal. apply list_filter_iff. intros t.
    unfold R. rewrite andb_true_iff, String.eqb_eq, assignee_str_spec. tauto. }
  erewrite map_ext; [|intros emp; by rewrite Hrows].
  rewrite (double_count R employees tasks).
  unfold assigned_in_roster. clear -Hnd.
  induction tasks as [|t tasks IH]; [done|].
  unfold total in *. cbn [map foldr]. rewrite IH, filter_cons. clear IH.
  unfold R. rewrite (owners_of_task employees t Hnd).
  destruct (decide _); cbn [length]; lia.
Qed.

End UtilizationProperties.

Module SuggestFacts.

Import ListFacts ReassignFacts AvailabilityFacts UtilFacts FilterFacts.

Lemma suggestion_key_le a b :
  PyList.key_le PyList.leb2 suggestion_key a b ↔ triage_before a b.
Proof.
  unfold PyList.key_le, triage_before, suggestion_key, priority_rank.
  rewrite leb2_spec. simpl.
  destruct (needs_reassignment a), (needs_reassignment b); split; intros H;
    try lia; destruct_or?; destruct_and?; try done; try lia.
Qed.

Lemma suggest_reassignments_report events employees tasks q top_n r :
  suggest_reassignments events employees tasks q top_n = Ok r →
  ∃ u sl,
    get_utilization events employees tasks q = Ok u
    ∧ mapM (suggestion_of (date_isoformat (date_of q)) (util_map_of u)
              (unavailable_ids_of u) (available_pool_of u) top_n)
        (filter (fun t => is_active t = true) tasks) = Ok sl
    ∧ r = mk_Suggestions (date_isoformat (date_of q))
            (Z.of_nat (length (filter (fun t => is_active t = true) tasks)))
            (Z.of_nat (length (filter (fun s => needs_reassignment s = true)
                                 (PyList.sort_by PyList.leb2 suggestion_key sl))))
            (PyList.sort_by PyList.leb2 suggestion_key sl)
            (map _serialize_emp u).
Proof.
  unfold suggest_reassignments.
  destruct (get_utilization events employees tasks q) as [u|x]; simpl; [|done].
  fold (unavailable_ids_of u). fold (available_pool_of u).
  destruct (mapM _ _) as [sl|x] eqn:Hm; simpl; [|done].
  intros [= <-]. by exists u, sl.
Qed.

Lemma suggestion_of_task ts um unav pool top_n task s :
  suggestion_of ts um unav pool top_n task = Ok s → s_task s = _serialize_task task.
Proof. intros H%suggestion_of_ok. tauto. Qed.

(** What [util_map] holds under a key: an entry of the list with that id. *)
Lemma util_map_lookup u k e :
  util_map_of u !! k = Some e → e ∈ u ∧ PyStr.of_int (id (u_emp e)) = k.
Proof.
  unfold util_map_of.
  assert (H : ∀ (m : gmap string UtilEntry),
    (∀ k e, m !! k = Some e → e ∈ u ∧ PyStr.of_int (id (u_emp e)) = k) →
    ∀ l, (∀ x, x ∈ l → x ∈ u) →
    ∀ k e, foldl (fun m e => <[PyStr.of_int (id (u_emp e)) := e]> m) m l !! k = Some e →
           e ∈ u ∧ PyStr.of_int (id (u_emp e)) = k).
  { intros m Hm l. revert m Hm. induction l as [|x l IH]; intros m Hm Hl k' e'; simpl.
    - apply Hm.
    - apply IH.
      + intros k0 e0. destruct (decide (PyStr.of_int (id (u_emp x)) = k0)) as [<-|Hne].
        * rewrite lookup_insert_eq. intros [= <-]. split; [apply Hl; left | done].
        * rewrite lookup_insert_ne by done. apply Hm.
      + intros y Hy. apply Hl. by right. }
  apply (H ∅); [intros ? ? ?%lookup_empty_Some; done | done].
Qed.

(** The full outcome of the loop body over the active tasks. *)
Lemma suggestion_of_cases ts um unav pool top_n task s :
  suggestion_of ts um unav pool top_n task = Ok s →
  s_task s = _serialize_task task
  ∧ current_assignee s = _serialize_emp <$> um !! assignee_str task
  ∧ (((assignee_str task ∉ unav) ∧ needs_reassignment s = false
      ∧ reason s = None ∧ recommendations s = [])
     ∨ (assignee_str task ∈ unav ∧ needs_reassignment s = true
        ∧ reason s = Some ("Assignee unavailable on " +:+ ts)
        ∧ ∃ found,
            mapM (candidate_of task (assignee_str task)) pool = Ok found
            ∧ recommendations s
              = PyList.slice_to
                  (PyList.sort_by PyList.leb2 candidate_key (omap (fun c => c) found))
                  top_n)).
Proof.
  unfold suggestion_of. case_bool_decide as Hin; simpl.
  2:{ intros [= <-]. split_and!; try done. by left. }
  destruct (mapM _ pool) as [found|x] eqn:Hm; simpl; [|done].
  intros [= <-]. split_and!; try done. right. split_and!; try done.
  by exists found.
Qed.

(** A recommended candidate was built by [candidate_of] from a member of
    the pool. *)
Lemma recommended_candidate ts um unav pool top_n task s c :
  suggestion_of ts um unav pool top_n task = Ok s → c ∈ recommendations s →
  ∃ emp, emp ∈ pool ∧ candidate_of task (assignee_str task) emp = Ok (Some c).
Proof.
  intros (_ & _ & [(_ & _ & _ & Hnil)|(_ & _ & _ & found & Hm & Hrec)])%suggestion_of_cases Hc.
  { rewrite Hnil in Hc. by apply elem_of_nil in Hc. }
  rewrite Hrec in Hc. apply slice_to_subseteq in Hc. rewrite sort_by_perm in Hc.
  apply list_elem_of_omap in Hc as (oc & Hoc & Heq). simpl in Heq. subst oc.
  destruct (mapM_ok_elem _ _ _ _ Hm Hoc) as (emp & Hemp & He). by exists emp.
Qed.

Lemma unavailable_ids_spec u k :
  k ∈ unavailable_ids_of u
  ↔ ∃ e, e ∈ u ∧ is_available e = false ∧ PyStr.of_int (id (u_emp e)) = k.
Proof.
  unfold unavailable_ids_of. rewrite elem_of_list_to_set, list_elem_of_fmap. split.
  - intros (e & -> & [Hav He]%list_elem_of_filter). by exists e.
  - intros (e & He & Hav & <-). exists e. split; [done|].
    by apply list_elem_of_filter.
Qed.

Section StringOrder.

Local Open Scope char_scope.

Lemma ascii_compare_trans a b c o :
  (a ?= b) = o → (b ?= c) = o → (a ?= c) = o.
Proof.
  unfold Ascii.compare. destruct o.
  - rewrite !N.compare_eq_iff. congruence.
  - rewrite !N.compare_lt_iff. lia.
  - rewrite !N.compare_gt_iff. lia.
Qed.

Lemma ascii_compare_eq a b : (a ?= b) = Eq ↔ a = b.
Proof.
  split; [apply Ascii.compare_eq_iff|]. intros ->.
  unfold Ascii.compare. apply N.compare_refl.
Qed.

End StringOrder.

Lemma string_leb_trans (s1 s2 s3 : string) :
  String.leb s1 s2 = true → String.leb s2 s3 = true → String.leb s1 s3 = true.
Proof.
  unfold String.leb.
  assert (H : ∀ s1 s2 s3,
    String.compare s1 s2 ≠ Gt → String.compare s2 s3 ≠ Gt → String.compare s1 s3 ≠ Gt).
  { clear. induction s1 as [|a s1 IH]; intros [|b s2] [|c s3]; simpl; try done.
    destruct (Ascii.compare a b) eqn:Hab; [| |done];
      destruct (Ascii.compare b c) eqn:Hbc; try done.
    - apply ascii_compare_eq in Hab as ->. apply ascii_compare_eq in Hbc as ->.
      rewrite (proj2 (ascii_compare_eq c c) eq_refl). apply IH.
    - apply ascii_compare_eq in Hab as ->. by rewrite Hbc.
    - apply ascii_compare_eq in Hbc as ->. by rewrite Hab.
    - by rewrite (ascii_compare_trans a b c Lt Hab Hbc). }
  intros H1 H2. specialize (H s1 s2 s3).
  destruct (String.compare s1 s2); destruct (String.compare s2 s3);
    destruct (String.compare s1 s3); try done; exfalso; by apply H.
Qed.

Lemma string_leb_total (s1 s2 : string) :
  String.leb s1 s2 = false → String.leb s2 s1 = true.
Proof. destruct (String.leb_total s1 s2) as [H|H]; congruence. Qed.

End SuggestFacts.

Section SuggestionProperties.

Import ListFacts ReassignFacts AvailabilityFacts UtilFacts FilterFacts SuggestFacts.

(** X11: the report has one suggestion for each active task and none for any
    other task; the tasks to reassign come first, and within each group the
    order is critical, high, medium, low, anything else. The two counters
    are the number of suggestions and the number of those to reassign. *)
Theorem report_covers_active_tasks events employees tasks q top_n r :
  suggest_reassignments events employees tasks q top_n = Ok r →
  map s_task (suggestions r)
    ≡ₚ map _serialize_task (filter (fun t => is_active t = true) tasks)
  ∧ total_tasks_checked r = Z.of_nat (length (suggestions r))
  ∧ sg_needs_reassignment r
    = Z.of_nat (length (filter (fun s => needs_reassignment s = true) (suggestions r)))
  ∧ StronglySorted triage_before (suggestions r)
  ∧ sg_date r = date_isoformat (date_of q)
  ∧ ∃ u, get_utilization events employees tasks q = Ok u
         ∧ utilization_snapshot r = map _serialize_emp u.
Proof.
  intros (u & sl & Hu & Hm & ->)%suggest_reassignments_report. simpl.
  assert (Htasks : map s_task sl
                   = map _serialize_task (filter (fun t => is_active t = true) tasks)).
  { apply mapM_ok in Hm. induction Hm as [|t s l sl' Hs Hm IH]; simpl; [done|].
    by rewrite (suggestion_of_task _ _ _ _ _ _ _ Hs), IH. }
  split_and!; try done.
  - by rewrite sort_by_perm, Htasks.
  - f_equal. rewrite (Permutation_length (sort_by_perm _ _ sl)).
    symmetry. by eapply mapM_ok_length.
  - eapply sorted_impl;
      [|apply (sort_by_sorted PyList.leb2 suggestion_key leb2_total leb2_trans)].
    intros a b. apply suggestion_key_le.
  - by exists u.
Qed.

(** X12: a task is flagged for reassignment exactly when its assignee is a
    roster member whose entry is not available: a task without an assignee,
    or assigned outside the roster, is never flagged. A task that is not
    flagged has no recommendations and no reason. *)
Theorem flagged_iff_assignee_unavailable events employees tasks q top_n r :
  suggest_reassignments events employees tasks q top_n = Ok r →
  ∃ u, get_utilization events employees tasks q = Ok u
  ∧ ∀ s, s ∈ suggestions r →
      (needs_reassignment s = true
       ↔ ∃ e, e ∈ u ∧ is_available e = false
              ∧ t_assigned_to_id (s_task s) = Some (id (u_emp e)))
      ∧ (needs_reassignment s = false → recommendations s = [] ∧ reason s = None)
      ∧ (needs_reassignment s = true →
         reason s = Some ("Assignee unavailable on " +:+ date_isoformat (date_of q)))
      ∧ (∀ a, current_assignee s = Some a →
              t_assigned_to_id (s_task s) = Some (se_id a)
              ∧ ∃ e, e ∈ u ∧ a = _serialize_emp e).
Proof.
  intros (u & sl & Hu & Hm & ->)%suggest_reassignments_report. simpl.
  exists u. split; [done|]. intros s Hs. rewrite sort_by_perm in Hs.
  destruct (mapM_ok_elem _ _ _ _ Hm Hs) as (task & _ & Hok).
  apply suggestion_of_cases in Hok as (Htask & Hcur & Hcases).
  rewrite Htask. cbn [_serialize_task t_assigned_to_id].
  assert (Hflag : assignee_str task ∈ unavailable_ids_of u
                  ↔ ∃ e, e ∈ u ∧ is_available e = false
                         ∧ t_assigned_to_id task = Some (id (u_emp e))).
  { rewrite unavailable_ids_spec. split; intros (e & He & Hav & Hid); exists e;
      split_and!; try done.
    - by apply assignee_str_spec.
    - symmetry. by apply assignee_str_spec. }
  split_and!.
  - rewrite <- Hflag.
    destruct Hcases as [(Hno & -> & _)|(Hyes & -> & _)]; split; done.
  - destruct Hcases as [(_ & _ & ? & ?)|(_ & -> & _)]; done.
  - destruct Hcases as [(_ & -> & _)|(_ & _ & ? & _)]; done.
  - intros a Ha. rewrite Hcur in Ha.
    destruct (util_map_of u !! assignee_str task) as [e|] eqn:He; [|done].
    injection Ha as <-. apply util_map_lookup in He as [He Hid].
    split; [|by exists e]. simpl. symmetry in Hid. by apply assignee_str_spec.
Qed.

(** X13: the skill gap of a recommended candidate lists, in ascending order and
    without repetition, the required skills of the task that the candidate
    lacks; together with the matched skills they are the distinct required
    skills. *)
Theorem skill_gap_is_what_is_missing events employees tasks q top_n r :
  suggest_reassignments events employees tasks q top_n = Ok r →
  ∀ s c, s ∈ suggestions r → c ∈ recommendations s →
    let required := required_set (s_task s) in
    let have : gset string := list_to_set (se_skills (c_emp c)) in
    (∀ k, k ∈ skill_gap c ↔ k ∈ required ∧ k ∉ have)
    ∧ NoDup (skill_gap c)
    ∧ StronglySorted (fun a b => String.leb a b = true) (skill_gap c)
    ∧ skill_match_count c + Z.of_nat (length (skill_gap c)) = Z.of_nat (size required)
    ∧ 0 <= skill_match_pct c.
Proof.
  intros (u & sl & Hu & Hm & ->)%suggest_reassignments_report s c. simpl.
  intros Hs Hc. rewrite sort_by_perm in Hs.
  destruct (mapM_ok_elem _ _ _ _ Hm Hs) as (task & _ & Hok).
  pose proof (suggestion_of_task _ _ _ _ _ _ _ Hok) as Htask.
  destruct (recommended_candidate _ _ _ _ _ _ _ _ Hok Hc) as (emp & _ & Hcand).
  rewrite Htask, serialize_task_required.
  unfold candidate_of in Hcand. destruct (String.eqb _ _); [done|].
  destruct (PyFloat.round_pct _ _) as [pct|x] eqn:Hpct; simpl in Hcand; [|done].
  injection Hcand as <-. simpl. fold (skill_set (u_emp emp)).
  set (gap := required_set task ∖ skill_set (u_emp emp)).
  assert (Hperm : PyList.sort_by String.leb (fun k => k) (elements gap) ≡ₚ elements gap)
    by apply sort_by_perm.
  split_and!.
  - intros k. rewrite Hperm, elem_of_elements. unfold gap. apply elem_of_difference.
  - rewrite Hperm. apply NoDup_elements.
  - apply (sort_by_sorted String.leb (fun k : string => k)
             string_leb_total string_leb_trans).
  - rewrite (Permutation_length Hperm).
    change (length (elements gap)) with (size gap). unfold gap.
    pose proof (size_difference_alt (C := gset string) (required_set task)
                  (skill_set (u_emp emp))) as ->.
    pose proof (subseteq_size (required_set task ∩ skill_set (u_emp emp)) (required_set task)) as Hle.
    assert (Hsub : required_set task ∩ skill_set (u_emp emp) ⊆ required_set task)
      by (intros y Hy; by apply elem_of_intersection in Hy as [? _]).
    specialize (Hle Hsub). lia.
  - apply FloatFacts.round_pct_nonneg in Hpct; lia.
Qed.

End SuggestionProperties.

Module StoreFacts.

Import CommitFacts UtilFacts ListFacts.

(** [next] over a list in which the first match stands after [pre]. *)
Lemma find_first task_id (pre post : list Task) (t : Task) :
  (task_id ∉ map t_id pre) → t_id t = task_id →
  find (fun x => String.eqb (t_id x) task_id) (pre ++ t :: post) = Some t.
Proof.
  intros Hpre Ht. induction pre as [|x pre IH]; simpl.
  - by rewrite (proj2 (String.eqb_eq _ _) Ht).
  - cbn [map] in Hpre. apply not_elem_of_cons in Hpre as [Hx Hpre].
    destruct (String.eqb_spec (t_id x) task_id) as [Heq|_]; [congruence|].
    by apply IH.
Qed.

(** A successful run, taken apart: the task and the employee that the two
    lookups found, and the store written. *)
Lemma execute_reassignment_ok {File : Type} (load : File → Store) (dump : Store → File)
    task_id new_assignee_id reason now1 now2 file audit file' :
  execute_reassignment load dump task_id new_assignee_id reason now1 now2 file
  = (Ok audit, file') →
  ∃ pre task post new_emp,
    tasks (load file) = pre ++ task :: post
    ∧ t_id task = task_id ∧ (task_id ∉ map t_id pre)
    ∧ find (fun t => String.eqb (t_id t) task_id) (tasks (load file)) = Some task
    ∧ find (fun e => id e =? new_assignee_id) (employees (load file)) = Some new_emp
    ∧ file' = dump (mk_Store (pre ++ stamped new_assignee_id reason now1 task :: post)
                      (employees (load file)))
    ∧ from_employee_id audit = t_assigned_to_id task
    ∧ to_employee_id audit = new_assignee_id.
Proof.
  unfold execute_reassignment.
  destruct (find _ (tasks (load file))) as [task|] eqn:Hft; [|done].
  destruct (find _ (employees (load file))) as [new_emp|] eqn:Hfe; [|done].
  intros [= <- <-].
  destruct (update_first task_id (stamped new_assignee_id reason now1) _ _ Hft)
    as (pre & post & Hts & Hid & Hpre & Hup).
  exists pre, task, post, new_emp. rewrite Hup. by split_and!.
Qed.

Lemma active_tasks_of_app l1 l2 emp :
  active_tasks_of (l1 ++ l2) emp = active_tasks_of l1 emp ++ active_tasks_of l2 emp.
Proof. unfold active_tasks_of. apply filter_app. Qed.

(** What one task adds to the count of a member. *)
Lemma active_tasks_of_one (t : Task) emp :
  Z.of_nat (length (active_tasks_of [t] emp))
  = if is_active t && bool_decide (t_assigned_to_id t = Some (id emp)) then 1 else 0.
Proof.
  unfold active_tasks_of. rewrite filter_cons, filter_nil.
  destruct (is_active t) eqn:Hact; simpl.
  - case_bool_decide as Hid.
    + rewrite decide_True; [done|].
      by rewrite andb_true_iff, String.eqb_eq, assignee_str_spec.
    + rewrite decide_False; [done|].
      by rewrite andb_true_iff, String.eqb_eq, assignee_str_spec; intros [? _].
  - rewrite decide_False; [done|]. rewrite andb_true_iff. by intros [_ ?].
Qed.

End StoreFacts.

Section CommitProperties.

Import CommitFacts StoreFacts UtilFacts ListFacts.

Context {File : Type} (load : File → Store) (dump : Store → File).

(** The file holds what was written to it. *)
Hypothesis load_dump : ∀ s, load (dump s) = s.

(** X14: after a successful reassignment the file reads back with the same
    employees and the same task ids; the task found under the id has the
    new assignee, the reason and the stamp; and running the same
    reassignment again succeeds and reports the new assignee as the old
    one. *)
Theorem reassignment_is_read_back
    task_id new_assignee_id reason now1 now2 file audit file' :
  execute_reassignment load dump task_id new_assignee_id reason now1 now2 file
  = (Ok audit, file') →
  employees (load file') = employees (load file)
  ∧ map t_id (tasks (load file')) = map t_id (tasks (load file))
  ∧ (∃ task',
       find (fun t => String.eqb (t_id t) task_id) (tasks (load file')) = Some task'
       ∧ t_assigned_to_id task' = Some new_assignee_id
       ∧ t_reassignment_reason task' = Some reason
       ∧ t_last_reassigned task' = Some (isoformat now1))
  ∧ ∀ reason' now3 now4, ∃ audit' file'',
      execute_reassignment load dump task_id new_assignee_id reason' now3 now4 file'
      = (Ok audit', file'')
      ∧ from_employee_id audit' = Some new_assignee_id
      ∧ to_employee_id audit' = new_assignee_id.
Proof.
  intros (pre & task & post & new_emp & Hts & Hid & Hpre & Hft & Hfe & -> & _)
    %execute_reassignment_ok.
  rewrite load_dump. cbn [tasks employees].
  assert (Hfind : find (fun t => String.eqb (t_id t) task_id)
                    (pre ++ stamped new_assignee_id reason now1 task :: post)
                  = Some (stamped new_assignee_id reason now1 task))
    by (by apply find_first).
  split_and!.
  - done.
  - rewrite Hts, !map_app. done.
  - eexists. split; [exact Hfind|]. done.
  - intros reason' now3 now4. unfold execute_reassignment.
    rewrite load_dump. cbn [tasks employees]. rewrite Hfind, Hfe.
    eexists _, _. split; [reflexivity|]. done.
Qed.

(** X15: a successful reassignment moves one task: when the task is active the
    count of active tasks goes up by one for the roster members with the
    new id and down by one for those with the old id, and no other count
    changes; a task that is not active changes no count. *)
Theorem reassignment_moves_one_task
    task_id new_assignee_id reason now1 now2 file audit file' :
  execute_reassignment load dump task_id new_assignee_id reason now1 now2 file
  = (Ok audit, file') →
  ∃ task,
    find (fun t => String.eqb (t_id t) task_id) (tasks (load file)) = Some task
    ∧ ∀ emp,
        Z.of_nat (length (active_tasks_of (tasks (load file')) emp))
        = Z.of_nat (length (active_tasks_of (tasks (load file)) emp))
          + (if is_active task
             then (if bool_decide (id emp = new_assignee_id) then 1 else 0)
                  - (if bool_decide (t_assigned_to_id task = Some (id emp)) then 1 else 0)
             else 0).
Proof.
  intros (pre & task & post & new_emp & Hts & Hid & Hpre & Hft & Hfe & -> & _)
    %execute_reassignment_ok.
  exists task. split; [done|]. intros emp.
  rewrite load_dump, Hts. cbn [tasks].
  rewrite !active_tasks_of_app.
  change (?x :: post) with ([x] ++ post). rewrite !active_tasks_of_app, !length_app.
  rewrite !Nat2Z.inj_add, !active_tasks_of_one.
  change (is_active (stamped new_assignee_id reason now1 task)) with (is_active task).
  cbn [stamped t_assigned_to_id].
  destruct (is_active task); simpl; [|lia].
  repeat case_bool_decide; simplify_eq; lia.
Qed.

End CommitProperties.

Module CalendarFacts.

Lemma forall_below (P : Z → bool) (k : nat) :
  forallb (fun i => P (Z.of_nat i)) (seq 0 k) = true →
  ∀ n, 0 <= n < Z.of_nat k → P n = true.
Proof.
  intros H n Hn. rewrite forallb_forall in H.
  specialize (H (Z.to_nat n)). rewrite Z2Nat.id in H by lia.
  apply H, in_seq. lia.
Qed.

(** The month and day of each day of a year, and back. *)
Lemma month_day_spec (n : Z) (leap : bool) :
  0 <= n <= 364 + (if leap then 1 else 0) →
  let '(m, d) := month_day n leap in
  1 <= m <= 12
  ∧ 1 <= d <= days_in_month 1 m + (if (m =? 2) && leap then 1 else 0)
  ∧ days_before_month 1 m + (if (2 <? m) && leap then 1 else 0) + d = n + 1.
Proof.
  intros Hn.
  set (P := fun (leap : bool) (n : Z) =>
    let '(m, d) := month_day n leap in
    (1 <=? m) && (m <=? 12) && (1 <=? d)
    && (d <=? days_in_month 1 m + (if (m =? 2) && leap then 1 else 0))
    && (days_before_month 1 m + (if (2 <? m) && leap then 1 else 0) + d =? n + 1)).
  assert (HP : P leap n = true).
  { destruct leap.
    - apply (forall_below (P true) 366); [by vm_compute | lia].
    - apply (forall_below (P false) 365); [by vm_compute | lia]. }
  unfold P in HP. destruct (month_day n leap) as [m d].
  rewrite !andb_true_iff, !Z.leb_le, Z.eqb_eq in HP. lia.
Qed.

Lemma month_day_inv (m d : Z) (leap : bool) :
  1 <= m <= 12 →
  1 <= d <= days_in_month 1 m + (if (m =? 2) && leap then 1 else 0) →
  let n := days_before_month 1 m + (if (2 <? m) && leap then 1 else 0) + d - 1 in
  0 <= n <= 364 + (if leap then 1 else 0) ∧ month_day n leap = (m, d).
Proof.
  intros Hm Hd.
  set (P := fun (leap : bool) (k : Z) =>
    let m := k / 32 + 1 in let d := k mod 32 in
    let n := days_before_month 1 m + (if (2 <? m) && leap then 1 else 0) + d - 1 in
    negb ((1 <=? d) && (d <=? days_in_month 1 m + (if (m =? 2) && leap then 1 else 0)))
    || ((0 <=? n) && (n <=? 364 + (if leap then 1 else 0))
        && (let '(m', d') := month_day n leap in (m' =? m) && (d' =? d)))).
  assert (Hmax : days_in_month 1 m + (if (m =? 2) && leap then 1 else 0) <= 31).
  { assert (m = 1 ∨ m = 2 ∨ m = 3 ∨ m = 4 ∨ m = 5 ∨ m = 6 ∨ m = 7 ∨ m = 8
            ∨ m = 9 ∨ m = 10 ∨ m = 11 ∨ m = 12) as Hc by lia.
    destruct_or!; subst m; destruct leap; by vm_compute. }
  assert (HP : P leap ((m - 1) * 32 + d) = true).
  { destruct leap.
    - apply (forall_below (P true) 384); [by vm_compute | lia].
    - apply (forall_below (P false) 384); [by vm_compute | lia]. }
  unfold P in HP.
  replace (((m - 1) * 32 + d) / 32 + 1) with m in HP
    by (Z.div_mod_to_equations; lia).
  replace (((m - 1) * 32 + d) mod 32) with d in HP
    by (Z.div_mod_to_equations; lia).
  apply orb_true_iff in HP as [HP|HP].
  - apply negb_true_iff, andb_false_iff in HP. rewrite !Z.leb_gt in HP. lia.
  - cbv zeta. destruct (month_day _ leap) as [m' d'].
    rewrite !andb_true_iff, !Z.leb_le, !Z.eqb_eq in HP.
    destruct HP as ((? & ?) & -> & ->). split; [lia | done].
Qed.

Lemma days_in_month_leap y m :
  1 <= m <= 12 →
  days_in_month y m = days_in_month 1 m + (if (m =? 2) && is_leap y then 1 else 0).
Proof.
  intros Hm. unfold days_in_month. change (is_leap 1) with false.
  rewrite andb_false_r. destruct ((m =? 2) && is_leap y) eqn:E; [|lia].
  apply andb_true_iff in E as [->%Z.eqb_eq _]. done.
Qed.

Lemma days_before_month_leap y m :
  days_before_month y m
  = days_before_month 1 m + (if (2 <? m) && is_leap y then 1 else 0).
Proof.
  unfold days_before_month. change (is_leap 1) with false.
  rewrite andb_false_r. lia.
Qed.

Lemma ord2ymd_eq ordinal :
  ord2ymd ordinal
  = let n0 := ordinal - 1 in
    let n400 := n0 / 146097 in
    let r400 := n0 mod 146097 in
    let n100 := r400 / 36524 in
    let r100 := r400 mod 36524 in
    let n4 := r100 / 1461 in
    let r4 := r100 mod 1461 in
    let n1 := r4 / 365 in
    let r1 := r4 mod 365 in
    let y := n400 * 400 + 1 + n100 * 100 + n4 * 4 + n1 in
    if (n1 =? 4) || (n100 =? 4) then (y - 1, 12, 31)
    else let '(m, d) :=
           month_day r1 ((n1 =? 3) && (negb (n4 =? 24) || (n100 =? 3))) in
         (y, m, d).
Proof.
  unfold ord2ymd, month_day. cbv zeta.
  destruct (_ || _); [done|]. by destruct (_ <? _).
Qed.

(** The days before a year, by the cycles of 400, 100, 4 and 1 years. *)
Lemma days_before_year_parts a b c e :
  0 <= b <= 3 → 0 <= c <= 24 → 0 <= e <= 3 →
  days_before_year (400 * a + 100 * b + 4 * c + e + 1)
  = 146097 * a + 36524 * b + 1461 * c + 365 * e.
Proof.
  intros Hb Hc He. unfold days_before_year. cbv zeta.
  replace (400 * a + 100 * b + 4 * c + e + 1 - 1)
    with (400 * a + 100 * b + 4 * c + e) by lia.
  Z.div_mod_to_equations. lia.
Qed.

Lemma is_leap_parts a b c e :
  0 <= b <= 3 → 0 <= c <= 24 → 0 <= e <= 3 →
  is_leap (400 * a + 100 * b + 4 * c + e + 1)
  = (e =? 3) && (negb (c =? 24) || (b =? 3)).
Proof.
  intros Hb Hc He. unfold is_leap.
  destruct (Z.eqb_spec ((400 * a + 100 * b + 4 * c + e + 1) mod 4) 0) as [H4|H4];
  destruct (Z.eqb_spec ((400 * a + 100 * b + 4 * c + e + 1) mod 100) 0) as [H100|H100];
  destruct (Z.eqb_spec ((400 * a + 100 * b + 4 * c + e + 1) mod 400) 0) as [H400|H400];
  destruct (Z.eqb_spec e 3) as [He3|He3];
  destruct (Z.eqb_spec c 24) as [Hc24|Hc24];
  destruct (Z.eqb_spec b 3) as [Hb3|Hb3]; simpl; try reflexivity; exfalso;
    revert H4 H100 H400; Z.div_mod_to_equations; lia.
Qed.

Lemma year_parts (y : Z) :
  1 <= y →
  ∃ a b c e, y = 400 * a + 100 * b + 4 * c + e + 1
             ∧ 0 <= a ∧ 0 <= b <= 3 ∧ 0 <= c <= 24 ∧ 0 <= e <= 3.
Proof.
  intros Hy.
  exists ((y - 1) / 400), ((y - 1) mod 400 / 100), ((y - 1) mod 100 / 4), ((y - 1) mod 4).
  Z.div_mod_to_equations. lia.
Qed.

(** Each day of the calendar is the ordinal of the date [ord2ymd] gives
    for it, and that date is a valid one. *)
Lemma ymd2ord_ord2ymd (n : Z) :
  1 <= n <= max_ordinal →
  let '(y, m, d) := ord2ymd n in
  valid_date y m d = true ∧ ymd2ord y m d = n.
Proof.
  unfold max_ordinal. intros Hn. rewrite ord2ymd_eq. cbv zeta.
  set (n0 := n - 1).
  set (A := n0 / 146097). set (R1 := n0 mod 146097).
  set (B := R1 / 36524). set (R2 := R1 mod 36524).
  set (C := R2 / 1461). set (R3 := R2 mod 1461).
  set (E := R3 / 365). set (R4 := R3 mod 365).
  assert (H1 : n0 = 146097 * A + R1 ∧ 0 <= R1 < 146097)
    by (unfold A, R1; Z.div_mod_to_equations; lia).
  assert (H2 : R1 = 36524 * B + R2 ∧ 0 <= R2 < 36524)
    by (unfold B, R2; Z.div_mod_to_equations; lia).
  assert (H3 : R2 = 1461 * C + R3 ∧ 0 <= R3 < 1461)
    by (unfold C, R3; Z.div_mod_to_equations; lia).
  assert (H4 : R3 = 365 * E + R4 ∧ 0 <= R4 < 365)
    by (unfold E, R4; Z.div_mod_to_equations; lia).
  assert (Hn0 : n = n0 + 1 ∧ 0 <= n0 <= 3652058) by (unfold n0; lia).
  clearbody A R1 B R2 C R3 E R4 n0.
  assert (HA : 0 <= A) by lia.
  assert (HB : 0 <= B <= 4) by lia.
  assert (HC : 0 <= C <= 24) by lia.
  assert (HE : 0 <= E <= 4) by lia.
  destruct (Z.eqb_spec E 4) as [HE4|HE4]; [|destruct (Z.eqb_spec B 4) as [HB4|HB4]];
    cbn [orb].
  - (* the last day of a leap year *)
    assert (HB3 : B <= 3) by lia. assert (HC23 : C <= 23) by lia.
    replace (A * 400 + 1 + B * 100 + C * 4 + E - 1)
      with (400 * A + 100 * B + 4 * C + 3 + 1) by lia.
    unfold valid_date, ymd2ord.
    rewrite days_in_month_leap, days_before_month_leap by lia.
    rewrite days_before_year_parts, is_leap_parts by lia.
    replace (C =? 24) with false by (symmetry; apply Z.eqb_neq; lia).
    change (days_in_month 1 12) with 31. change (days_before_month 1 12) with 334.
    cbn [Z.eqb Pos.eqb andb negb orb Z.ltb Z.compare Pos.compare Pos.compare_cont].
    split; [|lia].
    rewrite !andb_true_iff, !Z.leb_le. lia.
  - (* the last day of a cycle of 400 years *)
    replace (A * 400 + 1 + B * 100 + C * 4 + E - 1)
      with (400 * A + 100 * 3 + 4 * 24 + 3 + 1) by lia.
    unfold valid_date, ymd2ord.
    rewrite days_in_month_leap, days_before_month_leap by lia.
    rewrite days_before_year_parts, is_leap_parts by lia.
    change (days_in_month 1 12) with 31. change (days_before_month 1 12) with 334.
    cbn [Z.eqb Pos.eqb andb negb orb Z.ltb Z.compare Pos.compare Pos.compare_cont].
    split; [|lia].
    rewrite !andb_true_iff, !Z.leb_le. lia.
  - set (leap := (E =? 3) && (negb (C =? 24) || (B =? 3))).
    pose proof (month_day_spec R4 leap) as Hmd.
    destruct (month_day R4 leap) as [m d].
    destruct Hmd as (Hm & Hd & Hsum); [destruct leap; lia|].
    replace (A * 400 + 1 + B * 100 + C * 4 + E)
      with (400 * A + 100 * B + 4 * C + E + 1) by lia.
    unfold valid_date, ymd2ord.
    rewrite days_in_month_leap, days_before_month_leap by lia.
    rewrite days_before_year_parts, is_leap_parts by lia.
    fold leap. split; [|lia].
    rewrite !andb_true_iff, !Z.leb_le. lia.
Qed.

(** A valid date is the date [ord2ymd] gives for its ordinal, which is a
    day of the calendar. *)
Lemma ord2ymd_ymd2ord (y m d : Z) :
  valid_date y m d = true →
  1 <= ymd2ord y m d <= max_ordinal ∧ ord2ymd (ymd2ord y m d) = (y, m, d).
Proof.
  unfold valid_date, max_ordinal. rewrite !andb_true_iff, !Z.leb_le.
  intros (((((Hy1 & Hy2) & Hm1) & Hm2) & Hd1) & Hd2).
  rewrite days_in_month_leap in Hd2 by lia.
  destruct (year_parts y Hy1) as (a & b & c & e & -> & Ha & Hb & Hc & He).
  unfold ymd2ord. rewrite days_before_month_leap.
  rewrite days_before_year_parts by lia.
  rewrite is_leap_parts in * by lia.
  set (leap := (e =? 3) && (negb (c =? 24) || (b =? 3))) in *.
  destruct (month_day_inv m d leap) as [Hdoy Hmd]; [lia | lia |].
  set (doy := days_before_month 1 m + (if (2 <? m) && leap then 1 else 0) + d - 1) in *.
  replace (146097 * a + 36524 * b + 1461 * c + 365 * e
           + (days_before_month 1 m + (if (2 <? m) && leap then 1 else 0)) + d)
    with (146097 * a + 36524 * b + 1461 * c + 365 * e + doy + 1) by (unfold doy; lia).
  clearbody doy.
  assert (Hleap : leap = true ↔ e = 3 ∧ (c ≠ 24 ∨ b = 3)).
  { unfold leap. rewrite andb_true_iff, orb_true_iff, negb_true_iff, !Z.eqb_eq, Z.eqb_neq.
    done. }
  split.
  { destruct leap; lia. }
  rewrite ord2ymd_eq. cbv zeta.
  replace (146097 * a + 36524 * b + 1461 * c + 365 * e + doy + 1 - 1)
    with (146097 * a + 36524 * b + 1461 * c + 365 * e + doy) by lia.
  set (n0 := 146097 * a + 36524 * b + 1461 * c + 365 * e + doy).
  destruct (decide (doy = 365)) as [Hlast|Hlast].
  - (* the last day of a leap year *)
    assert (Hl : leap = true) by (destruct leap; [done | lia]).
    rewrite Hl in Hmd. apply Hleap in Hl as [-> Hcb].
    subst doy. change (month_day 365 true) with (12, 31) in Hmd.
    injection Hmd as <- <-.
    destruct (decide (c = 24)) as [->|Hc24].
    + assert (b = 3) as -> by lia.
      replace (n0 / 146097) with a by (unfold n0; Z.div_mod_to_equations; lia).
      replace (n0 mod 146097) with 146096 by (unfold n0; Z.div_mod_to_equations; lia).
      change (146096 / 36524) with 4. change (146096 mod 36524) with 0.
      change (0 mod 1461) with 0. change (0 / 1461) with 0. change (0 / 365) with 0.
      cbn [Z.eqb Pos.eqb orb]. f_equal. f_equal. lia.
    + replace (n0 / 146097) with a by (unfold n0; Z.div_mod_to_equations; lia).
      replace (n0 mod 146097) with (36524 * b + 1461 * c + 1460)
        by (unfold n0; Z.div_mod_to_equations; lia).
      replace ((36524 * b + 1461 * c + 1460) / 36524) with b
        by (Z.div_mod_to_equations; lia).
      replace ((36524 * b + 1461 * c + 1460) mod 36524) with (1461 * c + 1460)
        by (Z.div_mod_to_equations; lia).
      replace ((1461 * c + 1460) / 1461) with c by (Z.div_mod_to_equations; lia).
      replace ((1461 * c + 1460) mod 1461) with 1460 by (Z.div_mod_to_equations; lia).
      change (1460 / 365) with 4.
      cbn [Z.eqb Pos.eqb orb]. f_equal. f_equal. lia.
  - assert (Hdoy' : 0 <= doy <= 364) by (destruct leap; lia).
    replace (n0 / 146097) with a by (unfold n0; Z.div_mod_to_equations; lia).
    replace (n0 mod 146097) with (36524 * b + 1461 * c + 365 * e + doy)
      by (unfold n0; Z.div_mod_to_equations; lia).
    replace ((36524 * b + 1461 * c + 365 * e + doy) / 36524) with b
      by (Z.div_mod_to_equations; lia).
    replace ((36524 * b + 1461 * c + 365 * e + doy) mod 36524)
      with (1461 * c + 365 * e + doy) by (Z.div_mod_to_equations; lia).
    replace ((1461 * c + 365 * e + doy) / 1461) with c by (Z.div_mod_to_equations; lia).
    replace ((1461 * c + 365 * e + doy) mod 1461) with (365 * e + doy)
      by (Z.div_mod_to_equations; lia).
    replace ((365 * e + doy) / 365) with e by (Z.div_mod_to_equations; lia).
    replace ((365 * e + doy) mod 365) with doy by (Z.div_mod_to_equations; lia).
    replace (e =? 4) with false by (symmetry; apply Z.eqb_neq; lia).
    replace (b =? 4) with false by (symmetry; apply Z.eqb_neq; lia).
    cbn [orb]. fold leap. rewrite Hmd. f_equal. f_equal. lia.
Qed.

End CalendarFacts.

Module TextFacts.

Import ParseFacts.

Lemma append_cons x (a b : string) : String x a +:+ b = String x (a +:+ b).
Proof. reflexivity. Qed.

Lemma append_nil_l (b : string) : "" +:+ b = b.
Proof. reflexivity. Qed.

Ltac push_append := rewrite ?append_cons, ?append_nil_l.

Lemma append_assoc (a b c : string) : (a +:+ b) +:+ c = a +:+ (b +:+ c).
Proof. induction a as [|x a IH]; push_append; [done | by rewrite IH]. Qed.

Lemma append_nil_r (a : string) : a +:+ "" = a.
Proof. induction a as [|x a IH]; push_append; [done | by rewrite IH]. Qed.

Lemma length_append (a b : string) :
  String.length (a +:+ b) = (String.length a + String.length b)%nat.
Proof. induction a as [|x a IH]; push_append; simpl; [done | by rewrite IH]. Qed.

Lemma length_pad w n : String.length (PyStr.pad w n) = w.
Proof.
  revert n. induction w as [|w IH]; intros n; simpl; [done|].
  rewrite length_append, IH. simpl. lia.
Qed.

Lemma all_chars_append P a b :
  all_chars P (a +:+ b) = all_chars P a && all_chars P b.
Proof.
  induction a as [|x a IH]; push_append; simpl; [done | by rewrite IH, andb_assoc].
Qed.

Lemma all_chars_pad P w n :
  (∀ k, P (PyStr.digit_char k) = true) → all_chars P (PyStr.pad w n) = true.
Proof.
  intros HP. revert n. induction w as [|w IH]; intros n; simpl; [done|].
  rewrite all_chars_append, IH. simpl. by rewrite HP.
Qed.

(** A test that every digit passes. *)
Lemma digits_pass (P : ascii → bool) :
  P "0"%char = true → P "1"%char = true → P "2"%char = true → P "3"%char = true →
  P "4"%char = true → P "5"%char = true → P "6"%char = true → P "7"%char = true →
  P "8"%char = true → P "9"%char = true →
  ∀ k, P (PyStr.digit_char k) = true.
Proof.
  intros H0 H1 H2 H3 H4 H5 H6 H7 H8 H9 k.
  destruct (digit_char_cases k) as (r & Hr & _ & ->).
  assert (r = 0 ∨ r = 1 ∨ r = 2 ∨ r = 3 ∨ r = 4 ∨ r = 5 ∨ r = 6 ∨ r = 7
          ∨ r = 8 ∨ r = 9) as Hc by lia.
  destruct_or!; subst r; assumption.
Qed.

(** [strip] leaves a text without spaces as it is. *)
Lemma lstrip_id space s :
  all_chars (fun c => negb (space c)) s = true → PyStr.lstrip space s = s.
Proof.
  destruct s as [|c s]; simpl; [done|].
  intros [Hc _]%andb_true_iff. by apply negb_true_iff in Hc as ->.
Qed.

Lemma rstrip_id space s :
  all_chars (fun c => negb (space c)) s = true → PyStr.rstrip space s = s.
Proof.
  induction s as [|c s IH]; simpl; [done|].
  intros [Hc Hs]%andb_true_iff. rewrite (IH Hs).
  apply negb_true_iff in Hc as ->. by destruct s.
Qed.

Lemma strip_id s :
  all_chars (fun c => negb (PyStr.isspace c)) s = true → PyStr.strip s = s.
Proof. intros H. unfold PyStr.strip. by rewrite (lstrip_id _ _ H), rstrip_id. Qed.

(** The first occurrence of a character that stands after a text without
    it. *)
Lemma contains_char_found c a b :
  PyStr.contains_char c (a +:+ String c b) = true.
Proof.
  induction a as [|x a IH]; push_append; simpl.
  - by rewrite Ascii.eqb_refl.
  - rewrite IH. by destruct (Ascii.eqb c x).
Qed.

Lemma partition_found c a b :
  all_chars (fun x => negb (Ascii.eqb c x)) a = true →
  PyStr.partition c (a +:+ String c b) = (a, b).
Proof.
  induction a as [|x a IH]; push_append; simpl.
  - by rewrite Ascii.eqb_refl.
  - intros [Hx Ha]%andb_true_iff. apply negb_true_iff in Hx as ->.
    by rewrite (IH Ha).
Qed.

Lemma slice_from_append a b : PyStr.slice_from (a +:+ b) (String.length a) = b.
Proof. induction a as [|x a IH]; push_append; simpl; [by destruct b | done]. Qed.

Lemma substring_append a b : String.substring 0 (String.length a) (a +:+ b) = a.
Proof.
  induction a as [|x a IH]; push_append; simpl; [by destruct b | by rewrite IH].
Qed.

(** [digits] on a padded number. *)
Lemma digits_pad_more w k acc v rest :
  0 <= v < 10 ^ Z.of_nat w →
  digits (w + k) acc (PyStr.pad w v +:+ rest)
  = digits k (acc * 10 ^ Z.of_nat w + v) rest.
Proof.
  revert k acc v rest. induction w as [|w IH]; intros k acc v rest Hv.
  - simpl in *. push_append. f_equal. lia.
  - cbn [PyStr.pad]. rewrite append_assoc. push_append.
    replace (S w + k)%nat with (w + S k)%nat by lia.
    rewrite Nat2Z.inj_succ, Z.pow_succ_r in Hv by lia.
    rewrite IH by (Z.div_mod_to_equations; lia).
    cbn [digits]. destruct (digit_char_facts v) as (-> & -> & _).
    f_equal. rewrite Nat2Z.inj_succ, Z.pow_succ_r by lia.
    Z.div_mod_to_equations. lia.
Qed.

Lemma digits_pad w v rest :
  0 <= v < 10 ^ Z.of_nat w →
  digits w 0 (PyStr.pad w v +:+ rest) = Some (v, rest).
Proof.
  intros Hv. replace w with (w + 0)%nat at 1 by lia.
  rewrite digits_pad_more by done. cbn [digits]. repeat f_equal; lia.
Qed.

Lemma int_pad2 v : 0 <= v < 100 → PyStr.int (PyStr.pad 2 v) = Ok v.
Proof.
  intros Hv. change (PyStr.pad 2 v)
    with (String (PyStr.digit_char (v / 10)) (String (PyStr.digit_char v) EmptyString)).
  by rewrite int_two, two_digits.
Qed.

End TextFacts.

Module ZoneFacts.

Import CalendarFacts.

Lemma valid_datetime_fields dt :
  valid_datetime dt = true →
  valid_date (year dt) (month dt) (day dt) = true
  ∧ 0 <= hour dt <= 23 ∧ 0 <= minute dt <= 59 ∧ 0 <= second dt <= 59
  ∧ 0 <= microsecond dt <= 999999.
Proof.
  unfold valid_datetime, valid_time. rewrite !andb_true_iff, !Z.leb_le. tauto.
Qed.

Lemma valid_datetime_intro y m d h mi s us :
  valid_date y m d = true → 0 <= h <= 23 → 0 <= mi <= 59 → 0 <= s <= 59 →
  0 <= us <= 999999 → valid_datetime (mk_datetime y m d h mi s us) = true.
Proof.
  intros Hd ? ? ? ?. unfold valid_datetime, valid_time. simpl.
  rewrite Hd, !andb_true_iff, !Z.leb_le. lia.
Qed.

(** A zone at offset zero leaves the fields as they are. *)
Lemma astimezone_utc_zero dt :
  valid_datetime dt = true → astimezone_utc dt 0 = Ok dt.
Proof.
  intros (Hd & Hh & Hmi & Hs & Hus)%valid_datetime_fields.
  destruct (ord2ymd_ymd2ord _ _ _ Hd) as [Hrange Hback].
  unfold astimezone_utc. cbv zeta.
  set (secs := hour dt * 3600 + minute dt * 60 + second dt - 0).
  assert (Hsecs : 0 <= secs < 86400) by (unfold secs; lia).
  replace (secs / 86400) with 0 by (Z.div_mod_to_equations; lia).
  replace (secs mod 86400) with secs by (Z.div_mod_to_equations; lia).
  rewrite Z.add_0_r, Hback.
  rewrite (proj2 (Z.leb_le _ _) (proj1 Hrange)), (proj2 (Z.leb_le _ _) (proj2 Hrange)).
  simpl. destruct dt as [y m d h mi s us]. simpl in *. f_equal.
  f_equal; unfold secs; Z.div_mod_to_equations; lia.
Qed.

(** The conversion to UTC keeps the instant: the result is the valid
    [datetime] that lies [offset] seconds before the local fields, and the
    conversion overflows exactly when that instant is outside the
    calendar. *)
Lemma astimezone_utc_spec dt offset :
  valid_datetime dt = true →
  let total := seconds_of dt - offset in
  if (86400 <=? total) && (total <? (max_ordinal + 1) * 86400)
  then ∃ r, astimezone_utc dt offset = Ok r ∧ valid_datetime r = true
            ∧ seconds_of r = total ∧ microsecond r = microsecond dt
  else astimezone_utc dt offset = Raise OverflowError.
Proof.
  intros (Hd & Hh & Hmi & Hs & Hus)%valid_datetime_fields total.
  unfold astimezone_utc. cbv zeta.
  set (secs := hour dt * 3600 + minute dt * 60 + second dt - offset).
  set (ordinal := ymd2ord (year dt) (month dt) (day dt) + secs / 86400).
  assert (Htotal : total = ordinal * 86400 + secs mod 86400).
  { unfold total, seconds_of, ordinal, secs. Z.div_mod_to_equations. lia. }
  assert (Hrem : 0 <= secs mod 86400 < 86400) by (apply Z.mod_pos_bound; lia).
  unfold max_ordinal in *.
  destruct ((86400 <=? total) && (total <? (3652059 + 1) * 86400)) eqn:Hin.
  - apply andb_true_iff in Hin as [Hlo%Z.leb_le Hhi%Z.ltb_lt].
    assert (Hord : 1 <= ordinal <= 3652059) by lia.
    rewrite (proj2 (Z.leb_le _ _) (proj1 Hord)), (proj2 (Z.leb_le _ _) (proj2 Hord)).
    simpl. pose proof (ymd2ord_ord2ymd ordinal Hord) as Hback.
    destruct (ord2ymd ordinal) as [[y m] d]. destruct Hback as [Hv Hback].
    eexists. split; [reflexivity|]. split_and!.
    + apply valid_datetime_intro; [done | | | | lia];
        revert Hrem; generalize (secs mod 86400); intros; Z.div_mod_to_equations; lia.
    + unfold seconds_of. simpl. rewrite Hback, Htotal.
      revert Hrem; generalize (secs mod 86400); intros; Z.div_mod_to_equations; lia.
    + done.
  - replace ((1 <=? ordinal) && (ordinal <=? 3652059)) with false; [done|].
    symmetry. apply andb_false_iff. apply andb_false_iff in Hin.
    rewrite !Z.leb_gt in *. rewrite Z.ltb_ge in Hin. lia.
Qed.

(** A valid [datetime] is determined by its instant and its
    microseconds. *)
Lemma seconds_of_inj a b :
  valid_datetime a = true → valid_datetime b = true →
  seconds_of a = seconds_of b → microsecond a = microsecond b → a = b.
Proof.
  intros (Hda & Hha & Hmia & Hsa & _)%valid_datetime_fields
         (Hdb & Hhb & Hmib & Hsb & _)%valid_datetime_fields Hsec Hus.
  destruct (ord2ymd_ymd2ord _ _ _ Hda) as [_ Ha].
  destruct (ord2ymd_ymd2ord _ _ _ Hdb) as [_ Hb].
  unfold seconds_of in Hsec.
  assert (Hord : ymd2ord (year a) (month a) (day a) = ymd2ord (year b) (month b) (day b))
    by lia.
  rewrite Hord, Hb in Ha. injection Ha as Hy Hm Hd.
  destruct a, b; simpl in *. f_equal; lia.
Qed.

End ZoneFacts.

Module ParseTextFacts.

Import ParseFacts TextFacts ZoneFacts CalendarFacts FilterFacts.

Lemma pow10_4 : 10 ^ Z.of_nat 4 = 10000. Proof. reflexivity. Qed.
Lemma pow10_2 : 10 ^ Z.of_nat 2 = 100. Proof. reflexivity. Qed.
Lemma pow10_6 : 10 ^ Z.of_nat 6 = 1000000. Proof. reflexivity. Qed.

Lemma slice_from_0 s : PyStr.slice_from s 0 = s.
Proof. by destruct s. Qed.

Lemma slice_from_1 c s : PyStr.slice_from (String c s) 1 = s.
Proof. by destruct s. Qed.

Ltac step := cbn [mbind option_bind expect starts_with Ascii.eqb Bool.eqb];
             rewrite ?slice_from_1.

Ltac projections :=
  cbn [year month day hour minute second microsecond date_of d_year d_month d_day] in *.

Lemma iso_datetime_naive dt :
  valid_datetime dt = true → iso_datetime (naive_isoformat dt) = Some dt.
Proof.
  intros Hv. pose proof (valid_datetime_fields dt Hv) as (Hd & Hh & Hmi & Hs & Hus).
  destruct (valid_date_bounds _ _ _ Hd) as (Hy & Hm & Hdd).
  destruct dt as [y m d h mi s us]. projections.
  unfold naive_isoformat, date_isoformat, iso_datetime. projections.
  rewrite !append_assoc. push_append.
  rewrite digits_pad by (rewrite pow10_4; lia). step.
  rewrite digits_pad by (rewrite pow10_2; lia). step.
  rewrite digits_pad by (rewrite pow10_2; lia). step.
  unfold iso_hms.
  rewrite digits_pad by (rewrite pow10_2; lia). step.
  rewrite digits_pad by (rewrite pow10_2; lia). step.
  rewrite digits_pad by (rewrite pow10_2; lia). step.
  assert (Hmake : make y m d h mi s us = Ok (mk_datetime y m d h mi s us))
    by (unfold make; unfold valid_datetime in Hv; projections; by rewrite Hv).
  destruct (Z.eqb_spec us 0) as [->|Hne]; step.
  - cbn [PyStr.truthy andb]. by rewrite Hmake.
  - unfold iso_fraction. rewrite <- (append_nil_r (PyStr.pad 6 us)).
    rewrite digits_pad by (rewrite pow10_6; lia). step.
    cbn [PyStr.truthy andb]. by rewrite Hmake.
Qed.


Section Scan.

Context {lib : Parsers}.

Lemma scan_tail_skip body tail s1 rest i :
  all_chars no_sign s1 = true →
  scan_tail body tail i (s1 +:+ rest) = scan_tail body tail (i + String.length s1) rest.
Proof.
  revert i. induction s1 as [|c s1 IH]; intros i; push_append.
  - intros _. simpl. f_equal. lia.
  - intros [Hc Hs]%andb_true_iff. cbn [scan_tail].
    unfold no_sign in Hc. apply negb_true_iff in Hc as ->. rewrite andb_false_r.
    rewrite IH by done. simpl. f_equal. lia.
Qed.

Lemma scan_tail_none body tail s i :
  all_chars no_sign s = true → scan_tail body tail i s = None.
Proof.
  intros H. rewrite <- (append_nil_r s), scan_tail_skip by done. done.
Qed.

End Scan.

Lemma split_last c s :
  all_chars (fun x => negb (Ascii.eqb c x)) s = true → PyStr.split c s = [s].
Proof.
  induction s as [|x s IH]; simpl; [done|].
  intros [Hx Hs]%andb_true_iff. apply negb_true_iff in Hx as ->.
  by rewrite (IH Hs).
Qed.

Lemma split_found c a b :
  all_chars (fun x => negb (Ascii.eqb c x)) a = true →
  PyStr.split c (a +:+ String c b) = a :: PyStr.split c b.
Proof.
  induction a as [|x a IH]; push_append; simpl.
  - by rewrite Ascii.eqb_refl.
  - intros [Hx Ha]%andb_true_iff. apply negb_true_iff in Hx as ->.
    by rewrite (IH Ha).
Qed.

(** The tests that the characters of the texts pass. *)
Lemma digit_no_space k : negb (PyStr.isspace (PyStr.digit_char k)) = true.
Proof. by apply (digits_pass (fun c => negb (PyStr.isspace c))). Qed.

Lemma digit_no_sign k : no_sign (PyStr.digit_char k) = true.
Proof. by apply (digits_pass no_sign). Qed.

Lemma digit_is_not c k :
  PyStr.isdigit c = false → negb (Ascii.eqb c (PyStr.digit_char k)) = true.
Proof.
  intros Hc. destruct (Ascii.eqb_spec c (PyStr.digit_char k)) as [->|]; [|done].
  destruct (digit_char_facts k) as (Hd & _). congruence.
Qed.

Ltac all_chars_text :=
  unfold naive_isoformat, offset_text, date_isoformat;
  repeat first
    [ rewrite all_chars_append
    | progress cbn [all_chars]
    | rewrite all_chars_pad by
        first [ apply digit_no_space | apply digit_no_sign
              | (intros ?; by apply digit_is_not) ] ].

Lemma naive_text_shape dt :
  ∃ hmsf,
    naive_isoformat dt = date_isoformat (date_of dt) +:+ String "T" hmsf
    ∧ all_chars no_sign hmsf = true
    ∧ (0 < String.length hmsf)%nat
    ∧ all_chars (fun c => negb (PyStr.isspace c)) (naive_isoformat dt) = true
    ∧ all_chars (fun x => negb (Ascii.eqb "T" x)) (date_isoformat (date_of dt)) = true
    ∧ (19 <= String.length (naive_isoformat dt))%nat.
Proof.
  eexists. split; [unfold naive_isoformat; push_append; reflexivity|].
  split_and!.
  - destruct (microsecond dt =? 0); all_chars_text; done.
  - rewrite length_append, length_pad. lia.
  - unfold naive_isoformat. destruct (microsecond dt =? 0); all_chars_text; done.
  - all_chars_text. done.
  - unfold naive_isoformat, date_isoformat. rewrite !length_append, !length_pad.
    simpl. lia.
Qed.


Lemma offset_text_chars east oh om :
  all_chars (fun c => negb (PyStr.isspace c)) (offset_text east oh om) = true.
Proof. destruct east; all_chars_text; done. Qed.

Lemma scan_tail_offset dt hmsf east oh om tail :
  valid_datetime dt = true → 0 <= oh <= 23 → 0 <= om <= 59 →
  naive_isoformat dt = date_isoformat (date_of dt) +:+ String "T" hmsf →
  all_chars no_sign hmsf = true → (0 < String.length hmsf)%nat →
  tail = hmsf +:+ offset_text east oh om →
  scan_tail (lib := documented_parsers) (date_isoformat (date_of dt)) tail 0
    (hmsf +:+ offset_text east oh om)
  = Some (astimezone_utc dt (offset_seconds east oh om)).
Proof.
  intros Hv Hoh Hom Hshape Hnosign Hlen ->.
  rewrite scan_tail_skip by done. unfold offset_text at 2.
  cbn [scan_tail Nat.add].
  replace (0 <? String.length hmsf)%nat with true
    by (symmetry; by apply Nat.ltb_lt).
  replace ((if east then "+" else "-") =? "+")%char with east by (by destruct east).
  replace (((if east then "+" else "-") =? "-")%char) with (negb east) by (by destruct east).
  rewrite orb_negb_r. cbn [andb].
  unfold PyStr.slice. rewrite Nat.sub_0_r, substring_append, slice_from_append.
  cbn [fromisoformat documented_parsers].
  replace (date_isoformat (date_of dt) +:+ "T" +:+ hmsf) with (naive_isoformat dt)
    by (by rewrite Hshape).
  rewrite iso_datetime_naive by done. f_equal.
  unfold offset_text. rewrite slice_from_1.
  change (":" +:+ PyStr.pad 2 om) with (String ":" (PyStr.pad 2 om)).
  rewrite split_found by (apply all_chars_pad; intros ?; by apply digit_is_not).
  rewrite split_last by (apply all_chars_pad; intros ?; by apply digit_is_not).
  cbn [nth length Nat.ltb Nat.leb].
  rewrite !int_pad2 by lia. cbn [mbind result_bind].
  unfold timedelta, timezone, offset_seconds. cbv zeta.
  set (secs := (if east then 1 else -1) * oh * 3600 + (if east then 1 else -1) * om * 60).
  assert (Hsecs : -86400 < secs < 86400) by (unfold secs; destruct east; lia).
  replace ((-999999999 <=? secs / 86400) && (secs / 86400 <=? 999999999)) with true.
  2:{ symmetry. rewrite andb_true_iff, !Z.leb_le. Z.div_mod_to_equations. lia. }
  cbn [mbind result_bind].
  replace ((-86400 <? secs) && (secs <? 86400)) with true.
  2:{ symmetry. rewrite andb_true_iff, !Z.ltb_lt. lia. }
  cbn [mbind result_bind]. f_equal. unfold secs. lia.
Qed.

(** A local time followed by an offset: the parser converts the local
    time from the zone at that offset, and does not read the hint. *)
Lemma parse_embedded_offset dt east oh om hint :
  valid_datetime dt = true → 0 <= oh <= 23 → 0 <= om <= 59 →
  _parse_dt_to_utc (lib := documented_parsers)
    (naive_isoformat dt +:+ offset_text east oh om) hint
  = astimezone_utc dt (offset_seconds east oh om).
Proof.
  intros Hv Hoh Hom.
  destruct (naive_text_shape dt) as (hmsf & Hshape & Hnosign & Hlen & Hnospace & HnoT & H19).
  unfold _parse_dt_to_utc.
  rewrite strip_id by (by rewrite all_chars_append, Hnospace, offset_text_chars).
  replace (PyStr.len (naive_isoformat dt +:+ offset_text east oh om) =? 10) with false.
  2:{ symmetry. apply Z.eqb_neq. unfold PyStr.len. rewrite length_append. lia. }
  cbn [scan_seps].
  rewrite Hshape. rewrite !append_assoc. push_append.
  rewrite contains_char_found, partition_found by done.
  by rewrite (scan_tail_offset dt hmsf east oh om).
Qed.


(** A local time without an offset: the parser reads the fields, and
    converts them from the zone of the hint when there is one. *)
Lemma parse_naive dt hint :
  valid_datetime dt = true →
  _parse_dt_to_utc (lib := documented_parsers) (naive_isoformat dt) hint
  = if PyStr.truthy (default EmptyString hint)
    then tz ← _ms_tz_to_offset (default EmptyString hint); astimezone_utc dt tz
    else Ok dt.
Proof.
  intros Hv.
  destruct (naive_text_shape dt) as (hmsf & Hshape & Hnosign & Hlen & Hnospace & HnoT & H19).
  unfold _parse_dt_to_utc. rewrite strip_id by done.
  replace (PyStr.len (naive_isoformat dt) =? 10) with false.
  2:{ symmetry. apply Z.eqb_neq. unfold PyStr.len. lia. }
  cbn [scan_seps]. rewrite Hshape.
  rewrite contains_char_found, partition_found by done.
  rewrite scan_tail_none by done. rewrite <- Hshape.
  cbn [fromisoformat documented_parsers]. by rewrite iso_datetime_naive.
Qed.

(** The offset of a zone name: the hours of the table, or none for a name
    that is not in the table. *)
Lemma ms_tz_to_offset_spec (tz_name : string) :
  let hours := default 0 (_TZ_OFFSETS !! tz_name) in
  _ms_tz_to_offset tz_name = Ok (hours * 3600) ∧ -8 <= hours <= 0.
Proof.
  cbv zeta. unfold _ms_tz_to_offset.
  assert (Hh : -8 <= default 0 (_TZ_OFFSETS !! tz_name) <= 0).
  { destruct (_TZ_OFFSETS !! tz_name) as [h|] eqn:Hl; simpl; [|lia].
    unfold _TZ_OFFSETS in Hl. apply elem_of_list_to_map_2 in Hl.
    repeat (apply elem_of_cons in Hl as [[= -> ->]|Hl]; [lia|]).
    by apply elem_of_nil in Hl. }
  split; [|done]. generalize dependent (default 0 (_TZ_OFFSETS !! tz_name)).
  intros h Hh. unfold timedelta, timezone. cbv zeta.
  replace ((-999999999 <=? (h * 3600 + 0 * 60) / 86400)
           && ((h * 3600 + 0 * 60) / 86400 <=? 999999999)) with true.
  2:{ symmetry. rewrite andb_true_iff, !Z.leb_le. Z.div_mod_to_equations. lia. }
  cbn [mbind result_bind].
  replace ((-86400 <? h * 3600 + 0 * 60) && (h * 3600 + 0 * 60 <? 86400)) with true.
  2:{ symmetry. rewrite andb_true_iff, !Z.ltb_lt. lia. }
  f_equal. lia.
Qed.

Lemma isoformat_text dt : isoformat dt = naive_isoformat dt +:+ offset_text true 0 0.
Proof.
  unfold isoformat, naive_isoformat. rewrite !append_assoc. reflexivity.
Qed.

(** The text [isoformat] writes for a valid UTC instant parses back to
    the instant, whatever the hint. *)
Lemma parse_isoformat dt hint :
  valid_datetime dt = true →
  _parse_dt_to_utc (lib := documented_parsers) (isoformat dt) hint = Ok dt.
Proof.
  intros Hv. rewrite isoformat_text, parse_embedded_offset by (done || lia).
  by apply astimezone_utc_zero.
Qed.

Lemma make_valid y m d h mi s us r :
  make y m d h mi s us = Ok r → valid_datetime r = true.
Proof.
  unfold make. destruct (_ && _) eqn:E; [|done]. by intros [= <-].
Qed.

Lemma make_some_valid y m d h mi s us r :
  match make y m d h mi s us with Ok dt => Some dt | Raise _ => None end = Some r →
  valid_datetime r = true.
Proof.
  destruct (make y m d h mi s us) eqn:E; [|done]. intros [= <-].
  by eapply make_valid.
Qed.

Lemma iso_datetime_valid s r : iso_datetime s = Some r → valid_datetime r = true.
Proof.
  unfold iso_datetime. intros H.
  destruct (digits 4 0 s) as [[y s1]|]; [cbn [mbind option_bind] in H | done].
  destruct (expect "-" s1) as [s1'|]; [cbn [mbind option_bind] in H | done].
  destruct (digits 2 0 s1') as [[m s2]|]; [cbn [mbind option_bind] in H | done].
  destruct (expect "-" s2) as [s2'|]; [cbn [mbind option_bind] in H | done].
  destruct (digits 2 0 s2') as [[d s3]|]; [cbn [mbind option_bind] in H | done].
  destruct s3 as [|c t]; [by eapply make_some_valid|].
  destruct (iso_hms t) as [[[[[h mi] sec] us] rest]|]; [cbn [mbind option_bind] in H | done].
  destruct (_ && _); [done|]. by eapply make_some_valid.
Qed.

Lemma strptime_iso_valid s r : strptime_iso s = Some r → valid_datetime r = true.
Proof.
  unfold strptime_iso. intros H.
  destruct (digits 4 0 s) as [[y s1]|]; [cbn [mbind option_bind] in H | done].
  destruct (expect "-" s1) as [s1'|]; [cbn [mbind option_bind] in H | done].
  destruct (field "-" s1') as [[fm s2]|]; [cbn [mbind option_bind] in H | done].
  destruct (field_value 1 1 12 false fm) as [m|]; [cbn [mbind option_bind] in H | done].
  destruct (field _ s2) as [[fd s3]|]; [cbn [mbind option_bind] in H | done].
  destruct (field_value 1 1 31 true fd) as [d|]; [cbn [mbind option_bind] in H | done].
  destruct (field ":" s3) as [[fh s4]|]; [cbn [mbind option_bind] in H | done].
  destruct (field_value 0 0 23 false fh) as [h|]; [cbn [mbind option_bind] in H | done].
  destruct (field ":" s4) as [[fmi s5]|]; [cbn [mbind option_bind] in H | done].
  destruct (field_value 0 0 59 false fmi) as [mi|]; [cbn [mbind option_bind] in H | done].
  destruct (field_value 0 0 61 false s5) as [sec|]; [cbn [mbind option_bind] in H | done].
  by eapply make_some_valid.
Qed.

(** What the conversion returns is a valid [datetime] when the
    microseconds it copies are. *)
Lemma astimezone_utc_valid dt offset r :
  0 <= microsecond dt <= 999999 →
  astimezone_utc dt offset = Ok r → valid_datetime r = true.
Proof.
  intros Hus. unfold astimezone_utc. cbv zeta.
  set (secs := hour dt * 3600 + minute dt * 60 + second dt - offset).
  set (ordinal := ymd2ord (year dt) (month dt) (day dt) + secs / 86400).
  destruct ((1 <=? ordinal) && (ordinal <=? max_ordinal)) eqn:Hin; [|done].
  apply andb_true_iff in Hin as [Hlo%Z.leb_le Hhi%Z.leb_le].
  pose proof (ymd2ord_ord2ymd ordinal (conj Hlo Hhi)) as Hback.
  destruct (ord2ymd ordinal) as [[y m] d]. destruct Hback as [Hv _].
  intros [= <-]. 
  assert (Hrem : 0 <= secs mod 86400 < 86400) by (apply Z.mod_pos_bound; lia).
  apply valid_datetime_intro; [done | | | | lia];
    revert Hrem; generalize (secs mod 86400); intros; Z.div_mod_to_equations; lia.
Qed.

Lemma scan_tail_valid body tail i rest x r :
  scan_tail (lib := documented_parsers) body tail i rest = Some x → x = Ok r →
  valid_datetime r = true.
Proof.
  revert i. induction rest as [|ch rest IH]; intros i; cbn [scan_tail]; [done|].
  destruct (_ && _); [|apply IH].
  cbn [fromisoformat documented_parsers].
  destruct (iso_datetime _) as [dt|] eqn:Hdt; [|done].
  apply iso_datetime_valid, valid_datetime_fields in Hdt as (_ & _ & _ & _ & Hus).
  intros [= <-] Hr.
  apply bind_ok in Hr as (oh & _ & Hr). apply bind_ok in Hr as (om & _ & Hr).
  apply bind_ok in Hr as (td & _ & Hr). apply bind_ok in Hr as (tz & _ & Hr).
  by eapply astimezone_utc_valid.
Qed.

(** Every instant the parser returns is a valid [datetime]. *)
Lemma parse_valid s hint r :
  _parse_dt_to_utc (lib := documented_parsers) s hint = Ok r → valid_datetime r = true.
Proof.
  unfold _parse_dt_to_utc. destruct (_ =? 10).
  { intros H. apply bind_ok in H as (y & _ & H). apply bind_ok in H as (m & _ & H).
    apply bind_ok in H as (d & _ & H). by eapply make_valid. }
  destruct (scan_seps _ _) as [x|] eqn:Hscan.
  { intros ->. cbn [scan_seps] in Hscan.
    destruct (PyStr.contains_char "T" _); [|done].
    destruct (PyStr.partition "T" _) as [body tail].
    destruct (scan_tail body tail 0 tail) as [x|] eqn:Hx.
    - injection Hscan as ->. by eapply scan_tail_valid.
    - done. }
  cbn [fromisoformat strptime documented_parsers].
  assert (Hdt : ∀ dt, match iso_datetime (PyStr.strip s) with
                      | Some dt => Some dt
                      | None => strptime_iso (PyStr.strip s)
                      end = Some dt → valid_datetime dt = true).
  { intros dt. destruct (iso_datetime _) eqn:E.
    - intros [= <-]. by eapply iso_datetime_valid.
    - apply strptime_iso_valid. }
  destruct (match iso_datetime _ with Some _ => _ | None => _ end) as [dt|]; [|done].
  specialize (Hdt dt eq_refl).
  destruct (PyStr.truthy _); [|by intros [= <-]].
  intros H. apply bind_ok in H as (tz & _ & H).
  apply valid_datetime_fields in Hdt as (_ & _ & _ & _ & Hus).
  by eapply astimezone_utc_valid.
Qed.

End ParseTextFacts.

Section ParserProperties.

Import ParseFacts TextFacts ZoneFacts CalendarFacts ParseTextFacts NormalizerFacts.

(** X16: a local time followed by an offset [+HH:MM] or [-HH:MM] is converted
    to UTC: the result is the valid [datetime] that many seconds before
    (east) or after (west) the local fields, the microseconds are kept and
    the hint is not read. The parser raises [OverflowError] exactly when
    that instant is outside the years 1 to 9999. *)
Theorem embedded_offset_is_applied dt east oh om hint :
  valid_datetime dt = true → 0 <= oh <= 23 → 0 <= om <= 59 →
  let text := naive_isoformat dt +:+ offset_text east oh om in
  let instant := seconds_of dt - offset_seconds east oh om in
  if (86400 <=? instant) && (instant <? (max_ordinal + 1) * 86400)
  then ∃ r, _parse_dt_to_utc (lib := documented_parsers) text hint = Ok r
            ∧ valid_datetime r = true
            ∧ seconds_of r = instant
            ∧ microsecond r = microsecond dt
  else _parse_dt_to_utc (lib := documented_parsers) text hint = Raise OverflowError.
Proof.
  intros Hv Hoh Hom text instant. unfold text.
  rewrite parse_embedded_offset by done.
  exact (astimezone_utc_spec dt (offset_seconds east oh om) Hv).
Qed.

(** X17: a local time without an offset is read in the zone of the hint: as it
    is written when there is no hint or the name is not in the table, and
    that many hours from UTC for a name of the table. *)
Theorem naive_time_is_read_in_hinted_zone dt :
  valid_datetime dt = true →
  let parse := _parse_dt_to_utc (lib := documented_parsers) (naive_isoformat dt) in
  parse None = Ok dt
  ∧ (∀ name, _TZ_OFFSETS !! name = None → parse (Some name) = Ok dt)
  ∧ (∀ name hours, _TZ_OFFSETS !! name = Some hours →
       let instant := seconds_of dt - hours * 3600 in
       -8 <= hours <= 0
       ∧ if (86400 <=? instant) && (instant <? (max_ordinal + 1) * 86400)
         then ∃ r, parse (Some name) = Ok r ∧ valid_datetime r = true
                   ∧ seconds_of r = instant ∧ microsecond r = microsecond dt
         else parse (Some name) = Raise OverflowError).
Proof.
  intros Hv parse. unfold parse. split_and!.
  - by rewrite parse_naive.
  - intros name Hname. rewrite parse_naive by done.
    change (default EmptyString (Some name)) with name.
    destruct (PyStr.truthy name); [|done].
    destruct (ms_tz_to_offset_spec name) as [-> _]. rewrite Hname.
    change (default 0 None * 3600) with 0.
    cbn [mbind result_bind]. by apply astimezone_utc_zero.
  - intros name hours Hname. cbv zeta.
    destruct (ms_tz_to_offset_spec name) as [Htz Hh]. rewrite Hname in Htz, Hh.
    change (default 0 (Some hours)) with hours in Htz, Hh. split; [done|].
    rewrite parse_naive by done.
    change (default EmptyString (Some name)) with name.
    assert (PyStr.truthy name = true) as ->.
    { destruct name; [|done]. by vm_compute in Hname. }
    rewrite Htz. cbn [mbind result_bind].
    exact (astimezone_utc_spec dt (hours * 3600) Hv).
Qed.

(** X18: the instants of every normalized event are valid, and the texts that
    [to_dict] writes for them parse back to the same instants, whatever
    the hint. *)
Theorem normalized_instants_parse_back :
  let parse := _parse_dt_to_utc (lib := documented_parsers) in
  let parses_back (e : NormalizedEvent) :=
    valid_datetime (start_utc e) = true ∧ valid_datetime (end_utc e) = true
    ∧ ∀ hint, parse (ed_start_utc (to_dict e)) hint = Ok (start_utc e)
              ∧ parse (ed_end_utc (to_dict e)) hint = Ok (end_utc e) in
  (∀ items e, e ∈ normalize_google_json (lib := documented_parsers) items → parses_back e)
  ∧ (∀ rows db e, e ∈ normalize_google_csv (lib := documented_parsers) rows db →
                  parses_back e)
  ∧ (∀ value e, e ∈ normalize_microsoft_json (lib := documented_parsers) value →
                parses_back e)
  ∧ (∀ dt hint, valid_datetime dt = true → parse (isoformat dt) hint = Ok dt).
Proof.
  intros parse parses_back.
  assert (Hback : ∀ start_str end_str tz e,
    parsed_as (lib := documented_parsers) start_str end_str tz (start_utc e) (end_utc e) →
    parses_back e).
  { intros start_str end_str tz e (_ & Hs & He).
    assert (Hvs : valid_datetime (start_utc e) = true) by (by eapply parse_valid).
    assert (Hve : valid_datetime (end_utc e) = true).
    { destruct (PyStr.truthy end_str); [by eapply parse_valid | by rewrite He]. }
    split_and!; try done. intros hint. unfold parse. cbn [to_dict ed_start_utc ed_end_utc].
    by rewrite !parse_isoformat. }
  split_and!.
  - intros items e (ev & _ & He)%list_elem_of_omap.
    apply google_json_event_some in He. by eapply Hback.
  - intros rows db e (row & _ & He)%list_elem_of_omap.
    apply google_csv_row_some in He. by eapply Hback.
  - intros value e (ev & _ & He)%list_elem_of_omap.
    apply microsoft_json_event_some in He. by eapply Hback.
  - intros dt hint Hv. by apply parse_isoformat.
Qed.

End ParserProperties.

Import Api.

Module ApiFacts.

Import ParseFacts TextFacts ZoneFacts CalendarFacts ParseTextFacts NormalizerFacts
  AvailabilityFacts FilterFacts UtilFacts.

(** The counting loop: the counter of a key is the number of elements
    with that key, and a key without elements has no counter. *)
Lemma count_loop {A : Type} (key : A → string) (l : list A) (m : gmap string Z) k :
  let n := length (filter (fun x => key x = k) l) in
  foldl (fun m x => <[key x := default 0 (m !! key x) + 1]> m) m l !! k
  = if decide (n = 0%nat) then m !! k else Some (default 0 (m !! k) + Z.of_nat n).
Proof.
  cbv zeta. revert m. induction l as [|x l IH]; intros m; cbn [foldl].
  - by rewrite filter_nil.
  - rewrite IH, filter_cons. destruct (decide (key x = k)) as [<-|Hne].
    + rewrite lookup_insert_eq. cbn [length default].
      rewrite (decide_False (P := S _ = 0%nat)) by lia.
      destruct (decide (length _ = 0%nat)) as [->|_]; f_equal; simpl; lia.
    + rewrite lookup_insert_ne by done. done.
Qed.

Lemma filter_all {A : Type} (P : A → Prop) `{!∀ x, Decision (P x)} (l : list A) :
  (∀ x, x ∈ l → P x) → filter P l = l.
Proof.
  induction l as [|x l IH]; intros Hl; [done|].
  rewrite filter_cons, decide_True by (apply Hl; left).
  f_equal. apply IH. intros y Hy. apply Hl. by right.
Qed.

Section Sources.

Context {lib : Parsers}.

Lemma google_json_event_source ev e : google_json_event ev = Some e → source e = "google".
Proof.
  unfold google_json_event. destruct (negb _); [done|].
  destruct (parse_start_end _ _ _) as [[t1 t2]|?]; [|done]. by intros [= <-].
Qed.

Lemma google_csv_row_source row e : google_csv_row row = Some e → source e = "google_csv".
Proof.
  unfold google_csv_row. destruct (negb _); [done|].
  destruct (parse_start_end _ _ _) as [[t1 t2]|?]; [|done]. by intros [= <-].
Qed.

Lemma microsoft_json_event_source ev e :
  microsoft_json_event ev = Some e → source e = "microsoft".
Proof.
  unfold microsoft_json_event. destruct (scan_extensions _) as [[? ?] ?].
  destruct (negb (PyStr.truthy (microsoft_start_str ev))); [done|].
  destruct (parse_start_end _ _ _) as [[t1 t2]|?]; [|done]. by intros [= <-].
Qed.

End Sources.

Lemma count_step_fst events acc :
  (foldl count_step acc events).1
  = foldl (fun m e => <[source e := default 0 (m !! source e) + 1]> m) acc.1 events.
Proof.
  revert acc. induction events as [|e l IH]; intros [a b]; cbn [foldl]; [done|].
  unfold count_step at 2. rewrite IH. done.
Qed.

Lemma count_step_snd events acc :
  (foldl count_step acc events).2
  = foldl (fun m e => <[availability e := default 0 (m !! availability e) + 1]> m)
      acc.2 events.
Proof.
  revert acc. induction events as [|e l IH]; intros [a b]; cbn [foldl]; [done|].
  unfold count_step at 2. rewrite IH. done.
Qed.

Lemma strptime_date_isoformat y m d :
  valid_date y m d = true →
  strptime_date (date_isoformat (mk_date y m d)) = Some (mk_datetime y m d 0 0 0 0).
Proof.
  intros Hv. destruct (valid_date_bounds _ _ _ Hv) as (Hy & Hm & Hd).
  assert (Hv' := Hv). unfold valid_date in Hv'.
  rewrite !andb_true_iff, !Z.leb_le in Hv'.
  assert (d <= 31).
  { assert (days_in_month y m <= 31); [|lia].
    rewrite days_in_month_leap by lia.
    assert (m = 1 ∨ m = 2 ∨ m = 3 ∨ m = 4 ∨ m = 5 ∨ m = 6 ∨ m = 7 ∨ m = 8
            ∨ m = 9 ∨ m = 10 ∨ m = 11 ∨ m = 12) as Hc by lia.
    destruct_or!; subst m; destruct (is_leap y); by vm_compute. }
  unfold date_isoformat, strptime_date. cbn [d_year d_month d_day].
  push_append.
  rewrite digits_pad by (change (10 ^ Z.of_nat 4) with 10000; lia).
  cbn [mbind option_bind expect Ascii.eqb Bool.eqb].
  unfold field.
  change ("-" +:+ PyStr.pad 2 d) with (String "-" (PyStr.pad 2 d)).
  rewrite contains_char_found, partition_found
    by (apply all_chars_pad; intros ?; by apply digit_is_not).
  cbn [mbind option_bind].
  assert (Hfield : ∀ v lo hi sp, 0 <= v < 100 → lo <= v <= hi →
            field_value 1 lo hi sp (PyStr.pad 2 v) = Some v).
  { intros v lo hi sp Hv1 Hv2.
    change (PyStr.pad 2 v)
      with (String (PyStr.digit_char (v / 10)) (String (PyStr.digit_char v) EmptyString)).
    cbn [field_value].
    destruct (digit_char_facts (v / 10)) as (-> & -> & _).
    destruct (digit_char_facts v) as (-> & -> & _). cbn [andb].
    rewrite two_digits by lia.
    rewrite (proj2 (Z.leb_le lo v)), (proj2 (Z.leb_le v hi)) by lia. done. }
  rewrite !Hfield by lia. cbn [mbind option_bind].
  unfold make. rewrite Hv. done.
Qed.

End ApiFacts.

Section ApiProperties.

Import ApiFacts ParseFacts NormalizerFacts AvailabilityFacts FilterFacts UtilFacts.

Context {lib : Parsers}.

(** X19: the report of [/api/normalize]: the events are those of the Google
    JSON file, then of the CSV file, then of the Microsoft file, a missing
    file giving none; [by_source] counts each feed under its tag and has
    no other entry, [by_availability] counts the events of each
    availability; [count] is the number of events returned and never
    exceeds [total_normalized]; without a date every event is returned. *)
Theorem normalize_report_counts
    google_json google_csv ms_json employees date_str now r :
  api_normalize google_json google_csv ms_json employees date_str now = Ok r →
  let g := from_option normalize_google_json [] google_json in
  let c := from_option (fun rows => normalize_google_csv rows (Some employees)) []
             google_csv in
  let m := from_option normalize_microsoft_json [] ms_json in
  load_events google_json google_csv ms_json employees = g ++ c ++ m
  ∧ total_normalized r = Z.of_nat (length g + length c + length m)
  ∧ nr_count r = Z.of_nat (length (nr_events r))
  ∧ nr_count r <= total_normalized r
  ∧ (PyStr.truthy (default EmptyString date_str) = false →
     nr_events r = map to_dict (g ++ c ++ m))
  ∧ (∀ k, by_source r !! k
          = if decide (k = "google") then counter (length g)
            else if decide (k = "google_csv") then counter (length c)
            else if decide (k = "microsoft") then counter (length m)
            else None)
  ∧ (∀ k, by_availability r !! k
          = counter (length (filter (fun e => availability e = k) (g ++ c ++ m)))).
Proof.
  intros H g c m.
  assert (Hload : load_events google_json google_csv ms_json employees = g ++ c ++ m).
  { unfold load_events, g, c, m.
    destruct google_json, google_csv, ms_json; cbn [from_option app];
      by rewrite <- ?app_assoc, ?app_nil_r. }
  unfold api_normalize in H. rewrite Hload in H.
  set (events := g ++ c ++ m) in *.
  apply bind_ok in H as (result & Hres & H).
  destruct (foldl count_step (∅, ∅) events) as [bs ba] eqn:Hfold.
  injection H as <-. cbn [total_normalized nr_count nr_events by_source by_availability].
  assert (Hlen : (length result <= length events)%nat).
  { destruct (PyStr.truthy _).
    - apply bind_ok in Hres as (q & _ & [= <-]).
      rewrite get_events_for_date_filter, length_map. apply length_filter.
    - injection Hres as <-. by rewrite length_map. }
  assert (Htotal : length events = (length g + length c + length m)%nat)
    by (unfold events; rewrite !length_app; lia).
  split_and!.
  - done.
  - by rewrite <- Htotal.
  - done.
  - lia.
  - intros Hno. rewrite Hno in Hres. by injection Hres as <-.
  - intros k.
    replace bs with (foldl count_step (∅, ∅) events).1 by (by rewrite Hfold).
    rewrite count_step_fst, count_loop. cbn [fst]. rewrite lookup_empty.
    change (default 0 None) with 0.
    assert (Hg : ∀ e, e ∈ g → source e = "google").
    { unfold g. destruct google_json as [data|]; [|by intros ? ?%elem_of_nil].
      intros e (ev & _ & He)%list_elem_of_omap. by apply google_json_event_source in He. }
    assert (Hc : ∀ e, e ∈ c → source e = "google_csv").
    { unfold c. destruct google_csv as [rows|]; [|by intros ? ?%elem_of_nil].
      intros e (row & _ & He)%list_elem_of_omap. by apply google_csv_row_source in He. }
    assert (Hm : ∀ e, e ∈ m → source e = "microsoft").
    { unfold m. destruct ms_json as [data|]; [|by intros ? ?%elem_of_nil].
      intros e (ev & _ & He)%list_elem_of_omap. by apply microsoft_json_event_source in He. }
    unfold events. rewrite !filter_app, !length_app. unfold counter.
    assert (Hz : ∀ n, (if decide (n = 0%nat) then None else Some (0 + Z.of_nat n))
                      = if decide (n = 0%nat) then None else Some (Z.of_nat n))
      by (intros n; destruct (decide _); [done | f_equal; lia]).
    rewrite Hz.
    destruct (decide (k = "google")) as [->|H1];
      [|destruct (decide (k = "google_csv")) as [->|H2];
        [|destruct (decide (k = "microsoft")) as [->|H3]]].
    + rewrite (filter_all _ g) by done.
      rewrite (filter_none _ c) by (intros e He; by rewrite (Hc e He)).
      rewrite (filter_none _ m) by (intros e He; by rewrite (Hm e He)).
      cbn [length]. by rewrite !Nat.add_0_r.
    + rewrite (filter_none _ g) by (intros e He; by rewrite (Hg e He)).
      rewrite (filter_all _ c) by done.
      rewrite (filter_none _ m) by (intros e He; by rewrite (Hm e He)).
      cbn [length]. by rewrite !Nat.add_0_r.
    + rewrite (filter_none _ g) by (intros e He; by rewrite (Hg e He)).
      rewrite (filter_none _ c) by (intros e He; by rewrite (Hc e He)).
      rewrite (filter_all _ m) by done.
      done.
    + rewrite (filter_none _ g) by (intros e He; rewrite (Hg e He); congruence).
      rewrite (filter_none _ c) by (intros e He; rewrite (Hc e He); congruence).
      rewrite (filter_none _ m) by (intros e He; rewrite (Hm e He); congruence).
      done.
  - intros k.
    replace ba with (foldl count_step (∅, ∅) events).2 by (by rewrite Hfold).
    rewrite count_step_snd, count_loop. cbn [snd]. rewrite lookup_empty.
    unfold counter. by destruct (decide _).
Qed.

(** X20: the [date] parameter of the routes: a missing or empty parameter
    means now; the text of a valid date means midnight UTC of that date —
    the instant the normalizer gives to a date-only value — and the
    availability query reports the same text back. *)
Theorem date_parameter_is_midnight_utc y m d now :
  valid_date y m d = true →
  let text := date_isoformat (mk_date y m d) in
  parse_date None now = Ok now
  ∧ parse_date (Some EmptyString) now = Ok now
  ∧ parse_date (Some text) now = Ok (mk_datetime y m d 0 0 0 0)
  ∧ parse_date (Some text) now = _parse_dt_to_utc text None
  ∧ ∀ events roster q,
      parse_date (Some text) now = Ok q →
      av_date (get_available_employees events roster q) = text.
Proof.
  intros Hv text.
  assert (Hparse : parse_date (Some text) now = Ok (mk_datetime y m d 0 0 0 0)).
  { assert (Ht : PyStr.truthy text = true)
      by (unfold text; by rewrite date_isoformat_chars).
    unfold parse_date. change (default EmptyString (Some text)) with text.
    rewrite Ht. cbn [negb]. unfold text. by rewrite strptime_date_isoformat. }
  split_and!; try done.
  - rewrite Hparse. symmetry. unfold text.
    destruct (ParseFacts.valid_date_bounds y m d Hv) as (Hy & Hm & Hd).
    rewrite date_isoformat_chars. unfold _parse_dt_to_utc.
    destruct (digit_char_facts (y / 10 / 10 / 10)) as (_ & _ & S0 & _).
    destruct (digit_char_facts d) as (_ & _ & S9 & _).
    unfold PyStr.strip. cbn [PyStr.lstrip]. rewrite S0.
    cbn [PyStr.rstrip]. rewrite S9.
    change (PyStr.len _ =? 10) with true. cbv iota.
    unfold PyStr.slice. cbn [Nat.sub String.substring].
    rewrite int_four, four_digits by done. cbn [mbind result_bind].
    rewrite !int_two, !two_digits by done. cbn [mbind result_bind].
    unfold make. rewrite Hv. reflexivity.
  - intros events roster q Hq. rewrite Hparse in Hq. injection Hq as <-.
    unfold get_available_employees.
    destruct (foldl _ _ events) as [ids emails].
    by destruct (foldl _ _ roster) as [av un].
Qed.

End ApiProperties.

Module RoundingFacts.

Import FloatFacts.

Lemma value_ge_pos N m e : 1 <= N → value_ge N m e → 0 < m.
Proof.
  unfold value_ge. intros HN. destruct (Z.leb_spec e 0) as [He|He]; intros H.
  - assert (0 < 2 ^ (- e)) by (apply Z.pow_pos_nonneg; lia). nia.
  - assert (0 < 2 ^ e) by (apply Z.pow_pos_nonneg; lia). nia.
Qed.

Lemma value_ge_mono N m m' e : m <= m' → value_ge N m e → value_ge N m' e.
Proof.
  unfold value_ge. intros Hm. destruct (Z.leb_spec e 0) as [He|He]; intros H.
  - lia.
  - assert (0 < 2 ^ e) by (apply Z.pow_pos_nonneg; lia). nia.
Qed.

(** The shift of [shr_fexp] keeps a value that is at least an integer of
    at most 53 bits at least that integer. *)
Lemma shr_ge N m e e2 :
  1 <= N <= 2 ^ 53 → value_ge N m e →
  e2 = Z.max e (Z.max (Zdigits2 m + e - 53) (-1074)) →
  value_ge N (m / 2 ^ (e2 - e)) e2.
Proof.
  intros HN Hge ->.
  pose proof (value_ge_pos N m e (proj1 HN) Hge) as Hm.
  set (f := Z.max (Zdigits2 m + e - 53) (-1074)).
  destruct (Z.max_spec e f) as [[Hlt ->]|[Hle ->]].
  2:{ rewrite Z.sub_diag. change (2 ^ 0) with 1. by rewrite Z.div_1_r. }
  assert (Hp : 0 < 2 ^ (f - e)) by (apply Z.pow_pos_nonneg; lia).
  unfold value_ge in *. destruct (Z.leb_spec f 0) as [Hf|Hf].
  - replace (e <=? 0) with true in Hge by (symmetry; apply Z.leb_le; lia).
    apply Z.div_le_lower_bound; [done|].
    replace (- e) with ((f - e) + - f) in Hge by lia.
    rewrite Z.pow_add_r in Hge by lia. lia.
  - destruct m as [|p|p]; try lia. cbn [Zdigits2] in f.
    assert (Hfe : f = Z.pos (digits2_pos p) + e - 53) by (unfold f; lia).
    destruct (digits_bound p) as [Hlo _].
    assert (Hq : 2 ^ 52 <= Z.pos p / 2 ^ (f - e)).
    { apply Z.div_le_lower_bound; [done|].
      rewrite <- Z.pow_add_r by lia.
      by replace (f - e + 52) with (Z.pos (digits2_pos p) - 1) by lia. }
    assert (H2 : 2 ^ 1 <= 2 ^ f) by (apply Z.pow_le_mono_r; lia).
    change (2 ^ 1) with 2 in H2.
    assert (H53 : 2 ^ 53 = 2 ^ 52 * 2) by reflexivity.
    nia.
Qed.

(** Rounding to binary64 is monotone at the integers of at most 53 bits:
    a value that is at least [N] rounds to a float that is at least [N]. *)
Lemma binary_round_aux_at_least N mx ex lx :
  1 <= N <= 2 ^ 53 → value_ge N mx ex →
  at_least N (binary_round_aux PyFloat.prec PyFloat.emax false mx ex lx).
Proof.
  intros HN Hge. unfold binary_round_aux.
  pose proof (value_ge_pos N mx ex (proj1 HN) Hge) as Hmx.
  destruct (shr_fexp_spec mx ex lx ltac:(lia)) as (mrs1 & e1 & -> & He1 & Hm1).
  rewrite fexp_eq in He1.
  pose proof (shr_ge N mx ex e1 HN Hge He1) as H1. rewrite <- Hm1 in H1.
  pose proof (round_nearest_even_bounds (shr_m mrs1) (loc_of_shr_record mrs1)) as Hr.
  set (mx1 := round_nearest_even (shr_m mrs1) (loc_of_shr_record mrs1)) in *.
  assert (H1' : value_ge N mx1 e1) by (eapply value_ge_mono; [|exact H1]; lia).
  pose proof (value_ge_pos N mx1 e1 (proj1 HN) H1') as Hmx1.
  destruct (shr_fexp_spec mx1 e1 loc_Exact ltac:(lia)) as (mrs2 & e2 & -> & He2 & Hm2).
  rewrite fexp_eq in He2.
  pose proof (shr_ge N mx1 e1 e2 HN H1' He2) as H2. rewrite <- Hm2 in H2.
  pose proof (value_ge_pos N _ e2 (proj1 HN) H2) as Hpos.
  destruct (shr_m mrs2) as [|m|m]; try lia.
  by destruct (e2 <=? _).
Qed.

(** Rounding to binary64 is monotone at a dyadic bound that the format
    holds: a value below [U * 2 ^ (- k)] rounds to a float that is at
    most that. *)
Lemma binary_round_aux_at_most s U k B mx ex lx :
  0 <= mx → 0 <= k <= 1074 → 0 <= B + k <= 53 → U < 2 ^ (B + k) →
  ex <= - k → mx + 1 <= U * 2 ^ (- k - ex) →
  at_most U k (binary_round_aux PyFloat.prec PyFloat.emax s mx ex lx).
Proof.
  intros Hmx Hk HB HU Hex Hlt. unfold binary_round_aux.
  assert (Hbits : ∀ m e, 0 <= m → e <= - k → m <= U * 2 ^ (- k - e) →
                         Z.max (Zdigits2 m + e - 53) (-1074) <= - k).
  { intros m e Hm He Hle.
    assert (Hp : 0 < 2 ^ (- k - e)) by (apply Z.pow_pos_nonneg; lia).
    assert (m < 2 ^ (B - e)).
    { replace (B - e) with (B + k + (- k - e)) by lia.
      rewrite Z.pow_add_r by lia. nia. }
    assert (Zdigits2 m <= B - e) by (apply Zdigits2_le; lia).
    lia. }
  destruct (shr_fexp_spec mx ex lx Hmx) as (mrs1 & e1 & -> & He1 & Hm1).
  rewrite fexp_eq in He1.
  assert (He1' : e1 <= - k) by (pose proof (Hbits mx ex Hmx Hex ltac:(lia)); lia).
  assert (Hp1 : 0 < 2 ^ (e1 - ex)) by (apply Z.pow_pos_nonneg; lia).
  assert (Hm1' : 0 <= shr_m mrs1) by (rewrite Hm1; apply Z.div_pos; lia).
  assert (H1 : shr_m mrs1 + 1 <= U * 2 ^ (- k - e1)).
  { assert (shr_m mrs1 < U * 2 ^ (- k - e1)); [|lia].
    rewrite Hm1. apply Z.div_lt_upper_bound; [done|].
    replace (- k - ex) with ((e1 - ex) + (- k - e1)) in Hlt by lia.
    rewrite Z.pow_add_r in Hlt by lia. lia. }
  pose proof (round_nearest_even_bounds (shr_m mrs1) (loc_of_shr_record mrs1)) as Hr.
  set (mx1 := round_nearest_even (shr_m mrs1) (loc_of_shr_record mrs1)) in *.
  assert (Hmx1 : 0 <= mx1) by lia.
  destruct (shr_fexp_spec mx1 e1 loc_Exact Hmx1) as (mrs2 & e2 & -> & He2 & Hm2).
  rewrite fexp_eq in He2.
  assert (He2' : e2 <= - k) by (pose proof (Hbits mx1 e1 Hmx1 He1' ltac:(lia)); lia).
  assert (Hp2 : 0 < 2 ^ (e2 - e1)) by (apply Z.pow_pos_nonneg; lia).
  assert (H2 : shr_m mrs2 <= U * 2 ^ (- k - e2)).
  { rewrite Hm2. apply Z.div_le_upper_bound; [done|].
    assert (Hpow : 2 ^ (- k - e1) = 2 ^ (e2 - e1) * 2 ^ (- k - e2)).
    { rewrite <- Z.pow_add_r by lia. f_equal. lia. }
    rewrite Hpow in H1. lia. }
  assert (0 <= shr_m mrs2) by (rewrite Hm2; apply Z.div_pos; lia).
  destruct (shr_m mrs2) as [|m|m]; try lia.
  - done.
  - replace (e2 <=? PyFloat.emax - PyFloat.prec) with true
      by (symmetry; apply Z.leb_le; unfold PyFloat.emax, PyFloat.prec; lia).
    by split.
Qed.

(** What the division hands to the rounding: the exponent, and the
    quotient of the shifted numerator. *)
Lemma div_core_value (a b : positive) :
  ∃ mz ez lz,
    SFdiv_core_binary PyFloat.prec PyFloat.emax (Zpos a) 0 (Zpos b) 0 = (mz, ez, lz)
    ∧ ez = Z.min (Z.max (Zpos (digits2_pos a) - Zpos (digits2_pos b) - 53) (-1074)) 0
    ∧ mz = Zpos a * 2 ^ (- ez) / Zpos b.
Proof.
  unfold SFdiv_core_binary.
  set (e' := Z.min _ (0 - 0)).
  assert (He : e' = Z.min (Z.max (Zpos (digits2_pos a) - Zpos (digits2_pos b) - 53) (-1074)) 0).
  { unfold e'. rewrite fexp_eq. cbn [Zdigits2]. lia. }
  set (m' := match 0 - 0 - e' with
             | 0 => Z.pos a
             | Z.pos _ => Z.shiftl (Z.pos a) (0 - 0 - e')
             | Z.neg _ => 0
             end).
  assert (Hm' : m' = Z.pos a * 2 ^ (- e')).
  { unfold m'. destruct (0 - 0 - e') as [|s|s] eqn:Hs; try lia.
    - replace (- e') with 0 by lia. lia.
    - rewrite Z.shiftl_mul_pow2 by lia. f_equal. f_equal. lia. }
  assert (Hq : fst (Z.div_eucl m' (Z.pos b)) = m' / Z.pos b) by reflexivity.
  destruct (Z.div_eucl m' (Z.pos b)) as [q r]. simpl in Hq. subst q.
  eexists _, _, _. split; [reflexivity|]. split; [done|]. by rewrite Hm'.
Qed.

Lemma digits_mono (a b : positive) :
  Zpos a <= Zpos b → Zpos (digits2_pos a) <= Zpos (digits2_pos b).
Proof.
  intros Hab. destruct (digits_bound a) as [Ha _]. destruct (digits_bound b) as [_ Hb].
  assert (H : 2 ^ (Z.pos (digits2_pos a) - 1) < 2 ^ Z.pos (digits2_pos b)) by lia.
  apply Z.pow_lt_mono_r_iff in H; lia.
Qed.

Lemma truediv_at_least (a b : Z) q :
  1 <= b <= a → PyFloat.truediv a b = Ok q → at_least 1 q.
Proof.
  intros [Hb Hab]. unfold PyFloat.truediv.
  destruct b as [|b|b]; try lia. destruct a as [|a|a]; try lia.
  cbn [SFdiv].
  change (Z.to_pos (Z.abs (Z.pos a))) with a.
  change (Z.to_pos (Z.abs (Z.pos b))) with b.
  change (xorb (Z.pos a <? 0) (Z.pos b <? 0)) with false.
  destruct (div_core_value a b) as (mz & ez & lz & -> & Hez & Hmz).
  assert (Hge : value_ge 1 mz ez).
  { unfold value_ge. replace (ez <=? 0) with true by (symmetry; apply Z.leb_le; lia).
    assert (0 < 2 ^ (- ez)) by (apply Z.pow_pos_nonneg; lia).
    rewrite Hmz. apply Z.div_le_lower_bound; [lia | nia]. }
  pose proof (binary_round_aux_at_least 1 mz ez lz ltac:(split; [lia | by vm_compute]) Hge) as H.
  destruct (binary_round_aux _ _ false mz ez lz); intros; simplify_eq; exact H.
Qed.

Lemma mul_100_at_least q :
  at_least 1 q → at_least 100 (PyFloat.mul q (PyFloat.of_int 100)).
Proof.
  change (PyFloat.of_int 100) with (S754_finite false 7036874417766400 (-46)).
  destruct q as [s|[]| |[] m e]; simpl; try done. intros Hq.
  apply binary_round_aux_at_least; [split; [lia | by vm_compute]|].
  rewrite Pos2Z.inj_mul. unfold value_ge in *.
  change (Z.pos 7036874417766400) with (100 * 2 ^ 46).
  destruct (Z.leb_spec e 0) as [He|He].
  - replace (e + -46 <=? 0) with true by (symmetry; apply Z.leb_le; lia).
    replace (- (e + -46)) with (46 + - e) by lia.
    rewrite Z.pow_add_r by lia.
    assert (0 < 2 ^ 46) by (by vm_compute). nia.
  - assert (Hp : 0 < 2 ^ e) by (apply Z.pow_pos_nonneg; lia).
    destruct (Z.leb_spec (e + -46) 0) as [He'|He'].
    + assert (2 ^ (- (e + -46)) <= 2 ^ 46) by (apply Z.pow_le_mono_r; lia).
      assert (0 < 2 ^ 46) by (by vm_compute). nia.
    + assert (0 < 2 ^ (e + -46)) by (apply Z.pow_pos_nonneg; lia).
      assert (0 < 2 ^ 46) by (by vm_compute). nia.
Qed.

Lemma round_at_least x v : at_least 100 x → PyFloat.round x = Ok v → 100 <= v.
Proof.
  destruct x as [s|[]| |[] m e]; simpl; try done. unfold value_ge.
  intros Hx [= <-]. unfold PyFloat.round_half_even.
  destruct e as [|k|k]; simpl in Hx.
  - lia.
  - done.
  - change (- Z.neg k) with (Z.pos k) in Hx.
    assert (Hp : 0 < 2 ^ Z.pos k) by (apply Z.pow_pos_nonneg; lia).
    assert (100 <= Z.pos m / 2 ^ Z.pos k) by (apply Z.div_le_lower_bound; lia).
    destruct (_ ?= _); [destruct (Z.even _)| |]; lia.
Qed.

(** [round(a / b * 100)] is at least 100 when [a] is at least [b]. *)
Lemma round_pct_at_least (a b p : Z) :
  1 <= b <= a → PyFloat.round_pct a b = Ok p → 100 <= p.
Proof.
  intros Hab. unfold PyFloat.round_pct.
  destruct (PyFloat.truediv a b) as [q|e] eqn:Hq; simpl; [|done].
  intros Hr. eapply round_at_least; [|exact Hr].
  apply mul_100_at_least. by eapply truediv_at_least.
Qed.

Lemma truediv_at_most (a b : Z) q :
  0 <= a <= b → 1 <= b → PyFloat.truediv a b = Ok q → at_most 1025 10 q.
Proof.
  intros [Ha Hab] Hb. unfold PyFloat.truediv.
  destruct b as [|b|b]; try lia. destruct a as [|a|a]; try lia.
  { by intros [= <-]. }
  cbn [SFdiv].
  change (Z.to_pos (Z.abs (Z.pos a))) with a.
  change (Z.to_pos (Z.abs (Z.pos b))) with b.
  destruct (div_core_value a b) as (mz & ez & lz & -> & Hez & Hmz).
  pose proof (digits_mono a b Hab) as Hd.
  assert (Hez' : -1074 <= ez <= -53) by lia.
  assert (Hp : 0 < 2 ^ (- ez)) by (apply Z.pow_pos_nonneg; lia).
  assert (Hmz0 : 0 <= mz) by (rewrite Hmz; apply Z.div_pos; lia).
  assert (Hmz1 : mz <= 2 ^ (- ez)).
  { rewrite Hmz. apply Z.div_le_upper_bound; [lia | nia]. }
  assert (Hlt : mz + 1 <= 1025 * 2 ^ (-10 - ez)).
  { assert (Hpow : 2 ^ (- ez) = 2 ^ 10 * 2 ^ (-10 - ez)).
    { rewrite <- Z.pow_add_r by lia. f_equal. lia. }
    assert (0 < 2 ^ (-10 - ez)) by (apply Z.pow_pos_nonneg; lia).
    change (2 ^ 10) with 1024 in Hpow. lia. }
  pose proof (binary_round_aux_at_most (xorb (Z.pos a <? 0) (Z.pos b <? 0))
                1025 10 1 mz ez lz Hmz0 ltac:(lia) ltac:(lia) ltac:(by vm_compute)
                ltac:(lia) Hlt) as H.
  destruct (binary_round_aux _ _ _ mz ez lz); intros; simplify_eq; exact H.
Qed.

Lemma mul_100_at_most q :
  at_most 1025 10 q → at_most 401 2 (PyFloat.mul q (PyFloat.of_int 100)).
Proof.
  change (PyFloat.of_int 100) with (S754_finite false 7036874417766400 (-46)).
  destruct q as [s|s| |s m e]; simpl; try done. intros [He Hm].
  apply (binary_round_aux_at_most _ 401 2 7); try lia.
  change (- (10)) with (-10) in *. change (- (2)) with (-2).
  rewrite Pos2Z.inj_mul.
  change (Z.pos 7036874417766400) with (100 * 2 ^ 46).
  set (P := 2 ^ (-10 - e)) in *.
  assert (HP : 0 < P) by (apply Z.pow_pos_nonneg; lia).
  assert (Hpow : 2 ^ (-2 - (e + -46)) = 2 ^ 54 * P).
  { unfold P. rewrite <- Z.pow_add_r by lia. f_equal. lia. }
  rewrite Hpow.
  change (2 ^ 54) with (256 * 2 ^ 46).
  assert (0 < 2 ^ 46) by (by vm_compute). nia.
Qed.

Lemma round_at_most x v : at_most 401 2 x → PyFloat.round x = Ok v → v <= 100.
Proof.
  destruct x as [s|s| |s m e]; simpl; try done.
  { by intros _ [= <-]. }
  intros [He Hm] [= <-].
  pose proof (round_half_even_nonneg m e) as H0.
  assert (H : PyFloat.round_half_even m e <= 100); [|destruct s; lia].
  clear H0. unfold PyFloat.round_half_even.
  destruct e as [|k|k]; try lia.
  change (- (2)) with (-2) in *.
  set (P := 2 ^ (-2 - Z.neg k)) in *.
  assert (HP : 0 < P) by (apply Z.pow_pos_nonneg; lia).
  assert (Hd : 2 ^ Z.pos k = 4 * P).
  { unfold P. change 4 with (2 ^ 2). rewrite <- Z.pow_add_r by lia. f_equal. lia. }
  rewrite Hd. cbv zeta.
  pose proof (Z.div_mod (Z.pos m) (4 * P) ltac:(lia)) as Hdm.
  pose proof (Z.mod_pos_bound (Z.pos m) (4 * P) ltac:(lia)) as Hr.
  set (q := Z.pos m / (4 * P)) in *. set (r := Z.pos m mod (4 * P)) in *.
  clearbody q r P. clear Hd.
  assert (Hq : q <= 100) by nia.
  destruct (Z.compare_spec (2 * r) (4 * P)) as [Hc|Hc|Hc].
  - assert (q <= 99) by nia. destruct (Z.even q); lia.
  - done.
  - assert (q <= 99) by nia. lia.
Qed.

(** [round(a / b * 100)] is at most 100 when [a] is at most [b]. *)
Lemma round_pct_at_most (a b p : Z) :
  0 <= a <= b → 1 <= b → PyFloat.round_pct a b = Ok p → p <= 100.
Proof.
  intros Hab Hb. unfold PyFloat.round_pct.
  destruct (PyFloat.truediv a b) as [q|e] eqn:Hq; simpl; [|done].
  intros Hr. eapply round_at_most; [|exact Hr].
  apply mul_100_at_most. by eapply truediv_at_most.
Qed.

End RoundingFacts.

Section PercentageProperties.

Import ListFacts FloatFacts ReassignFacts AvailabilityFacts UtilFacts FilterFacts
  SuggestFacts RoundingFacts.

(** X21: a member whose active tasks reach [max(max_tasks_per_day, 1)] shows a
    utilization of exactly 100, whatever the rounding of the quotient; a
    member below it shows the rounded percentage itself, so that the cap
    of line 81 only acts on an overloaded member; and the free capacity is
    0 exactly from [max_tasks_per_day] tasks on. *)
Theorem full_load_is_100_percent events employees tasks q u :
  get_utilization events employees tasks q = Ok u →
  ∀ e, e ∈ u →
    let max_tasks := default 4 (max_tasks_per_day (u_emp e)) in
    (Z.max max_tasks 1 <= active_task_count e → utilization_pct e = 100)
    ∧ (active_task_count e <= Z.max max_tasks 1 →
       PyFloat.round_pct (active_task_count e) (Z.max max_tasks 1)
       = Ok (utilization_pct e))
    ∧ (free_capacity e = 0 ↔ max_tasks <= active_task_count e).
Proof.
  intros Hu e He max_tasks.
  destruct (get_utilization_entry _ _ _ _ _ _ Hu He) as [_ Hent].
  apply utilization_entry_ok in Hent as [_ _ _ Hcount (pct & Hpct & Hutil) Hfree].
  fold max_tasks in Hpct, Hfree.
  split_and!.
  - intros Hfull. apply round_pct_at_least in Hpct; lia.
  - intros Hroom. rewrite Hpct. f_equal.
    apply round_pct_at_most in Hpct; lia.
  - lia.
Qed.

(** X22: [skill_match_pct] of a recommended candidate is a percentage: between
    0 and 100, 0 for a candidate without a matching skill, and exactly 100
    for a candidate who lacks none of the skills a task requires. *)
Theorem skill_match_pct_is_a_percentage events employees tasks q top_n r :
  suggest_reassignments events employees tasks q top_n = Ok r →
  ∀ s c, s ∈ suggestions r → c ∈ recommendations s →
    0 <= skill_match_pct c <= 100
    ∧ (skill_match_count c = 0 → skill_match_pct c = 0)
    ∧ (skill_gap c = [] → required_set (s_task s) ≠ ∅ → skill_match_pct c = 100).
Proof.
  intros (u & sl & Hu & Hm & ->)%suggest_reassignments_report s c. simpl.
  intros Hs Hc. rewrite sort_by_perm in Hs.
  destruct (mapM_ok_elem _ _ _ _ Hm Hs) as (task & _ & Hok).
  pose proof (suggestion_of_task _ _ _ _ _ _ _ Hok) as Htask.
  destruct (recommended_candidate _ _ _ _ _ _ _ _ Hok Hc) as (emp & _ & Hcand).
  rewrite Htask, serialize_task_required.
  unfold candidate_of in Hcand. destruct (String.eqb _ _); [done|].
  destruct (PyFloat.round_pct _ _) as [pct|x] eqn:Hpct; simpl in Hcand; [|done].
  injection Hcand as <-. simpl.
  set (required := required_set task) in *.
  set (have := skill_set (u_emp emp)) in *.
  assert (Hsub : required ∩ have ⊆ required)
    by (intros y Hy; by apply elem_of_intersection in Hy as [? _]).
  pose proof (subseteq_size _ _ Hsub) as Hle.
  split_and!.
  - eapply round_pct_nonneg; [| |exact Hpct]; lia.
  - eapply round_pct_at_most; [| |exact Hpct]; lia.
  - intros Hzero. rewrite Hzero in Hpct. apply round_pct_zero in Hpct; [done | lia].
  - intros Hgap Hreq.
    assert (Hnone : size (required ∖ have) = 0%nat).
    { change (size (required ∖ have)) with (length (elements (required ∖ have))).
      by rewrite <- (Permutation_length (sort_by_perm String.leb (fun k => k) _)), Hgap. }
    pose proof (size_difference_alt (C := gset string) required have) as Hdiff.
    assert (Hpos : size required ≠ 0%nat) by (by rewrite size_empty_iff; intros ?%leibniz_equiv).
    assert (100 <= pct) by (eapply round_pct_at_least; [|exact Hpct]; lia).
    assert (pct <= 100) by (eapply round_pct_at_most; [| |exact Hpct]; lia).
    lia.
Qed.

End PercentageProperties.

(** ** The further properties on the scenario *)

Import Scenario.

(** X2 on a file of three rows: the row that holds two dates gives an
    all-day event that starts at midnight, the row without a start gives
    none, and the row that holds a time gives a timed event. *)
Lemma csv_all_day_starts_at_midnight_witness :
  let dated : sdict :=
    {["id" := "r1"; "summary" := "PTO"; "start" := "2026-03-02"; "end" := "2026-03-03"]} in
  let blank : sdict := {["id" := "r2"; "summary" := "Lunch"]} in
  let timed : sdict :=
    {["id" := "r3"; "summary" := "Standup"; "start" := "2026-03-02T09:00:00"]} in
  ∃ e1 e3,
    normalize_google_csv (lib := documented_parsers) [dated; blank; timed] None = [e1; e3]
    ∧ event_id e1 = "r1" ∧ is_all_day e1 = true
    ∧ start_utc e1 = mk_datetime 2026 3 2 0 0 0 0
    ∧ event_id e3 = "r3" ∧ is_all_day e3 = false
    ∧ start_utc e3 = mk_datetime 2026 3 2 9 0 0 0
    ∧ (is_all_day e1 = true ↔ PyStr.len (PyStr.strip (get dated "start" "")) = 10)
    ∧ (is_all_day e3 = true ↔ PyStr.len (PyStr.strip (get timed "start" "")) = 10).
Proof.
  intros dated blank timed.
  pose proof (csv_all_day_starts_at_midnight (lib := documented_parsers)
                [dated; blank; timed] None) as H.
  do 2 eexists.
  split; [vm_compute; reflexivity|].
  do 6 (split; [reflexivity|]).
  match type of H with
  | Forall2 _ ?l ?r =>
      assert (Hl : l = [dated; timed]) by (vm_compute; reflexivity);
      rewrite Hl in H
  end.
  apply Forall2_cons_1 in H as [(_ & _ & _ & H1 & _) H].
  apply Forall2_cons_1 in H as [(_ & _ & _ & H3 & _) _].
  split; [exact H1 | exact H3].
Defined.

(** X3 on a Microsoft event without extensions that shows as tentative:
    it is attributed to its organizer, Bob, and blocks him on its day. *)
Lemma microsoft_event_blocks_organizer_witness :
  let source :=
    mk_MicrosoftEvent {["id" := "m1"; "subject" := "Review"; "showAs" := "tentative"]}
      None (Some {["emailAddress" := {["address" := "bob@example.com"]}]}) None
      (Some {["dateTime" := "2026-03-02T10:00:00"; "timeZone" := "UTC"]})
      (Some {["dateTime" := "2026-03-02T11:00:00"; "timeZone" := "UTC"]}) in
  let e :=
    mk_NormalizedEvent "m1" "microsoft" "" "bob@example.com" "Review" "busy"
      (mk_datetime 2026 3 2 10 0 0 0) (mk_datetime 2026 3 2 11 0 0 0) false in
  microsoft_json_event (lib := documented_parsers) source = Some e
  ∧ bob ∈ map ae_emp (unavailable (get_available_employees [e] roster day)).
Proof.
  intros source e.
  assert (He : microsoft_json_event (lib := documented_parsers) source = Some e)
    by (vm_compute; reflexivity).
  split; [exact He|].
  destruct (microsoft_event_blocks_organizer (lib := documented_parsers) source e He)
    as (_ & _ & _ & Hblocks).
  { constructor. }
  apply (Hblocks [e] roster day bob).
  - left.
  - right; left.
  - reflexivity.
  - discriminate.
  - reflexivity.
Defined.

(** X4 on an event that ends the day before it starts: appended to the
    events of the scenario it changes neither query. *)
Lemma reversed_event_is_never_seen_witness :
  let ev :=
    mk_NormalizedEvent "ev1" "google" "1" "" "" "busy"
      (mk_datetime 2026 3 2 0 0 0 0) (mk_datetime 2026 3 1 0 0 0 0) true in
  date_ltb (date_of (end_utc ev)) (date_of (start_utc ev)) = true
  ∧ get_events_for_date (events ++ [ev]) day = get_events_for_date events day
  ∧ get_available_employees (events ++ [ev]) roster day
    = get_available_employees events roster day.
Proof.
  intros ev.
  destruct (reversed_event_is_never_seen ev eq_refl) as (_ & Hev & Hav).
  split; [reflexivity|]. split.
  - rewrite (Hev events [] day). by rewrite app_nil_r.
  - rewrite (Hav events [] roster day). by rewrite app_nil_r.
Defined.

(** X6 on the scenario: the list has the four members, and Bob, Carol and
    Dave, who are available, stand before Alice. *)
Lemma utilization_is_sorted_roster_witness :
  ∃ u,
    get_utilization events roster task_list day = Ok u
    ∧ map (fun e => id (u_emp e)) u = [3; 2; 4; 1]
    ∧ map u_emp u ≡ₚ roster
    ∧ length u = length roster
    ∧ StronglySorted less_loaded u.
Proof.
  eexists.
  split; [vm_compute; reflexivity|].
  split; [reflexivity|].
  exact (utilization_is_sorted_roster events roster task_list day _ eq_refl).
Defined.

Lemma roster_ids_distinct : NoDup (map id roster).
Proof. apply (bool_decide_unpack (NoDup (map id roster))). by vm_compute. Defined.

(** X7 on the scenario: Alice's entry is not available, and the query
    lists her as unavailable. *)
Lemma is_available_matches_query_witness :
  NoDup (map id roster)
  ∧ ∃ u e,
      get_utilization events roster task_list day = Ok u
      ∧ e ∈ u ∧ u_emp e = alice ∧ is_available e = false
      ∧ u_emp e ∈ map ae_emp (unavailable (get_available_employees events roster day)).
Proof.
  split; [exact roster_ids_distinct|].
  do 2 eexists.
  split; [vm_compute; reflexivity|].
  split; [do 3 right; left|].
  split; [reflexivity|]. split; [reflexivity|].
  apply (is_available_matches_query events roster task_list day _
           roster_ids_distinct eq_refl).
  - do 3 right. left.
  - reflexivity.
Defined.

(** X8 on the scenario: Bob's entry counts his one timed event, though it
    is free. *)
Lemma calendar_count_is_timed_events_witness :
  ∃ u e,
    get_utilization events roster task_list day = Ok u
    ∧ e ∈ u ∧ u_emp e = bob ∧ calendar_event_count e = 1
    ∧ calendar_event_count e
      = Z.of_nat (length (timed_events_of events (date_of day) (u_emp e))).
Proof.
  do 2 eexists.
  split; [vm_compute; reflexivity|].
  split; [right; left|].
  split; [reflexivity|]. split; [reflexivity|].
  apply (calendar_count_is_timed_events events roster task_list day _ eq_refl).
  right. left.
Defined.

(** X9 on the scenario: Carol has no active task, utilization 0 and the
    default four tasks free. *)
Lemma idle_member_has_zero_utilization_witness :
  ∃ u e,
    get_utilization events roster task_list day = Ok u
    ∧ e ∈ u ∧ u_emp e = carol
    ∧ active_tasks_of task_list (u_emp e) = []
    ∧ active_task_count e = 0 ∧ active_tasks e = [] ∧ utilization_pct e = 0
    ∧ free_capacity e = Z.max 0 (default 4 (max_tasks_per_day (u_emp e))).
Proof.
  do 2 eexists.
  split; [vm_compute; reflexivity|].
  split; [left|].
  split; [reflexivity|]. split; [reflexivity|].
  apply (idle_member_has_zero_utilization events roster task_list day _ eq_refl).
  - left.
  - reflexivity.
Defined.

(** X10 on the scenario: the four active tasks are counted once each. *)
Lemma active_tasks_are_counted_once_witness :
  NoDup (map id roster)
  ∧ ∃ u,
      get_utilization events roster task_list day = Ok u
      ∧ total (map active_task_count u) = 4
      ∧ total (map active_task_count u)
        = Z.of_nat (length (assigned_in_roster roster task_list)).
Proof.
  split; [exact roster_ids_distinct|].
  eexists.
  split; [vm_compute; reflexivity|].
  split; [reflexivity|].
  exact (active_tasks_are_counted_once events roster task_list day _
           roster_ids_distinct eq_refl).
Defined.

(** X11 on the scenario: the report lists the four active tasks, the two
    of Alice first, the critical one before the high one. *)
Lemma report_covers_active_tasks_witness :
  ∃ r,
    suggest_reassignments events roster task_list day 3 = Ok r
    ∧ map (fun s => (t_id (s_task s), needs_reassignment s)) (suggestions r)
      = [("T3", true); ("T1", true); ("T2", false); ("T4", false)]
    ∧ total_tasks_checked r = 4 ∧ sg_needs_reassignment r = 2
    ∧ StronglySorted triage_before (suggestions r).
Proof.
  eexists.
  split; [vm_compute; reflexivity|].
  split; [reflexivity|]. split; [reflexivity|]. split; [reflexivity|].
  destruct (report_covers_active_tasks events roster task_list day 3 _ eq_refl)
    as (_ & _ & _ & Hsorted & _).
  exact Hsorted.
Defined.

(** X12 on the scenario: the suggestions of the report are flagged by the
    availability of their assignees. *)
Lemma flagged_iff_assignee_unavailable_witness :
  ∃ r u,
    suggest_reassignments events roster task_list day 3 = Ok r
    ∧ get_utilization events roster task_list day = Ok u
    ∧ ∀ s, s ∈ suggestions r →
        (needs_reassignment s = true
         ↔ ∃ e, e ∈ u ∧ is_available e = false
                ∧ t_assigned_to_id (s_task s) = Some (id (u_emp e)))
        ∧ (needs_reassignment s = false → recommendations s = [] ∧ reason s = None).
Proof.
  destruct (flagged_iff_assignee_unavailable events roster task_list day 3 _ eq_refl)
    as (u & Hu & Hflag).
  eexists _, u.
  split; [vm_compute; reflexivity|].
  split; [exact Hu|].
  intros s Hs. destruct (Hflag s Hs) as (H1 & H2 & _). by split.
Defined.

(** X13 on the scenario: for T1, which needs payments and api, Bob lacks
    api. *)
Lemma skill_gap_is_what_is_missing_witness :
  ∃ r s c,
    suggest_reassignments events roster task_list day 3 = Ok r
    ∧ s ∈ suggestions r ∧ t_id (s_task s) = "T1"
    ∧ c ∈ recommendations s ∧ se_id (c_emp c) = 2
    ∧ skill_gap c = ["api"]
    ∧ (∀ k, k ∈ skill_gap c
            ↔ k ∈ required_set (s_task s)
              ∧ k ∉ (list_to_set (se_skills (c_emp c)) : gset string))
    ∧ skill_match_count c + Z.of_nat (length (skill_gap c))
      = Z.of_nat (size (required_set (s_task s))).
Proof.
  do 3 eexists.
  split; [vm_compute; reflexivity|].
  split; [right; left|].
  split; [reflexivity|].
  split; [right; left|].
  split; [reflexivity|]. split; [reflexivity|].
  destruct (skill_gap_is_what_is_missing events roster task_list day 3 _ eq_refl
              _ _ ltac:(right; left) ltac:(right; left))
    as (Hgap & _ & _ & Hcount & _).
  split; [exact Hgap | exact Hcount].
Defined.

(** X14 on the scenario, with the store itself as the file: after T1 goes
    to Carol the store reads back with T1 assigned to her. *)
Lemma reassignment_is_read_back_witness :
  ∃ audit file',
    execute_reassignment (fun f => f) (fun s => s) "T1" 3 "cover" day day store
    = (Ok audit, file')
    ∧ employees file' = employees store
    ∧ map t_id (tasks file') = map t_id (tasks store)
    ∧ ∃ task',
        find (fun t => String.eqb (t_id t) "T1") (tasks file') = Some task'
        ∧ t_assigned_to_id task' = Some 3
        ∧ t_reassignment_reason task' = Some "cover"
        ∧ t_last_reassigned task' = Some (isoformat day).
Proof.
  do 2 eexists.
  split; [reflexivity|].
  destruct (reassignment_is_read_back (fun f : Store => f) (fun s : Store => s)
              (fun s => eq_refl) "T1" 3 "cover" day day store _ _ eq_refl)
    as (He & Hids & Htask & _).
  split; [exact He|]. split; [exact Hids | exact Htask].
Defined.

(** X15 on the scenario: moving T1 from Alice to Carol takes one active
    task from Alice and gives one to Carol. *)
Lemma reassignment_moves_one_task_witness :
  ∃ audit file',
    execute_reassignment (fun f => f) (fun s => s) "T1" 3 "cover" day day store
    = (Ok audit, file')
    ∧ length (active_tasks_of (tasks store) alice) = 2%nat
    ∧ length (active_tasks_of (tasks file') alice) = 1%nat
    ∧ length (active_tasks_of (tasks file') carol) = 1%nat
    ∧ ∃ task,
        find (fun t => String.eqb (t_id t) "T1") (tasks store) = Some task
        ∧ ∀ emp,
            Z.of_nat (length (active_tasks_of (tasks file') emp))
            = Z.of_nat (length (active_tasks_of (tasks store) emp))
              + (if is_active task
                 then (if bool_decide (id emp = 3) then 1 else 0)
                      - (if bool_decide (t_assigned_to_id task = Some (id emp))
                         then 1 else 0)
                 else 0).
Proof.
  do 2 eexists.
  split; [reflexivity|].
  split; [reflexivity|]. split; [reflexivity|]. split; [reflexivity|].
  exact (reassignment_moves_one_task (fun f : Store => f) (fun s : Store => s)
           (fun s => eq_refl) "T1" 3 "cover" day day store _ _ eq_refl).
Defined.

(** X16 at half past eleven of 2026-02-24, five hours west: half past
    four in the afternoon in UTC, whatever the hint. *)
Lemma embedded_offset_is_applied_witness :
  ∃ r, _parse_dt_to_utc (lib := documented_parsers) "2026-02-24T11:30:00-05:00"
         (Some "Pacific Standard Time") = Ok r
       ∧ valid_datetime r = true
       ∧ seconds_of r = seconds_of (mk_datetime 2026 2 24 16 30 0 0)
       ∧ microsecond r = 0.
Proof.
  exact (embedded_offset_is_applied (mk_datetime 2026 2 24 11 30 0 0) false 5 0
           (Some "Pacific Standard Time") eq_refl ltac:(lia) ltac:(lia)).
Defined.

(** X17 at half past eleven of 2026-02-24: read as it is without a hint,
    and eight hours later with the Pacific hint. *)
Lemma naive_time_is_read_in_hinted_zone_witness :
  valid_datetime (mk_datetime 2026 2 24 11 30 0 0) = true
  ∧ _parse_dt_to_utc (lib := documented_parsers) "2026-02-24T11:30:00" None
    = Ok (mk_datetime 2026 2 24 11 30 0 0)
  ∧ ∃ r, _parse_dt_to_utc (lib := documented_parsers) "2026-02-24T11:30:00"
           (Some "Pacific Standard Time") = Ok r
         ∧ valid_datetime r = true
         ∧ seconds_of r = seconds_of (mk_datetime 2026 2 24 19 30 0 0)
         ∧ microsecond r = 0.
Proof.
  destruct (naive_time_is_read_in_hinted_zone (mk_datetime 2026 2 24 11 30 0 0) eq_refl)
    as (Hnone & _ & Hzone).
  split; [reflexivity|]. split; [exact Hnone|].
  exact (proj2 (Hzone "Pacific Standard Time" (-8) eq_refl)).
Defined.

(** X19 on a Google file of one event and a CSV file of one row, without
    a Microsoft file and without a date. *)
Lemma normalize_report_counts_witness :
  let row : sdict :=
    {["id" := "r1"; "summary" := "PTO"; "start" := "2026-03-02"; "end" := "2026-03-03"]} in
  ∃ r,
    api_normalize (lib := documented_parsers) (Some (Some [reversed_google_event]))
      (Some [row]) None roster None day = Ok r
    ∧ total_normalized r = 2 ∧ nr_count r = 2
    ∧ by_source r !! "google" = Some 1
    ∧ by_source r !! "google_csv" = Some 1
    ∧ by_source r !! "microsoft" = None
    ∧ nr_count r <= total_normalized r.
Proof.
  intros row.
  eexists.
  split; [vm_compute; reflexivity|].
  destruct (normalize_report_counts (lib := documented_parsers)
              (Some (Some [reversed_google_event])) (Some [row]) None roster None day
              _ eq_refl)
    as (_ & Htotal & Hcount & Hle & _ & Hsrc & _).
  split; [exact Htotal|]. split; [reflexivity|].
  split; [exact (Hsrc "google")|]. split; [exact (Hsrc "google_csv")|].
  split; [exact (Hsrc "microsoft") | exact Hle].
Defined.

(** X20 at 2026-03-02: the parameter is midnight UTC of that day. *)
Lemma date_parameter_is_midnight_utc_witness :
  valid_date 2026 3 2 = true
  ∧ parse_date (Some "2026-03-02") day = Ok (mk_datetime 2026 3 2 0 0 0 0)
  ∧ parse_date (Some "2026-03-02") day
    = _parse_dt_to_utc (lib := documented_parsers) "2026-03-02" None.
Proof.
  destruct (date_parameter_is_midnight_utc (lib := documented_parsers) 2026 3 2 day eq_refl)
    as (_ & _ & Hparse & Hsame & _).
  split; [reflexivity|]. split; [exact Hparse | exact Hsame].
Defined.

(** X21 on the scenario: Dave, with room for one task and one active
    task, shows 100 and has nothing free. *)
Lemma full_load_is_100_percent_witness :
  ∃ u e,
    get_utilization events roster task_list day = Ok u
    ∧ e ∈ u ∧ u_emp e = dave ∧ active_task_count e = 1
    ∧ Z.max (default 4 (max_tasks_per_day (u_emp e))) 1 <= active_task_count e
    ∧ utilization_pct e = 100
    ∧ (free_capacity e = 0
       ↔ default 4 (max_tasks_per_day (u_emp e)) <= active_task_count e).
Proof.
  do 2 eexists.
  split; [vm_compute; reflexivity|].
  split; [do 2 right; left|].
  split; [reflexivity|]. split; [reflexivity|].
  destruct (full_load_is_100_percent events roster task_list day _ eq_refl
              _ ltac:(do 2 right; left))
    as (Hfull & _ & Hfree).
  split; [by vm_compute|]. split; [|exact Hfree].
  apply Hfull. by vm_compute.
Defined.

(** X22 on the scenario: Carol has both skills that T1 requires, and her
    match is 100. *)
Lemma skill_match_pct_is_a_percentage_witness :
  ∃ r s c,
    suggest_reassignments events roster task_list day 3 = Ok r
    ∧ s ∈ suggestions r ∧ t_id (s_task s) = "T1"
    ∧ c ∈ recommendations s ∧ se_id (c_emp c) = 3
    ∧ skill_gap c = []
    ∧ skill_match_pct c = 100
    ∧ 0 <= skill_match_pct c <= 100.
Proof.
  do 3 eexists.
  split; [vm_compute; reflexivity|].
  split; [right; left|].
  split; [reflexivity|].
  split; [left|].
  split; [reflexivity|]. split; [reflexivity|].
  destruct (skill_match_pct_is_a_percentage events roster task_list day 3 _ eq_refl
              _ _ ltac:(right; left) ltac:(left))
    as (Hpct & _ & Hall).
  split; [|exact Hpct].
  apply Hall; [reflexivity|].
  intros Hempty%(f_equal size). by vm_compute in Hempty.
Defined.
